(** * bin/refunds.js: the keep resolution and verification pipeline

    A shallow embedding of [bin/refunds.js].  Strings are byte strings;
    JavaScript objects used as records are association lists in insertion
    order; objects used as dictionaries are finite maps; asynchronous code is
    a state-and-exception monad over the process-wide variables of the
    script and an abstract outside world (chain, file system, signer).
    The event handlers of the signer's child process run outside every
    promise; they are embedded on their own, and the script with them over
    a world that records why the script has stopped, if it has.  *)

From Stdlib Require Import Ascii String ZArith Lia Bool DecimalString.
From stdpp Require Import base option list gmap strings.

Local Open Scope stdpp_scope.

(** ** Strings *)

Module Str.

Definition code (c : ascii) : nat := nat_of_ascii c.

Definition between (lo hi : nat) (c : ascii) : bool :=
  (lo <=? code c) && (code c <=? hi).

Definition isUpper : ascii -> bool := between 65 90.
Definition isLower : ascii -> bool := between 97 122.
Definition isDigit : ascii -> bool := between 48 57.

(** The character class [[A-Za-z0-9]]. *)
Definition isAlnum (c : ascii) : bool := isUpper c || isLower c || isDigit c.

Definition lowerChar (c : ascii) : ascii :=
  if isUpper c then ascii_of_nat (code c + 32) else c.

(** [String.prototype.toLowerCase] on byte strings. *)
Fixpoint toLowerCase (s : string) : string :=
  match s with
  | EmptyString => EmptyString
  | String c t => String (lowerChar c) (toLowerCase t)
  end.

(** [Array.prototype.join] on an array of strings. *)
Fixpoint join (sep : string) (l : list string) : string :=
  match l with
  | [] => ""
  | [x] => x
  | x :: t => x +:+ sep +:+ join sep t
  end.

(** A JavaScript string is falsy exactly when it is empty. *)
Definition truthy (s : string) : bool :=
  match s with EmptyString => false | String _ _ => true end.

(** [a || b] where [a] may be [undefined]. *)
Definition orDefault (a : option string) (b : string) : string :=
  match a with
  | Some s => if truthy s then s else b
  | None => b
  end.

(** [s.replace(/0x/, "")]: the first occurrence of [0x] is removed. *)
Fixpoint replace0x (s : string) : string :=
  match s with
  | String "0" (String "x" t) => t
  | String c t => String c (replace0x t)
  | EmptyString => EmptyString
  end.

Definition eqb (a b : string) : bool := bool_decide (a = b).

(** [s.split(sep)] for a separator of one character: the pieces between
    the separators, at least one. *)
Fixpoint split (sep : ascii) (s : string) : list string :=
  match s with
  | EmptyString => [EmptyString]
  | String c t =>
      if Ascii.eqb c sep then EmptyString :: split sep t
      else
        match split sep t with
        | piece :: pieces => String c piece :: pieces
        | [] => [String c EmptyString]
        end
  end.

(** How often a character occurs in a string. *)
Fixpoint count (c : ascii) (s : string) : nat :=
  match s with
  | EmptyString => 0
  | String c' t => (if Ascii.eqb c' c then 1 else 0) + count c t
  end.

(** The white space of ASCII: tab, line feed, vertical tab, form feed,
    carriage return and space. *)
Definition isSpace (c : ascii) : bool := between 9 13 c || (code c =? 32).

Fixpoint trimStart (s : string) : string :=
  match s with
  | EmptyString => EmptyString
  | String c t => if isSpace c then trimStart t else s
  end.

Fixpoint trimEnd (s : string) : string :=
  match s with
  | EmptyString => EmptyString
  | String c t =>
      match trimEnd t with
      | EmptyString => if isSpace c then EmptyString else String c EmptyString
      | t' => String c t'
      end
  end.

(** [String.prototype.trim] on byte strings. *)
Definition trim (s : string) : string := trimEnd (trimStart s).

End Str.

(** ** Regular expressions of [readBeneficiary]

    A regular expression is embedded as the function that, given the text
    starting at the current position, yields the length of the match that
    starts there, if any.  Both expressions of the script end in a greedy
    quantifier with nothing after it, so the match at a position is the
    longest one. *)

Module Regex.

(** Leading [[A-Za-z0-9]] characters, at most [max] of them. *)
Fixpoint alnumRun (max : nat) (s : string) : nat :=
  match max, s with
  | S m, String c t => if Str.isAlnum c then S (alnumRun m t) else 0
  | _, _ => 0
  end.

(** Leading [[a-zA-Z0-9]] characters, all of them. *)
Fixpoint alnumStar (s : string) : nat :=
  match s with
  | String c t => if Str.isAlnum c then S (alnumStar t) else 0
  | EmptyString => 0
  end.

(** [[A-Za-z0-9]{26,33}] *)
Definition alnum_26_33 (s : string) : option nat :=
  let n := alnumRun 33 s in
  if 26 <=? n then Some n else None.

(** [/(?:1|3|bc1)[A-Za-z0-9]{26,33}/] at the start of [s]. *)
Definition addressAt (s : string) : option nat :=
  match s with
  | String "1" t => S <$> alnum_26_33 t
  | String "3" t => S <$> alnum_26_33 t
  | String "b" (String "c" (String "1" t)) => (fun n => 3 + n) <$> alnum_26_33 t
  | _ => None
  end.

(** [/[xyz]pub[a-zA-Z0-9]*/] at the start of [s]. *)
Definition pubAt (s : string) : option nat :=
  match s with
  | String c (String "p" (String "u" (String "b" t))) =>
      if bool_decide (c = "x" \/ c = "y" \/ c = "z")%char
      then Some (4 + alnumStar t) else None
  | _ => None
  end.

(** [[...s.matchAll(re)].map(_ => _[0])] for a global expression: scan
    left to right; after a match the scan resumes behind it ([skip] counts
    the characters of the current match still to pass over). *)
Fixpoint matchAllFrom (re : string -> option nat) (skip : nat) (s : string)
  : list string :=
  match s with
  | EmptyString => []
  | String _ t =>
      match skip with
      | S k => matchAllFrom re k t
      | O =>
          match re s with
          | Some len => substring 0 len s :: matchAllFrom re (pred len) t
          | None => matchAllFrom re 0 t
          end
      end
  end.

Definition matchAll (re : string -> option nat) (s : string) : list string :=
  matchAllFrom re 0 s.

End Regex.

(** ** Exceptions and results *)

(** An exception is kept as the text that [`${e}`] renders for it. *)
Definition Exn := string.

(** [new Error(msg)], which renders as [Error: msg]. *)
Definition Error (msg : string) : Exn := "Error: " +:+ msg.

Inductive Result (A : Type) : Type :=
| Ok (a : A)
| Throw (e : Exn).
Arguments Ok {A} a.
Arguments Throw {A} e.

(** ** Destination extraction (lines 374-401 of [readBeneficiary]) *)

Definition addressMatches (msg : string) : list string :=
  Regex.matchAll Regex.addressAt msg.

Definition pubMatches (msg : string) : list string :=
  Regex.matchAll Regex.pubAt msg.

Definition extractDestination (operatorAddress msg : string) : Result string :=
  let addresses := addressMatches msg in
  if 1 <? length addresses then
    Throw (Error ("Beneficiary message for " +:+ operatorAddress +:+
                  " includes too many addresses: " +:+ Str.join "," addresses))
  else
    match addresses with
    | [a] => Ok a
    | _ =>
        let pubs := pubMatches msg in
        if 1 <? length pubs then
          Throw (Error ("Beneficiary message for " +:+ operatorAddress +:+
                        " includes too many addresses: " +:+ Str.join "," addresses))
        else
          match pubs with
          | [p] => Ok p
          | _ =>
              Throw (Error ("Could not find a valid BTC address or *pub in signed message for "
                            +:+ operatorAddress +:+ ": " +:+ msg))
          end
    end.

(** ** Attestation file name (lines 327-331 of [readBeneficiary]) *)

Definition beneficiaryFile (beneficiaryDirectory : option string)
    (operatorAddress : string) : string :=
  Str.orDefault beneficiaryDirectory "beneficiaries" +:+ "/" +:+
  Str.toLowerCase operatorAddress +:+ ".json".

(** ** JavaScript values and row records *)

Inductive jsval : Type :=
| JUndefined
| JNull
| JStr (s : string)
| JNum (n : Z).

#[global] Instance jsval_eq_dec : EqDecision jsval.
Proof. solve_decision. Defined.

Module Js.

Definition truthy (v : jsval) : bool :=
  match v with
  | JStr s => Str.truthy s
  | JNum n => negb (n =? 0)%Z
  | JUndefined | JNull => false
  end.

Definition digits (n : Z) : string :=
  DecimalString.NilZero.string_of_int (Z.to_int n).

(** [String(v)], as used by string concatenation. *)
Definition toString (v : jsval) : string :=
  match v with
  | JUndefined => "undefined"
  | JNull => "null"
  | JStr s => s
  | JNum n => digits n
  end.

(** How [Array.prototype.join] renders an element: [undefined] and
    [null] become the empty string. *)
Definition joinItem (v : option jsval) : string :=
  match v with
  | None | Some JUndefined | Some JNull => ""
  | Some v => toString v
  end.

End Js.

(** A row is an object whose own properties are kept in insertion order.
    No field name of the script is an array index, so [Object.keys] lists
    them in that order. *)
Definition Row := list (string * jsval).

Module Obj.

Fixpoint get {V : Type} (k : string) (r : list (string * V)) : option V :=
  match r with
  | [] => None
  | (k', v) :: t => if Str.eqb k k' then Some v else get k t
  end.

(** Assignment of one property: an existing key keeps its place. *)
Fixpoint set {V : Type} (k : string) (v : V) (r : list (string * V))
  : list (string * V) :=
  match r with
  | [] => [(k, v)]
  | (k', v') :: t => if Str.eqb k k' then (k, v) :: t else (k', v') :: set k v t
  end.

(** [{ ...a, ...b }] *)
Definition spread {V : Type} (a b : list (string * V)) : list (string * V) :=
  fold_left (fun acc kv => set kv.1 kv.2 acc) b a.

(** [Object.keys] *)
Definition keys {V : Type} (r : list (string * V)) : list string := r.*1.

(** [row.field] *)
Definition field (k : string) (r : Row) : jsval :=
  default JUndefined (get k r).

End Obj.

(** [row.error] is truthy. *)
Definition hasError (row : Row) : bool := Js.truthy (Obj.field "error" row).

(** [row.keep], as a string. *)
Definition keepOf (row : Row) : string := Js.toString (Obj.field "keep" row).

(** ** The outside world and the process-wide variables *)

(** A promise handed back by a chain query, with the way it settles. *)
Inductive Promise : Type :=
| Fulfilled (v : string)
| Rejected (e : Exn).

(** An entry of [delegationInfoCache]. *)
Record DelegationInfo : Type := mkInfo {
  beneficiary : option Promise;
  owner : option Promise
}.

Inductive Field : Type := FBeneficiary | FOwner.

#[global] Instance Field_eq_dec : EqDecision Field.
Proof. solve_decision. Defined.

(** The parsed contents of an attestation file. *)
Record Artifact : Type := mkArtifact {
  msg : option string;
  sig : option string;
  address : option string
}.

(** The collaborators of the script.  [W] is the state of everything
    outside the process; every query may read and change it. *)
Record Collab (W : Type) : Type := mkCollab {
  keyShareDirectory : option string;      (* -s *)
  beneficiaryDirectory : option string;   (* -o *)
  stat_isDirectory : string -> W -> Result bool * W;
  stat_isFile : string -> W -> Result bool * W;
  readdir : string -> W -> Result (list string) * W;
  readFile : string -> W -> Result string * W;
  (* the promise of [signDigest] once it has settled: resolved with
     (signature, publicKey) or rejected; [Signer] below has the child
     process behind it, and what happens when it does not settle *)
  signDigest : string -> string -> W -> Result (string * string) * W;
  getBlockNumber : W -> Result N * W;
  isClosed : string -> N -> W -> Result bool * W;
  isTerminated : string -> N -> W -> Result bool * W;
  getPublicKey : string -> W -> Result string * W;
  getMembers : string -> W -> Result (list string) * W;
  getBalance : string -> W -> Result Z * W;
  publicKeyToP2WPKHAddress : string -> Result string;
  JSON_parse : string -> Result Artifact;
  recover : string -> string -> Result string;
  (* [tokenStaking().methods.beneficiaryOf(operator).call()] *)
  beneficiaryOf_call : string -> W -> Promise * W;
  contractsFromWeb3 : W -> Result unit * W;
  (* [lookupOwner(web3, contracts, operator)] *)
  lookupOwner : string -> W -> Promise * W
}.
Arguments keyShareDirectory {W} _.
Arguments beneficiaryDirectory {W} _.
Arguments stat_isDirectory {W} _ _ _.
Arguments stat_isFile {W} _ _ _.
Arguments readdir {W} _ _ _.
Arguments readFile {W} _ _ _.
Arguments signDigest {W} _ _ _ _.
Arguments getBlockNumber {W} _ _.
Arguments isClosed {W} _ _ _ _.
Arguments isTerminated {W} _ _ _ _.
Arguments getPublicKey {W} _ _ _.
Arguments getMembers {W} _ _ _.
Arguments getBalance {W} _ _ _.
Arguments publicKeyToP2WPKHAddress {W} _ _.
Arguments JSON_parse {W} _ _.
Arguments recover {W} _ _ _.
Arguments beneficiaryOf_call {W} _ _ _.
Arguments contractsFromWeb3 {W} _ _.
Arguments lookupOwner {W} _ _ _.

(** The module-level variables of the script, the world, and a record of
    the delegation queries issued so far (most recent first). *)
Record State (W : Type) : Type := mkState {
  world : W;
  startingBlock : option N;
  delegationInfoCache : gmap string DelegationInfo;
  operatorBeneficiaries : gmap string string;
  issued : list (Field * string)
}.
Arguments mkState {W} _ _ _ _ _.
Arguments world {W} _.
Arguments startingBlock {W} _.
Arguments delegationInfoCache {W} _.
Arguments operatorBeneficiaries {W} _.
Arguments issued {W} _.

Definition initialState {W : Type} (w : W) : State W :=
  mkState w None ∅ ∅ [].

(** ** The monad of asynchronous code *)

Definition M (W A : Type) : Type := State W -> Result A * State W.

Definition ret {W A} (a : A) : M W A := fun st => (Ok a, st).

Definition throw {W A} (e : Exn) : M W A := fun st => (Throw e, st).

Definition bind {W A B} (m : M W A) (k : A -> M W B) : M W B :=
  fun st =>
    match m st with
    | (Ok a, st') => k a st'
    | (Throw e, st') => (Throw e, st')
    end.

Notation "x <- m ;; k" := (bind m (fun x => k))
  (at level 20, m at level 99, k at level 200, right associativity).
Notation "'exec' m ;; k" := (bind m (fun _ => k))
  (at level 20, m at level 99, k at level 200, right associativity).

(** [try { body } catch (e) { handler }] *)
Definition tryCatch {W A} (body : M W A) (handler : Exn -> M W A) : M W A :=
  fun st =>
    match body st with
    | (Ok a, st') => (Ok a, st')
    | (Throw e, st') => handler e st'
    end.

(** A synchronous computation that may throw. *)
Definition liftR {W A} (r : Result A) : M W A := fun st => (r, st).

(** An awaited query to the outside world. *)
Definition ask {W A} (q : W -> Result A * W) : M W A :=
  fun st =>
    let (r, w) := q (world st) in
    (r, mkState w (startingBlock st) (delegationInfoCache st)
          (operatorBeneficiaries st) (issued st)).

(** [await p] for a promise [p] met before. *)
Definition await {W} (p : Promise) : M W string :=
  match p with
  | Fulfilled v => ret v
  | Rejected e => throw e
  end.

(** [Promise.all]: every task runs, here one after the other in the order
    of the array; the first failure, if any, is the outcome. *)
Fixpoint promiseAll {W A} (tasks : list (M W A)) : M W (list A) :=
  match tasks with
  | [] => ret []
  | t :: ts =>
      fun st =>
        let (r, st1) := t st in
        let (rs, st2) := promiseAll ts st1 in
        (match r, rs with
         | Ok a, Ok l => Ok (a :: l)
         | Throw e, _ => Throw e
         | Ok _, Throw e => Throw e
         end, st2)
  end.

(** ** The script *)

Section Refunds.

Context {W : Type} (E : Collab W).

Definition getState : M W (State W) := fun st => (Ok st, st).

(** [signDigest]'s directory, also used by [keySharesReady]. *)
Definition keepDirectory (keepAddress : string) : string :=
  Str.orDefault (keyShareDirectory E) "key-shares" +:+ "/" +:+ keepAddress.

Definition keySharesReady (keepAddress : string) : M W bool :=
  tryCatch
    (isDir <- ask (stat_isDirectory E (keepDirectory keepAddress));;
     if (isDir : bool) then
       (files <- ask (readdir E (keepDirectory keepAddress));;
        if length files =? 3 then
          (exec ask (signDigest E keepAddress "deadbeef");;
           ret true)
        else ret false)
     else ret false)
    (fun _ => ret false).

(** [keepAt] only attaches the address to a contract handle; a handle is
    represented by that address. *)
Definition keepAt (keepAddress : string) : string := keepAddress.

Definition setStartingBlock (b : N) : M W unit :=
  fun st =>
    (Ok tt, mkState (world st) (Some b) (delegationInfoCache st)
              (operatorBeneficiaries st) (issued st)).

Definition referenceBlock : M W N :=
  st <- getState;;
  match startingBlock st with
  | Some b =>
      if (b =? 0)%N then
        (b' <- ask (getBlockNumber E);; exec setStartingBlock b';; ret b')
      else ret b
  | None =>
      b' <- ask (getBlockNumber E);; exec setStartingBlock b';; ret b'
  end.

(** *** The delegation cache *)

Definition cached (f : Field) (operatorAddress : string) (st : State W)
  : option Promise :=
  info ← delegationInfoCache st !! operatorAddress;
  match f with
  | FBeneficiary => beneficiary info
  | FOwner => owner info
  end.

(** [delegationInfoCache[operatorAddress] || {}] *)
Definition entryOrEmpty (operatorAddress : string) (st : State W)
  : DelegationInfo :=
  default (mkInfo None None) (delegationInfoCache st !! operatorAddress).

(** Not an [async] function: the query is started and the promise it
    hands back is stored at once, in one step. *)
Definition beneficiaryOf (operatorAddress : string) : M W Promise :=
  fun st =>
    match cached FBeneficiary operatorAddress st with
    | Some p => (Ok p, st)
    | None =>
        let (p, w) := beneficiaryOf_call E operatorAddress (world st) in
        let info := entryOrEmpty operatorAddress st in
        (Ok p,
         mkState w (startingBlock st)
           (<[operatorAddress := mkInfo (Some p) (owner info)]>
              (delegationInfoCache st))
           (operatorBeneficiaries st)
           ((FBeneficiary, operatorAddress) :: issued st))
    end.

(** Lines 263-268 of [deepOwnerOf]: the look into the cache. *)
Definition deepOwnerOf_cached (operatorAddress : string)
  : M W (option Promise) :=
  fun st => (Ok (cached FOwner operatorAddress st), st).

(** Lines 270-279 of [deepOwnerOf], once [contractsFromWeb3] has been
    awaited: the owner query and the store. *)
Definition deepOwnerOf_store (operatorAddress : string) : M W Promise :=
  fun st =>
    let (p, w) := lookupOwner E operatorAddress (world st) in
    let info := entryOrEmpty operatorAddress st in
    (Ok p,
     mkState w (startingBlock st)
       (<[operatorAddress := mkInfo (beneficiary info) (Some p)]>
          (delegationInfoCache st))
       (operatorBeneficiaries st)
       ((FOwner, operatorAddress) :: issued st)).

(** A call of [deepOwnerOf] that nothing else interleaves with. *)
Definition deepOwnerOf (operatorAddress : string) : M W Promise :=
  hit <- deepOwnerOf_cached operatorAddress;;
  match hit with
  | Some p => ret p
  | None =>
      exec ask (contractsFromWeb3 E);;
      deepOwnerOf_store operatorAddress
  end.

(** *** Status and balance *)

Definition keepStatusCompleted (keepAddress : string) : M W (option string) :=
  block <- referenceBlock;;
  let keepContract := keepAt keepAddress in
  closed <- ask (isClosed E keepContract block);;
  if (closed : bool) then ret (Some "closed")
  else
    (terminated <- ask (isTerminated E keepContract block);;
     if (terminated : bool) then ret (Some "terminated") else ret None).

Definition keepHoldsBtc (keepAddress : string) : M W (string * Z) :=
  let keepContract := keepAt keepAddress in
  pubkey <- ask (getPublicKey E keepContract);;
  bitcoinAddress <-
    liftR (publicKeyToP2WPKHAddress E (Str.replace0x pubkey));;
  btcBalance <- ask (getBalance E bitcoinAddress);;
  ret (bitcoinAddress, btcBalance).

(** *** Attestations *)

Definition setOperatorBeneficiary (operatorAddress d : string) : M W unit :=
  fun st =>
    (Ok tt, mkState (world st) (startingBlock st) (delegationInfoCache st)
              (<[operatorAddress := d]> (operatorBeneficiaries st))
              (issued st)).

Definition present (o : option string) : bool :=
  match o with Some s => Str.truthy s | None => false end.

(** [await beneficiaryOf(...)], [await deepOwnerOf(...)] *)
Definition awaited (call : M W Promise) : M W string :=
  p <- call;; await p.

(** Lines 363-372: the check of who signed. [true] means the error is
    raised. *)
Definition signerRejected (operatorAddress recoveredAddress : string)
  : M W bool :=
  b <- awaited (beneficiaryOf operatorAddress);;
  if negb (Str.eqb (Str.toLowerCase recoveredAddress) (Str.toLowerCase b))
  then
    (o <- awaited (deepOwnerOf operatorAddress);;
     ret (Str.eqb (Str.toLowerCase recoveredAddress) (Str.toLowerCase o)))
  else ret false.

Definition readBeneficiary (operatorAddress : string) : M W (option string) :=
  st <- getState;;
  if present (operatorBeneficiaries st !! operatorAddress) then
    ret (operatorBeneficiaries st !! operatorAddress)
  else
    let file := beneficiaryFile (beneficiaryDirectory E) operatorAddress in
    isFile <- tryCatch (ask (stat_isFile E file)) (fun _ => ret false);;
    if negb isFile then ret None
    else
      contents <- ask (readFile E file);;
      jsonContents <- liftR (JSON_parse E contents);;
      if negb (present (msg jsonContents)) || negb (present (sig jsonContents))
         || negb (present (address jsonContents))
      then
        throw (Error ("Invalid format for " +:+ operatorAddress +:+
                      ": message, signature, or signing address missing."))
      else
        let m := default "" (msg jsonContents) in
        recoveredAddress <-
          liftR (recover E m (default "" (sig jsonContents)));;
        if negb (Str.eqb recoveredAddress (default "" (address jsonContents)))
        then
          throw (Error ("Recovered address does not match signing address for "
                        +:+ operatorAddress +:+ "."))
        else
          rejected <- signerRejected operatorAddress recoveredAddress;;
          if (rejected : bool) then
            throw (Error ("Beneficiary address for " +:+ operatorAddress +:+
                          " was not signed by operator owner or beneficiary."))
          else
            d <- liftR (extractDestination operatorAddress m);;
            exec setOperatorBeneficiary operatorAddress d;;
            ret (Some d).

(** [beneficiaries[i]] as a property value: [null] for a missing file,
    [undefined] past the end of the array. *)
Definition beneficiaryAt (beneficiaries : list (option string)) (i : nat)
  : jsval :=
  match beneficiaries !! i with
  | Some (Some d) => JStr d
  | Some None => JNull
  | None => JUndefined
  end.

(** The operators whose beneficiary is [null]. *)
Fixpoint unavailable (beneficiaries : list (option string))
    (operators : list string) : list string :=
  match beneficiaries, operators with
  | None :: bs, o :: os => o :: unavailable bs os
  | Some _ :: bs, _ :: os => unavailable bs os
  | _, _ => []
  end.

Definition beneficiariesAvailableAndSigned (keepAddress : string) : M W Row :=
  let keepContract := keepAt keepAddress in
  operators <- ask (getMembers E keepContract);;
  tryCatch
    (beneficiaries <- promiseAll (map readBeneficiary operators);;
     let unavailableBeneficiaries := unavailable beneficiaries operators in
     if 0 <? length unavailableBeneficiaries then
       ret [("error",
             JStr ("not all beneficiaries are available (missing " +:+
                   Str.join "," unavailableBeneficiaries +:+ ")"))]
     else
       ret [("beneficiary1", beneficiaryAt beneficiaries 0);
            ("beneficiary2", beneficiaryAt beneficiaries 1);
            ("beneficiary3", beneficiaryAt beneficiaries 2)])
    (fun e => ret [("error", JStr ("beneficiary lookup failed: " +:+ e))]).

Definition buildAndBroadcastLiquidationSplit (keepData : Row) : M W Row :=
  ret [].

(** *** The pipeline *)

Definition withError (row : Row) (reason : string) : Row :=
  Obj.spread row [("error", JStr reason)].

Definition genericStatusProcessors : list (Row -> M W Row) :=
  [ (fun row =>
       ready <- keySharesReady (keepOf row);;
       if (ready : bool) then ret row else ret (withError row "missing key shares"));
    (fun row =>
       status <- keepStatusCompleted (keepOf row);;
       match status with
       | Some s => ret (Obj.spread row [("status", JStr s)])
       | None => ret (withError row "no status")
       end);
    (fun row =>
       balanceData <- keepHoldsBtc (keepOf row);;
       if (balanceData.2 >? 0)%Z then
         ret (Obj.spread row [("bitcoinAddress", JStr balanceData.1);
                              ("btcBalance", JNum balanceData.2)])
       else ret (withError row "no BTC")) ].

Definition liquidationProcessors : list (Row -> M W Row) :=
  [ (fun row =>
       beneficiaries <- beneficiariesAvailableAndSigned (keepOf row);;
       ret (Obj.spread row beneficiaries));
    (fun row =>
       transactionData <- buildAndBroadcastLiquidationSplit row;;
       ret (Obj.spread row transactionData)) ].

Definition misfundProcessors : list (Row -> M W Row) :=
  [ (fun row => ret row) ].

(** One turn of the reducer of [processThrough]. *)
Definition processStep (rowPromise : M W Row) (process : Row -> M W Row)
  : M W Row :=
  row <- rowPromise;;
  tryCatch
    (if negb (hasError row) then process row else ret row)
    (fun e => ret (withError row ("Error processing transaction: " +:+ e))).

Definition processThrough (inputData : Row)
    (processors : list (Row -> M W Row)) : M W Row :=
  fold_left processStep processors (ret inputData).

Definition statusIs (s : string) (row : Row) : bool :=
  bool_decide (Obj.field "status" row = JStr s).

(** The task of one keep (the callback of [Array.from(keeps).map]); the
    assignment of the Electrum configuration has no part in the result. *)
Definition keepTask (keep : string) : M W Row :=
  basicInfo <- processThrough [("keep", JStr keep)] genericStatusProcessors;;
  if statusIs "terminated" basicInfo then
    processThrough basicInfo liquidationProcessors
  else if statusIs "closed" basicInfo then
    processThrough basicInfo misfundProcessors
  else ret basicInfo.

(** [Set.prototype.add] on a set kept in insertion order. *)
Definition setAdd (s : list string) (x : string) : list string :=
  if bool_decide (x ∈ s) then s else s ++ [x].

(** A row of the parsed input table. *)
Definition keepColumn (inputRow : list (string * string)) : option string :=
  Obj.get "keep" inputRow.

Definition distinctKeeps (keepRows : list (list (string * string)))
  : list string :=
  fold_left (fun keepSet inputRow => setAdd keepSet (default "" (keepColumn inputRow)))
    (filter (fun inputRow => present (keepColumn inputRow)) keepRows) [].

Definition processKeeps (keepRows : list (list (string * string)))
  : M W (list Row) :=
  promiseAll (map keepTask (distinctKeeps keepRows)).

(** *** The report (the [complete] callback) *)

Definition allKeys (keepRows : list Row) : list string :=
  fold_left setAdd (flat_map Obj.keys keepRows) [].

Definition arrayRows (keepRows : list Row) : list (list (option jsval)) :=
  map (fun row => map (fun key => Obj.get key row) (allKeys keepRows)) keepRows.

Definition table (keepRows : list Row) : list (list (option jsval)) :=
  [map (fun key => Some (JStr key)) (allKeys keepRows)] ++ arrayRows keepRows.

Definition report (keepRows : list Row) : string :=
  Str.join (String "010" "")
    (map (fun cells => Str.join "," (map Js.joinItem cells)) (table keepRows)).

Definition main (input : list (list (string * string))) : M W string :=
  keepRows <- processKeeps input;;
  ret (report keepRows).

End Refunds.

(** ** Calls to the delegation cache over a run

    [beneficiaryOf] runs in one step.  [deepOwnerOf] suspends at its
    [await] between the look into the cache and the store, so other calls
    may run in between: a run is a sequence of whole calls and of the two
    halves of suspended calls. *)

Inductive CacheCall : Type :=
| CallBeneficiaryOf (operatorAddress : string)
| CallDeepOwnerOf (operatorAddress : string)
| EnterDeepOwnerOf (operatorAddress : string)
| ResumeDeepOwnerOf (operatorAddress : string).

Fixpoint removeOne (x : string) (l : list string) : list string :=
  match l with
  | [] => []
  | y :: t => if Str.eqb x y then t else y :: removeOne x t
  end.

Section Runs.

Context {W : Type} (E : Collab W).

(** The second component lists the suspended calls of [deepOwnerOf]. *)
Definition stepCall (s : State W * list string) (c : CacheCall)
  : State W * list string :=
  match c with
  | CallBeneficiaryOf op => ((beneficiaryOf E op s.1).2, s.2)
  | CallDeepOwnerOf op => ((deepOwnerOf E op s.1).2, s.2)
  | EnterDeepOwnerOf op =>
      match deepOwnerOf_cached op s.1 with
      | (Ok None, st) =>
          match ask (contractsFromWeb3 E) st with
          | (Ok _, st') => (st', op :: s.2)
          | (Throw _, st') => (st', s.2)
          end
      | (_, st) => (st, s.2)
      end
  | ResumeDeepOwnerOf op =>
      if bool_decide (op ∈ s.2)
      then ((deepOwnerOf_store E op s.1).2, removeOne op s.2)
      else s
  end.

(** A call that runs from start to end with nothing in between. *)
Definition wholeCall (c : CacheCall) : bool :=
  match c with
  | CallBeneficiaryOf _ | CallDeepOwnerOf _ => true
  | EnterDeepOwnerOf _ | ResumeDeepOwnerOf _ => false
  end.

Definition runCalls (calls : list CacheCall) (s : State W * list string)
  : State W * list string :=
  fold_left stepCall calls s.

(** How many queries for a field of a signer have been issued. *)
Definition queriesIssued (f : Field) (op : string) (st : State W) : nat :=
  length (filter (fun q => q = (f, op)) (issued st)).

(** At most one query was issued, and none while the cache is empty. *)
Definition countedOnce (f : Field) (op : string) (st : State W) : Prop :=
  queriesIssued f op st <= 1 /\
  (cached f op st = None -> queriesIssued f op st = 0).

(** The stages a keep's task dispatches after the generic ones. *)
Definition branchOf (basicInfo : Row) : list (Row -> M W Row) :=
  if statusIs "terminated" basicInfo then liquidationProcessors E
  else if statusIs "closed" basicInfo then misfundProcessors
  else [].

(** *** The liquidation scenario *)

Definition keySharesPresent (keep : string) : Prop :=
  (forall w, (stat_isDirectory E (keepDirectory E keep) w).1 = Ok true) /\
  (forall w, exists files,
      (readdir E (keepDirectory E keep) w).1 = Ok files /\ length files = 3) /\
  (forall w, exists r, (signDigest E keep "deadbeef" w).1 = Ok r).

Definition resolvesTerminated (keep : string) : Prop :=
  (forall w, exists b, (getBlockNumber E w).1 = Ok b) /\
  (forall b w, (isClosed E keep b w).1 = Ok false) /\
  (forall b w, (isTerminated E keep b w).1 = Ok true).

Definition holdsBalance (keep addr : string) (bal : Z) : Prop :=
  exists pk,
    (forall w, (getPublicKey E keep w).1 = Ok pk) /\
    publicKeyToP2WPKHAddress E (Str.replace0x pk) = Ok addr /\
    (forall w, (getBalance E addr w).1 = Ok bal).

(** The attestation of a signer is on file, recovers to the address it
    claims, that address is the signer's beneficiary, and the message
    names a destination. *)
Definition attestedByBeneficiary (op : string) : Prop :=
  exists contents m s a b d,
    let file := beneficiaryFile (beneficiaryDirectory E) op in
    (forall w, (stat_isFile E file w).1 = Ok true) /\
    (forall w, (readFile E file w).1 = Ok contents) /\
    JSON_parse E contents = Ok (mkArtifact (Some m) (Some s) (Some a)) /\
    Str.truthy m = true /\ Str.truthy s = true /\ Str.truthy a = true /\
    recover E m s = Ok a /\
    (forall w, (beneficiaryOf_call E op w).1 = Fulfilled b) /\
    Str.toLowerCase a = Str.toLowerCase b /\
    extractDestination op m = Ok d.

(** Every beneficiary promise in the cache is one the chain client handed
    back. *)
Definition cacheFromChain (st : State W) : Prop :=
  forall op p, cached FBeneficiary op st = Some p ->
               exists w, p = (beneficiaryOf_call E op w).1.

End Runs.

(** ** Words of the specification *)


(** The file name the header of the script documents:
    [beneficiary-<address>.json] in the beneficiary directory. *)
Definition documentedBeneficiaryFile (beneficiaryDirectory : option string)
    (operatorAddress : string) : string :=
  Str.orDefault beneficiaryDirectory "beneficiaries" +:+ "/" +:+
  "beneficiary-" +:+ Str.toLowerCase operatorAddress +:+ ".json".

(** The elements of a list in the order of their first occurrence. *)
Fixpoint firstSeen (l : list string) : list string :=
  match l with
  | [] => []
  | x :: t => x :: filter (fun y => y <> x) (firstSeen t)
  end.

(** The non-empty [keep] cells of the input table, row by row. *)
Definition keepCells (input : list (list (string * string))) : list string :=
  omap (fun inputRow =>
          match keepColumn inputRow with
          | Some k => if Str.truthy k then Some k else None
          | None => None
          end) input.

(** The signer the policy check turns down: not the beneficiary, and the
    owner. *)
Definition policyRejects (recovered b o : string) : bool :=
  negb (Str.eqb (Str.toLowerCase recovered) (Str.toLowerCase b)) &&
  Str.eqb (Str.toLowerCase recovered) (Str.toLowerCase o).

(** A stage result only adds or overwrites fields other than [keep], and
    an [error] it writes is a non-empty text. *)
Definition okUpdate (upd : Row) : Prop :=
  Forall (fun kv => kv.1 <> "keep" /\ (kv.1 = "error" -> Js.truthy kv.2 = true)) upd.

Definition stageSound {W : Type} (process : Row -> M W Row) : Prop :=
  forall row st r st',
    process row st = (Ok r, st') -> exists upd, r = Obj.spread row upd /\ okUpdate upd.

(** The row of a keep: its [keep] field is the keep, and an [error] field,
    if any, is truthy. *)
Definition rowOf (keep : string) (row : Row) : Prop :=
  Obj.get "keep" row = Some (JStr keep) /\
  (forall v, Obj.get "error" row = Some v -> Js.truthy v = true).

(** ** Concrete scenarios *)

Module Scenario.

Definition destination : string := "1BoatSLRHtKNngkdXEeobR76b53LETtpyT".

Definition message : string := "pay 1BoatSLRHtKNngkdXEeobR76b53LETtpyT please".

(** Signer [0xOp1] signs with its beneficiary address, [0xOp2] with its
    owner address, [0xOp3] with an address that is neither. *)
Definition signerOf (file : string) : string :=
  if Str.eqb file "beneficiaries/0xop2.json" then "0x0A11CE"
  else if Str.eqb file "beneficiaries/0xop3.json" then "0x5A7A17"
  else "0xBEEF01".

(** The world counts the delegation queries answered so far; the first
    beneficiary query of [0xOp9] fails and later ones would succeed. *)
Definition chain (members : list string) : Collab nat := {|
  keyShareDirectory := None;
  beneficiaryDirectory := None;
  stat_isDirectory := fun _ w => (Ok true, w);
  stat_isFile := fun _ w => (Ok true, w);
  readdir := fun _ w => (Ok ["share1"; "share2"; "share3"], w);
  readFile := fun file w => (Ok file, w);
  signDigest := fun _ _ w => (Ok ("signature", "publicKey"), w);
  getBlockNumber := fun w => (Ok 9000%N, w);
  isClosed := fun keep _ w => (Ok (Str.eqb keep "K2"), w);
  isTerminated := fun keep _ w => (Ok (Str.eqb keep "K1" || Str.eqb keep "K3"), w);
  getPublicKey := fun keep w => (Ok ("0x04" +:+ keep), w);
  getMembers := fun _ w => (Ok members, w);
  getBalance := fun addr w =>
    (Ok (if Str.eqb addr "bc1q04K2" then 0%Z else 5000000%Z), w);
  publicKeyToP2WPKHAddress := fun pk => Ok ("bc1q" +:+ pk);
  JSON_parse := fun contents =>
    Ok (mkArtifact (Some message) (Some (signerOf contents)) (Some (signerOf contents)));
  recover := fun _ signature => Ok signature;
  beneficiaryOf_call := fun op w =>
    (if Str.eqb op "0xOp9" && (w =? 0) then Rejected "Error: connection lost"
     else Fulfilled "0xbeef01", S w);
  contractsFromWeb3 := fun w => (Ok tt, w);
  lookupOwner := fun _ w => (Fulfilled "0x0a11ce", S w)
|}.

Definition threeSigners : Collab nat := chain ["0xOp1"; "0xOp2"; "0xOp3"].

Definition allByBeneficiary : Collab nat := chain ["0xOp1"; "0xOp4"; "0xOp5"].

(** A stage that always throws. *)
Definition failingStage : Row -> M nat Row :=
  fun _ => throw (Error "boom").

End Scenario.

(** ** Further notions for the rest of the script *)

(** The state after a query to the outside world: only the world moved. *)
Definition setWorld {W : Type} (w : W) (st : State W) : State W :=
  mkState w (startingBlock st) (delegationInfoCache st)
    (operatorBeneficiaries st) (issued st).

(** What later states keep of an earlier one: a reference block once it is
    set (and not zero), every destination and every delegation promise in
    the caches, and the record of the queries issued. *)
Definition extends {W : Type} (st st' : State W) : Prop :=
  (forall b, startingBlock st = Some b -> b <> 0%N -> startingBlock st' = Some b) /\
  (forall op d, operatorBeneficiaries st !! op = Some d -> Str.truthy d = true ->
                operatorBeneficiaries st' !! op = Some d) /\
  (forall f op p, cached f op st = Some p -> cached f op st' = Some p) /\
  (exists later, issued st' = later ++ issued st).

(** A computation whose final state is related to its initial state. *)
Definition follows {W A : Type} (R : State W -> State W -> Prop) (m : M W A)
  : Prop :=
  forall st r st', m st = (r, st') -> R st st'.

(** Only the world and the delegation cache move. *)
Definition sameTables {W : Type} (st st' : State W) : Prop :=
  extends st st' /\
  startingBlock st' = startingBlock st /\
  operatorBeneficiaries st' = operatorBeneficiaries st.

(** Only the world moves. *)
Definition sameProcess {W : Type} (st st' : State W) : Prop :=
  startingBlock st' = startingBlock st /\
  delegationInfoCache st' = delegationInfoCache st /\
  operatorBeneficiaries st' = operatorBeneficiaries st /\
  issued st' = issued st.

(** The caches and the record of queries are as they were; the world and
    the reference block may have moved. *)
Definition sameCaches {W : Type} (st st' : State W) : Prop :=
  delegationInfoCache st' = delegationInfoCache st /\
  operatorBeneficiaries st' = operatorBeneficiaries st /\
  issued st' = issued st.

(** The first field of a row is [keep]. *)
Definition keepFirst (row : Row) : Prop :=
  exists v rest, row = ("keep", v) :: rest.

(** The status values a row may hold. *)
Definition isStatus (s : string) : Prop := s = "closed" \/ s = "terminated".

(** The value of a beneficiary field of a row without error. *)
Definition isBeneficiary (v : jsval) : Prop :=
  (exists d, v = JStr d) \/ v = JUndefined.

(** The error texts of the liquidation branch. *)
Inductive liquidationError : string -> Prop :=
| err_missing (missing : list string) :
    missing <> [] ->
    liquidationError ("not all beneficiaries are available (missing " +:+
                      Str.join "," missing +:+ ")")
| err_lookup (e : Exn) :
    liquidationError ("beneficiary lookup failed: " +:+ e)
| err_members (e : Exn) :
    liquidationError ("Error processing transaction: " +:+ e).

(** The rows a keep's task can end with. *)
Inductive terminalRow (keep : string) : Row -> Prop :=
| row_no_shares :
    terminalRow keep [("keep", JStr keep); ("error", JStr "missing key shares")]
| row_no_status :
    terminalRow keep [("keep", JStr keep); ("error", JStr "no status")]
| row_status_failed (e : Exn) :
    terminalRow keep [("keep", JStr keep);
                      ("error", JStr ("Error processing transaction: " +:+ e))]
| row_no_btc (s : string) :
    isStatus s ->
    terminalRow keep [("keep", JStr keep); ("status", JStr s);
                      ("error", JStr "no BTC")]
| row_balance_failed (s : string) (e : Exn) :
    isStatus s ->
    terminalRow keep [("keep", JStr keep); ("status", JStr s);
                      ("error", JStr ("Error processing transaction: " +:+ e))]
| row_closed (addr : string) (bal : Z) :
    (0 < bal)%Z ->
    terminalRow keep [("keep", JStr keep); ("status", JStr "closed");
                      ("bitcoinAddress", JStr addr); ("btcBalance", JNum bal)]
| row_liquidation_failed (addr : string) (bal : Z) (reason : string) :
    (0 < bal)%Z ->
    liquidationError reason ->
    terminalRow keep [("keep", JStr keep); ("status", JStr "terminated");
                      ("bitcoinAddress", JStr addr); ("btcBalance", JNum bal);
                      ("error", JStr reason)]
| row_liquidation (addr : string) (bal : Z) (v1 v2 v3 : jsval) :
    (0 < bal)%Z ->
    isBeneficiary v1 -> isBeneficiary v2 -> isBeneficiary v3 ->
    terminalRow keep [("keep", JStr keep); ("status", JStr "terminated");
                      ("bitcoinAddress", JStr addr); ("btcBalance", JNum bal);
                      ("beneficiary1", v1); ("beneficiary2", v2);
                      ("beneficiary3", v3)].

(** The attestation file of a signer is not there: [stat] fails or does
    not find a regular file. *)
Definition fileMissing {W : Type} (E : Collab W) (op : string) : Prop :=
  forall w,
    (stat_isFile E (beneficiaryFile (beneficiaryDirectory E) op) w).1 <> Ok true.

(** A signer marked [true] has its attestation on file, signed by its
    beneficiary; a signer marked [false] has no file and no destination in
    the cache. *)
Definition readable {W : Type} (E : Collab W) (st : State W) (op : string)
    (mark : bool) : Prop :=
  if mark then attestedByBeneficiary E op
  else fileMissing E op /\ present (operatorBeneficiaries st !! op) = false.

(** The operators of a list whose mark is [false]. *)
Fixpoint unmarked (ops : list string) (marks : list bool) : list string :=
  match ops, marks with
  | o :: ops', false :: marks' => o :: unmarked ops' marks'
  | _ :: ops', true :: marks' => unmarked ops' marks'
  | _, _ => []
  end.

(** [s] occurs in [t]. *)
Definition occursIn (s t : string) : Prop :=
  exists before after, t = before +:+ s +:+ after.

(** All characters of a string satisfy a test. *)
Fixpoint allChars (p : ascii -> bool) (s : string) : bool :=
  match s with
  | EmptyString => true
  | String c t => p c && allChars p t
  end.

(** ** A second scenario: the world is the trace of the queries made,
    most recent first. *)

Module Office.

Definition artifactOf (file : string) : Artifact :=
  if Str.eqb file "beneficiaries/0xopm.json" then
    mkArtifact (Some Scenario.message) None (Some "0xBEEF01")
  else if Str.eqb file "beneficiaries/0xopn.json" then
    mkArtifact (Some Scenario.message) (Some "0x5A7A17") (Some "0xBEEF01")
  else
    mkArtifact (Some Scenario.message) (Some "0xBEEF01") (Some "0xBEEF01").

Definition desk : Collab (list string) := {|
  keyShareDirectory := None;
  beneficiaryDirectory := None;
  stat_isDirectory := fun dir w =>
    (if Str.eqb dir "key-shares/KA" then Throw "Error: ENOENT" else Ok true,
     ("stat " +:+ dir) :: w);
  stat_isFile := fun file w =>
    (if Str.eqb file "beneficiaries/0xopb.json" then Throw "Error: ENOENT"
     else Ok true, ("stat " +:+ file) :: w);
  readdir := fun dir w =>
    (Ok (if Str.eqb dir "key-shares/KB" then ["share1"; "share2"]
         else ["share1"; "share2"; "share3"]), ("readdir " +:+ dir) :: w);
  readFile := fun file w => (Ok file, ("readFile " +:+ file) :: w);
  signDigest := fun keep _ w => (Ok ("signature", "publicKey"), ("sign " +:+ keep) :: w);
  getBlockNumber := fun w => (Ok 9000%N, "getBlockNumber" :: w);
  isClosed := fun keep _ w =>
    (Ok (Str.eqb keep "KD" || Str.eqb keep "KE"), ("isClosed " +:+ keep) :: w);
  isTerminated := fun keep _ w =>
    (Ok (negb (Str.eqb keep "KC")), ("isTerminated " +:+ keep) :: w);
  getPublicKey := fun keep w => (Ok ("0x04" +:+ keep), ("getPublicKey " +:+ keep) :: w);
  getMembers := fun keep w =>
    (Ok ["0xOpA"; "0xOpB"; "0xOpC"], ("getMembers " +:+ keep) :: w);
  getBalance := fun addr w =>
    (Ok (if Str.eqb addr "bc1q04KD" then 0%Z else 5000000%Z),
     ("getBalance " +:+ addr) :: w);
  publicKeyToP2WPKHAddress := fun pk => Ok ("bc1q" +:+ pk);
  JSON_parse := fun contents => Ok (artifactOf contents);
  recover := fun _ signature => Ok signature;
  beneficiaryOf_call := fun op w => (Fulfilled "0xbeef01", ("beneficiaryOf " +:+ op) :: w);
  contractsFromWeb3 := fun w => (Ok tt, "contractsFromWeb3" :: w);
  lookupOwner := fun op w => (Fulfilled "0x0a11ce", ("lookupOwner " +:+ op) :: w)
|}.

End Office.

(** ** The child process of [signDigest] (lines 152-185)

    [signDigest] spawns the signer and settles its promise from the
    handlers of the events of the child process.  The handlers run outside
    the promise: what they throw is caught by nobody and ends the script. *)

Module Signer.

(** What the child process emits, in the order the handlers are called. *)
Inductive ChildEvent : Type :=
| StdoutData (chunk : string)
| StderrData (chunk : string)
| Exit (code : option Z) (signal : option string)
| ProcessError (error : Exn).

(** The variables of the promise executor: the two buffers, the way the
    promise has settled, and the exception a handler has let out. *)
Record Signing : Type := mkSigning {
  output : string;
  errorOutput : string;
  settled : option (Result (string * string));
  uncaught : option Exn
}.

(** [resolve] and [reject]: only the first call settles the promise. *)
Definition settle (r : Result (string * string)) (s : Signing) : Signing :=
  match settled s with
  | Some _ => s
  | None => mkSigning (output s) (errorOutput s) (Some r) (uncaught s)
  end.

(** How a template literal renders a value that may be [null]. *)
Definition orNull {A : Type} (render : A -> string) (v : option A) : string :=
  match v with Some a => render a | None => "null" end.

(** [signature.trim()] where [signature] is [undefined]; the wording is
    the engine's. *)
Definition trimOfUndefined : Exn :=
  "TypeError: Cannot read property 'trim' of undefined".

Definition tab : ascii := "009".

(** The [exit] handler (lines 168-180). *)
Definition onExit (code : option Z) (signal : option string) (s : Signing)
  : Signing :=
  if bool_decide (code = Some 0%Z) then
    match Str.split tab (output s) with
    | publicKey :: signature :: _ =>
        settle (Ok (Str.trim signature, Str.trim publicKey)) s
    | _ =>
        mkSigning (output s) (errorOutput s) (settled s) (Some trimOfUndefined)
    end
  else
    settle (Throw (Error ("Process exited abnormally with signal " +:+
                          orNull id signal +:+ " and code " +:+
                          orNull Js.digits code +:+ errorOutput s))) s.

(** The [error] handler (lines 181-183). *)
Definition onError (error : Exn) (s : Signing) : Signing :=
  settle (Throw (if Str.truthy (errorOutput s) then errorOutput s else error)) s.

(** One event; after an uncaught exception the script is gone and no
    handler runs any more. *)
Definition handle (s : Signing) (ev : ChildEvent) : Signing :=
  match uncaught s with
  | Some _ => s
  | None =>
      match ev with
      | StdoutData chunk =>
          mkSigning (output s +:+ chunk) (errorOutput s) (settled s) (uncaught s)
      | StderrData chunk =>
          mkSigning (output s) (errorOutput s +:+ chunk) (settled s) (uncaught s)
      | Exit code signal => onExit code signal s
      | ProcessError error => onError error s
      end
  end.

Definition run (events : list ChildEvent) : Signing :=
  fold_left handle events (mkSigning EmptyString EmptyString None None).

(** Why a computation of the script yields no result: an exception that
    nobody catches has ended the script, or a promise of the signer never
    settles and what awaits it waits for ever. *)
Inductive Halt : Type :=
| Uncaught (e : Exn)
| NeverSettled.

(** What becomes of a call of [signDigest]: its promise settles, or a
    handler lets an exception out, or nothing ever settles it. *)
Definition fate (events : list ChildEvent) : Result (string * string) + Halt :=
  let s := run events in
  match uncaught s with
  | Some e => inr (Uncaught e)
  | None =>
      match settled s with
      | Some r => inl r
      | None => inr NeverSettled
      end
  end.

(** What the handlers have collected from the two streams. *)
Fixpoint stdoutOf (events : list ChildEvent) : string :=
  match events with
  | [] => EmptyString
  | StdoutData chunk :: rest => chunk +:+ stdoutOf rest
  | _ :: rest => stdoutOf rest
  end.

Fixpoint stderrOf (events : list ChildEvent) : string :=
  match events with
  | [] => EmptyString
  | StderrData chunk :: rest => chunk +:+ stderrOf rest
  | _ :: rest => stderrOf rest
  end.

(** The events are output of the child process only. *)
Definition onlyData (events : list ChildEvent) : bool :=
  forallb (fun ev => match ev with
                     | StdoutData _ | StderrData _ => true
                     | _ => false
                     end) events.

End Signer.

(** ** The script with its signer

    The world of the script with its signer is the outside world and the
    reason why the script has stopped, if it has: an exception out of a
    handler of the signer, or a promise of the signer that never settles.
    Once it has stopped nothing more is asked of the outside world, and
    whatever the monad still computes is of no account: [outcome] looks at
    the reason first. *)

Definition Live (W : Type) : Type := W * option Signer.Halt.

(** What a query gives when there is no script left to receive it. *)
Definition gone : Exn := "the script has ended".

Section Process.

Context {W : Type} (E : Collab W).

(** The command line of the signer: the digest and the directory of the
    keep (lines 157-162); it gives the events of the child process. *)
Context (spawn : string -> string -> W -> list Signer.ChildEvent * W).

Definition whileAlive {A : Type} (q : W -> Result A * W)
  : Live W -> Result A * Live W :=
  fun lw =>
    match lw.2 with
    | Some _ => (Throw gone, lw)
    | None => let (r, w) := q lw.1 in (r, (w, None))
    end.

Definition promisedWhileAlive (q : W -> Promise * W)
  : Live W -> Promise * Live W :=
  fun lw =>
    match lw.2 with
    | Some _ => (Rejected gone, lw)
    | None => let (p, w) := q lw.1 in (p, (w, None))
    end.

(** [signDigest] (lines 152-185) on the child process. *)
Definition signDigest_spawned (keepAddress digest : string)
  : Live W -> Result (string * string) * Live W :=
  fun lw =>
    match lw.2 with
    | Some _ => (Throw gone, lw)
    | None =>
        let (events, w) := spawn digest (keepDirectory E keepAddress) lw.1 in
        match Signer.fate events with
        | inl r => (r, (w, None))
        | inr h => (Throw gone, (w, Some h))
        end
    end.

(** The collaborators of [E], with [signDigest] run on the child
    process. *)
Definition withSigner : Collab (Live W) := {|
  keyShareDirectory := keyShareDirectory E;
  beneficiaryDirectory := beneficiaryDirectory E;
  stat_isDirectory := fun path => whileAlive (stat_isDirectory E path);
  stat_isFile := fun path => whileAlive (stat_isFile E path);
  readdir := fun path => whileAlive (readdir E path);
  readFile := fun path => whileAlive (readFile E path);
  signDigest := signDigest_spawned;
  getBlockNumber := whileAlive (getBlockNumber E);
  isClosed := fun keep block => whileAlive (isClosed E keep block);
  isTerminated := fun keep block => whileAlive (isTerminated E keep block);
  getPublicKey := fun keep => whileAlive (getPublicKey E keep);
  getMembers := fun keep => whileAlive (getMembers E keep);
  getBalance := fun addr => whileAlive (getBalance E addr);
  publicKeyToP2WPKHAddress := publicKeyToP2WPKHAddress E;
  JSON_parse := JSON_parse E;
  recover := recover E;
  beneficiaryOf_call := fun op => promisedWhileAlive (beneficiaryOf_call E op);
  contractsFromWeb3 := whileAlive (contractsFromWeb3 E);
  lookupOwner := fun op => promisedWhileAlive (lookupOwner E op)
|}.

End Process.

(** The reason why the script has stopped, if it has. *)
Definition halted {W : Type} (st : State (Live W)) : option Signer.Halt :=
  (world st).2.

(** What a computation of the script comes to: the reason why it
    stopped without a result, or its result and the state it leaves. *)
Definition outcome {W A : Type} (m : M (Live W) A) (st : State (Live W))
  : Result A * State (Live W) + Signer.Halt :=
  match halted (m st).2 with
  | Some h => inr h
  | None => inl (m st)
  end.

(** A relation between the worlds before and after, as a relation
    between states. *)
Definition onWorld {W : Type} (Q : W -> W -> Prop) (st st' : State W) : Prop :=
  Q (world st) (world st').

(** Every collaborator but the signer leaves the world it was asked in
    related to the world it answers in. *)
Definition respects {W : Type} (Q : W -> W -> Prop) (E : Collab W) : Prop :=
  (forall path w, Q w (stat_isDirectory E path w).2) /\
  (forall path w, Q w (stat_isFile E path w).2) /\
  (forall path w, Q w (readdir E path w).2) /\
  (forall path w, Q w (readFile E path w).2) /\
  (forall w, Q w (getBlockNumber E w).2) /\
  (forall keep b w, Q w (isClosed E keep b w).2) /\
  (forall keep b w, Q w (isTerminated E keep b w).2) /\
  (forall keep w, Q w (getPublicKey E keep w).2) /\
  (forall keep w, Q w (getMembers E keep w).2) /\
  (forall addr w, Q w (getBalance E addr w).2) /\
  (forall op w, Q w (beneficiaryOf_call E op w).2) /\
  (forall w, Q w (contractsFromWeb3 E w).2) /\
  (forall op w, Q w (lookupOwner E op w).2).

Definition signerRespects {W : Type} (Q : W -> W -> Prop) (E : Collab W)
  : Prop :=
  forall keep digest w, Q w (signDigest E keep digest w).2.

(** The script has not ended in between. *)
Definition sameEnd {W : Type} (lw lw' : Live W) : Prop := lw'.2 = lw.2.

(** Once the script has ended the world stays as it is. *)
Definition staysEnded {W : Type} (lw lw' : Live W) : Prop :=
  lw.2 <> None -> lw' = lw.

(** The script is still running if it was. *)
Definition staysAlive {W : Type} (lw lw' : Live W) : Prop :=
  lw.2 = None -> lw'.2 = None.

(** [keySharesReady] gets as far as starting the signer, from the world
    [w], and this becomes of the signer. *)
Definition signerStarted {W : Type} (E : Collab W)
    (spawn : string -> string -> W -> list Signer.ChildEvent * W)
    (keep : string) (w : W) (f : Result (string * string) + Signer.Halt)
  : Prop :=
  exists w1 files w2,
    stat_isDirectory E (keepDirectory E keep) w = (Ok true, w1) /\
    readdir E (keepDirectory E keep) w1 = (Ok files, w2) /\
    length files = 3 /\
    Signer.fate (spawn "deadbeef" (keepDirectory E keep) w2).1 = f.

(** The promise of every call of the signer settles. *)
Definition settles {W : Type}
    (spawn : string -> string -> W -> list Signer.ChildEvent * W) : Prop :=
  forall digest dir w, exists r, Signer.fate (spawn digest dir w).1 = inl r.

(** ** A third scenario: the signers of the keeps *)

Module Keyring.

(** The signer of keep [K3] exits before its output has been delivered;
    the signer of keep [K4] is killed; every other signer prints the key
    and the signature and exits. *)
Definition signer (digest dir : string) (w : nat)
  : list Signer.ChildEvent * nat :=
  (if Str.eqb dir "key-shares/K3" then
     [Signer.Exit (Some 0%Z) None;
      Signer.StdoutData ("04a1b2c3" +:+ String Signer.tab "3045022100f0")]
   else if Str.eqb dir "key-shares/K4" then
     [Signer.StderrData ": killed"; Signer.Exit None (Some "SIGKILL")]
   else
     [Signer.StdoutData ("04a1b2c3" +:+ String Signer.tab "3045022100f0 ");
      Signer.Exit (Some 0%Z) None], w).

Definition script : Collab (Live nat) := withSigner Scenario.threeSigners signer.

End Keyring.

(** ** The text of the report *)





(** The commas inside the texts of a line of cells. *)
Definition commas (cells : list string) : nat :=
  foldr (fun cell n => Str.count "," cell + n) 0 cells.



(** ** Calls of [referenceBlock] over a run

    When no block is remembered, [referenceBlock] asks the chain and
    suspends at its [await] (line 235); the assignment to [startingBlock]
    is made when the call resumes with the answer, so other calls may run
    in between.  A run is a sequence of whole calls and of the two halves
    of suspended calls, which resume in the order of their queries. *)

Inductive BlockCall : Type :=
| CallReferenceBlock
| EnterReferenceBlock
| ResumeReferenceBlock.

(** The left operand of [startingBlock || ...] when it is truthy. *)
Definition rememberedBlock {W : Type} (st : State W) : option N :=
  match startingBlock st with
  | Some b => if (b =? 0)%N then None else Some b
  | None => None
  end.

Section BlockRuns.

Context {W : Type} (E : Collab W).

(** A run: the state, the answers the suspended calls wait for (oldest
    first) and what the calls have returned (most recent first). *)
Definition stepBlock (s : State W * list (Result N) * list (Result N))
    (c : BlockCall) : State W * list (Result N) * list (Result N) :=
  let '(st, pending, returned) := s in
  match c with
  | CallReferenceBlock =>
      ((referenceBlock E st).2, pending, (referenceBlock E st).1 :: returned)
  | EnterReferenceBlock =>
      match rememberedBlock st with
      | Some b => (st, pending, Ok b :: returned)
      | None =>
          (setWorld (getBlockNumber E (world st)).2 st,
           pending ++ [(getBlockNumber E (world st)).1], returned)
      end
  | ResumeReferenceBlock =>
      match pending with
      | [] => s
      | Ok b :: rest => ((setStartingBlock b st).2, rest, Ok b :: returned)
      | Throw e :: rest => (st, rest, Throw e :: returned)
      end
  end.

Definition runBlockCalls (calls : list BlockCall)
    (s : State W * list (Result N) * list (Result N))
  : State W * list (Result N) * list (Result N) :=
  fold_left stepBlock calls s.

(** The collaborators of [E] with another answer to [getBlockNumber]. *)
Definition withBlockNumber (blockNumber : W -> Result N * W) : Collab W := {|
  keyShareDirectory := keyShareDirectory E;
  beneficiaryDirectory := beneficiaryDirectory E;
  stat_isDirectory := stat_isDirectory E;
  stat_isFile := stat_isFile E;
  readdir := readdir E;
  readFile := readFile E;
  signDigest := signDigest E;
  getBlockNumber := blockNumber;
  isClosed := isClosed E;
  isTerminated := isTerminated E;
  getPublicKey := getPublicKey E;
  getMembers := getMembers E;
  getBalance := getBalance E;
  publicKeyToP2WPKHAddress := publicKeyToP2WPKHAddress E;
  JSON_parse := JSON_parse E;
  recover := recover E;
  beneficiaryOf_call := beneficiaryOf_call E;
  contractsFromWeb3 := contractsFromWeb3 E;
  lookupOwner := lookupOwner E
|}.

End BlockRuns.

(** The chain of the first scenario, growing by one block with every
    query of its height. *)
Definition growingChain : Collab nat :=
  withBlockNumber Scenario.threeSigners
    (fun w => (Ok (9000 + N.of_nat w)%N, S w)).

(** * Destination extraction *)



(** An extended key on its own: the address pattern also matches inside
    it, and that part of the key is what extraction returns. *)
Lemma extended_key_alone_yields_an_inner_match :
  extractDestination "0xOp1"
    "xpub6CUGRUonZSQ4TWtTMmzXdrXDtypWKiKrhko4egpiMZbpiaQL2jkwSB1icqYh2cfDfVxdx4df189oLKnC5fSwqPfgyP3hooxujYzAu3fDVmz"
  = Ok "1icqYh2cfDfVxdx4df189oLKnC5fSwqPfg".
Proof. vm_compute. reflexivity. Qed.

(** * The attestation file name *)

(** C7: the file the code opens for a signer is the lower-cased address
    plus [.json] in the beneficiary directory; the [beneficiary-] prefix of
    the documented name is not there. *)
Theorem C7_file_name_lacks_documented_prefix :
  beneficiaryFile None "0xAbCdEf0123" = "beneficiaries/0xabcdef0123.json" /\
  documentedBeneficiaryFile None "0xAbCdEf0123"
  = "beneficiaries/beneficiary-0xabcdef0123.json" /\
  beneficiaryFile None "0xAbCdEf0123" <> documentedBeneficiaryFile None "0xAbCdEf0123".
Proof. repeat split; try reflexivity. vm_compute. discriminate. Qed.

(** * The delegation cache *)

Section CacheFacts.

Context {W : Type} (E : Collab W).

Lemma cached_insert_same f op info m (w : W) b ob l :
  cached f op (mkState w b (<[op := info]> m) ob l)
  = match f with FBeneficiary => beneficiary info | FOwner => owner info end.
Proof. unfold cached. simpl. rewrite lookup_insert_eq. reflexivity. Qed.

Lemma cached_insert_other f op op' info (st : State W) (w : W) b ob l :
  op <> op' ->
  cached f op (mkState w b (<[op' := info]> (delegationInfoCache st)) ob l)
  = cached f op st.
Proof.
  intros Hne. unfold cached. simpl. rewrite lookup_insert_ne by congruence.
  reflexivity.
Qed.

Lemma entryOrEmpty_owner op (st : State W) :
  owner (entryOrEmpty op st) = cached FOwner op st.
Proof.
  unfold entryOrEmpty, cached. destruct (delegationInfoCache st !! op); reflexivity.
Qed.

Lemma entryOrEmpty_beneficiary op (st : State W) :
  beneficiary (entryOrEmpty op st) = cached FBeneficiary op st.
Proof.
  unfold entryOrEmpty, cached. destruct (delegationInfoCache st !! op); reflexivity.
Qed.

Lemma beneficiaryOf_hit op p (st : State W) :
  cached FBeneficiary op st = Some p -> beneficiaryOf E op st = (Ok p, st).
Proof. intros H. unfold beneficiaryOf. rewrite H. reflexivity. Qed.

Lemma beneficiaryOf_stores op r (st st' : State W) :
  beneficiaryOf E op st = (r, st') ->
  exists p, r = Ok p /\ cached FBeneficiary op st' = Some p.
Proof.
  unfold beneficiaryOf. destruct (cached FBeneficiary op st) as [p|] eqn:Hc.
  - intros [= <- <-]. eauto.
  - destruct (beneficiaryOf_call E op (world st)) as [p w].
    intros [= <- <-]. exists p. split; [reflexivity|].
    apply cached_insert_same.
Qed.

Lemma deepOwnerOf_hit op p (st : State W) :
  cached FOwner op st = Some p -> deepOwnerOf E op st = (Ok p, st).
Proof.
  intros H. unfold deepOwnerOf, deepOwnerOf_cached, bind. rewrite H. reflexivity.
Qed.

Lemma deepOwnerOf_store_stores op (st : State W) :
  exists p, (deepOwnerOf_store E op st).1 = Ok p /\
            cached FOwner op (deepOwnerOf_store E op st).2 = Some p.
Proof.
  unfold deepOwnerOf_store. destruct (lookupOwner E op (world st)) as [p w].
  exists p. split; [reflexivity|]. apply cached_insert_same.
Qed.

(** A miss: either the contract handles cannot be had, and nothing is
    queried or stored, or the owner query is issued and stored. *)
Lemma deepOwnerOf_miss op (st : State W) :
  cached FOwner op st = None ->
  (exists e, (contractsFromWeb3 E (world st)).1 = Throw e /\
             (deepOwnerOf E op st).1 = Throw e /\
             issued (deepOwnerOf E op st).2 = issued st /\
             delegationInfoCache (deepOwnerOf E op st).2 = delegationInfoCache st)
  \/ (exists p, deepOwnerOf E op st = (Ok p, (deepOwnerOf E op st).2) /\
                cached FOwner op (deepOwnerOf E op st).2 = Some p /\
                issued (deepOwnerOf E op st).2 = (FOwner, op) :: issued st).
Proof.
  intros H. unfold deepOwnerOf, deepOwnerOf_cached, bind, ask. rewrite H.
  destruct (contractsFromWeb3 E (world st)) as [[[]|e] w]; simpl.
  - right. unfold deepOwnerOf_store. simpl.
    destruct (lookupOwner E op w) as [p w']. exists p. simpl.
    split; [reflexivity|]. split; [|reflexivity].
    apply cached_insert_same.
  - left. exists e. repeat split.
Qed.

Lemma deepOwnerOf_stores op p (st st' : State W) :
  deepOwnerOf E op st = (Ok p, st') -> cached FOwner op st' = Some p.
Proof.
  intros H. destruct (cached FOwner op st) as [q|] eqn:Hc.
  - rewrite (deepOwnerOf_hit _ _ _ Hc) in H. injection H as <- <-. exact Hc.
  - destruct (deepOwnerOf_miss op st Hc) as [(e & _ & He & _)|(q & Hq & Hs & _)].
    + rewrite H in He. discriminate.
    + rewrite H in Hq, Hs. simpl in *. injection Hq as ->. exact Hs.
Qed.

(** ** Counting the queries *)

Lemma queriesIssued_cons f op q (st : State W) (w : W) b c ob :
  queriesIssued f op (mkState w b c ob (q :: issued st))
  = (if decide (q = (f, op)) then 1 else 0) + queriesIssued f op st.
Proof.
  unfold queriesIssued. simpl. rewrite filter_cons.
  destruct (decide (q = (f, op))); reflexivity.
Qed.

Lemma countedOnce_initial f op (w : W) : countedOnce f op (initialState w).
Proof. split; [unfold queriesIssued; simpl; lia | reflexivity]. Qed.

Lemma beneficiaryOf_counted f op op' (st : State W) :
  countedOnce f op st -> countedOnce f op (beneficiaryOf E op' st).2.
Proof.
  intros [Hle Hnone]. unfold beneficiaryOf.
  destruct (cached FBeneficiary op' st) as [p|] eqn:Hc; [split; assumption|].
  destruct (beneficiaryOf_call E op' (world st)) as [p w]. simpl.
  unfold countedOnce. rewrite queriesIssued_cons.
  destruct (decide ((FBeneficiary, op') = (f, op))) as [Heq|Hne].
  - injection Heq as <- <-. rewrite cached_insert_same. simpl.
    rewrite (Hnone Hc). split; [lia | discriminate].
  - destruct (decide (op = op')) as [->|Hop].
    + destruct f; [congruence|].
      rewrite cached_insert_same. simpl. rewrite entryOrEmpty_owner.
      split; [lia | intros H; rewrite (Hnone H); lia].
    + rewrite cached_insert_other by assumption.
      split; [lia | intros H; rewrite (Hnone H); lia].
Qed.

(** The store of a suspended call: a query of its own, whatever the
    cache holds by then.  It leaves the beneficiary count alone. *)
Lemma deepOwnerOf_store_counted op op' (st : State W) :
  countedOnce FBeneficiary op st ->
  countedOnce FBeneficiary op (deepOwnerOf_store E op' st).2.
Proof.
  intros [Hle Hnone]. unfold deepOwnerOf_store.
  destruct (lookupOwner E op' (world st)) as [p w]. simpl.
  unfold countedOnce. rewrite queriesIssued_cons.
  destruct (decide ((FOwner, op') = (FBeneficiary, op))) as [Heq|_]; [discriminate|].
  destruct (decide (op = op')) as [->|Hop].
  - rewrite cached_insert_same. simpl. rewrite entryOrEmpty_beneficiary.
    split; [lia | intros H; rewrite (Hnone H); lia].
  - rewrite cached_insert_other by assumption.
    split; [lia | intros H; rewrite (Hnone H); lia].
Qed.

Lemma deepOwnerOf_counted f op op' (st : State W) :
  countedOnce f op st -> countedOnce f op (deepOwnerOf E op' st).2.
Proof.
  intros [Hle Hnone].
  destruct (cached FOwner op' st) as [q|] eqn:Hc.
  - rewrite (deepOwnerOf_hit _ _ _ Hc). split; assumption.
  - unfold deepOwnerOf, deepOwnerOf_cached, bind, ask. rewrite Hc.
    destruct (contractsFromWeb3 E (world st)) as [[[]|e] w]; simpl;
      [|split; assumption].
    unfold deepOwnerOf_store. simpl.
    destruct (lookupOwner E op' w) as [p w']. simpl.
    unfold countedOnce. rewrite (queriesIssued_cons f op _ st).
    destruct (decide ((FOwner, op') = (f, op))) as [Heq|Hne].
    + injection Heq as <- <-.
      rewrite cached_insert_same. simpl.
      rewrite (Hnone Hc). split; [lia | discriminate].
    + destruct (decide (op = op')) as [->|Hop].
      * destruct f; [|congruence].
        rewrite cached_insert_same. simpl.
        unfold entryOrEmpty. simpl. fold (entryOrEmpty op' st).
        rewrite entryOrEmpty_beneficiary.
        split; [lia | intros H; rewrite (Hnone H); lia].
      * rewrite (cached_insert_other f op op' _ st) by assumption.
        split; [lia | intros H; rewrite (Hnone H); lia].
Qed.

Lemma stepCall_beneficiary_counted op c (s : State W * list string) :
  countedOnce FBeneficiary op s.1 ->
  countedOnce FBeneficiary op (stepCall E s c).1.
Proof.
  intros H. destruct c as [op'|op'|op'|op']; simpl.
  - apply beneficiaryOf_counted, H.
  - apply deepOwnerOf_counted, H.
  - destruct (cached FOwner op' s.1); simpl; [exact H|].
    unfold ask. destruct (contractsFromWeb3 E (world s.1)) as [[[]|e] w]; exact H.
  - case_bool_decide; simpl; [apply deepOwnerOf_store_counted, H | exact H].
Qed.

Lemma stepCall_whole_counted f op c (s : State W * list string) :
  wholeCall c = true ->
  countedOnce f op s.1 -> countedOnce f op (stepCall E s c).1.
Proof.
  intros Hc H. destruct c as [op'|op'|op'|op']; try discriminate; simpl.
  - apply beneficiaryOf_counted, H.
  - apply deepOwnerOf_counted, H.
Qed.

Lemma runCalls_beneficiary_counted op calls (s : State W * list string) :
  countedOnce FBeneficiary op s.1 ->
  countedOnce FBeneficiary op (runCalls E calls s).1.
Proof.
  revert s. induction calls as [|c calls IH]; intros s H; [exact H|].
  simpl. apply IH, stepCall_beneficiary_counted, H.
Qed.

Lemma runCalls_whole_counted f op calls (s : State W * list string) :
  forallb wholeCall calls = true ->
  countedOnce f op s.1 -> countedOnce f op (runCalls E calls s).1.
Proof.
  revert s. induction calls as [|c calls IH]; intros s Hc H; [exact H|].
  simpl in Hc. apply andb_true_iff in Hc as [Hc1 Hc2].
  simpl. apply IH; [exact Hc2|]. apply stepCall_whole_counted; assumption.
Qed.

End CacheFacts.

(** C5, as stated, fails: two calls of [deepOwnerOf] for one signer that
    both look into the cache before either stores each issue the owner
    query. *)
Lemma C5_overlapping_owner_lookups_query_twice :
  queriesIssued FOwner "0xOp2"
    (runCalls Scenario.threeSigners
       [EnterDeepOwnerOf "0xOp2"; EnterDeepOwnerOf "0xOp2";
        ResumeDeepOwnerOf "0xOp2"; ResumeDeepOwnerOf "0xOp2"]
       (initialState 0, [])).1 = 2.
Proof. vm_compute. reflexivity. Qed.

(** C5, amended: over any run, [beneficiaryOf] issues at most one query
    per signer; [deepOwnerOf] issues at most one per signer when its calls
    run one after the other; a call that finds the field cached returns the
    cached promise and changes nothing, and a call that returns has stored
    what it returns. *)
Theorem C5_one_query_per_signer {W : Type} (E : Collab W) (w : W)
    (calls : list CacheCall) (op : string) :
  queriesIssued FBeneficiary op (runCalls E calls (initialState w, [])).1 <= 1 /\
  (forallb wholeCall calls = true ->
   queriesIssued FOwner op (runCalls E calls (initialState w, [])).1 <= 1) /\
  (forall st p, cached FBeneficiary op st = Some p ->
                beneficiaryOf E op st = (Ok p, st)) /\
  (forall st p, cached FOwner op st = Some p ->
                deepOwnerOf E op st = (Ok p, st)) /\
  (forall st p st', beneficiaryOf E op st = (Ok p, st') ->
                    cached FBeneficiary op st' = Some p) /\
  (forall st p st', deepOwnerOf E op st = (Ok p, st') ->
                    cached FOwner op st' = Some p).
Proof.
  split; [|split; [|split; [|split; [|split]]]].
  - apply (runCalls_beneficiary_counted E op calls (initialState w, [])).
    apply countedOnce_initial.
  - intros Hwhole.
    apply (runCalls_whole_counted E FOwner op calls (initialState w, []) Hwhole).
    apply countedOnce_initial.
  - intros st p. apply beneficiaryOf_hit.
  - intros st p. apply deepOwnerOf_hit.
  - intros st p st' H.
    destruct (beneficiaryOf_stores E _ _ _ _ H) as (q & [= <-] & Hq). exact Hq.
  - intros st p st'. apply deepOwnerOf_stores.
Qed.


(** * Who may sign *)

(** With both delegation facts at hand, the check turns down exactly the
    signer that is the owner and not the beneficiary. *)
Lemma signerRejected_decides {W : Type} (E : Collab W) (op r b o : string)
    (st : State W) :
  cached FBeneficiary op st = Some (Fulfilled b) ->
  cached FOwner op st = Some (Fulfilled o) ->
  signerRejected E op r st = (Ok (policyRejects r b o), st).
Proof.
  intros Hb Ho. unfold signerRejected, awaited, bind.
  rewrite (beneficiaryOf_hit E _ _ _ Hb). simpl.
  unfold policyRejects.
  destruct (Str.eqb (Str.toLowerCase r) (Str.toLowerCase b)); simpl; [reflexivity|].
  rewrite (deepOwnerOf_hit E _ _ _ Ho). reflexivity.
Qed.


(** C1: an attestation signed by the signer's beneficiary is accepted;
    one signed by the signer's owner, who is not the beneficiary, is turned
    down with the policy error; one signed by an address that is neither
    is accepted. *)
Theorem C1_owner_rejected_stranger_accepted :
  (readBeneficiary Scenario.threeSigners "0xOp1" (initialState 0)).1
  = Ok (Some Scenario.destination) /\
  (readBeneficiary Scenario.threeSigners "0xOp2" (initialState 0)).1
  = Throw (Error "Beneficiary address for 0xOp2 was not signed by operator owner or beneficiary.") /\
  (readBeneficiary Scenario.threeSigners "0xOp3" (initialState 0)).1
  = Ok (Some Scenario.destination).
Proof. repeat split; vm_compute; reflexivity. Qed.

(** * Row records *)

Section ObjFacts.

Context {V : Type}.
Implicit Types (r upd : list (string * V)).

Lemma eqb_same (k : string) : Str.eqb k k = true.
Proof. apply bool_decide_eq_true_2. reflexivity. Qed.

Lemma eqb_other (k k' : string) : k <> k' -> Str.eqb k k' = false.
Proof. apply bool_decide_eq_false_2. Qed.

Lemma get_set_same k v r : Obj.get k (Obj.set k v r) = Some v.
Proof.
  induction r as [|[k' v'] r IH]; simpl.
  - rewrite eqb_same. reflexivity.
  - destruct (decide (k = k')) as [<-|Hne].
    + rewrite eqb_same. simpl. rewrite eqb_same. reflexivity.
    + rewrite (eqb_other _ _ Hne). simpl. rewrite (eqb_other _ _ Hne). exact IH.
Qed.

Lemma get_set_other k k' v r :
  k <> k' -> Obj.get k (Obj.set k' v r) = Obj.get k r.
Proof.
  intros Hne. induction r as [|[k0 v0] r IH]; simpl.
  - rewrite (eqb_other _ _ Hne). reflexivity.
  - destruct (decide (k' = k0)) as [<-|Hk].
    + rewrite eqb_same. simpl. rewrite (eqb_other _ _ Hne). reflexivity.
    + rewrite (eqb_other _ _ Hk). simpl.
      destruct (Str.eqb k k0); [reflexivity | exact IH].
Qed.

Lemma spread_nil r : Obj.spread r [] = r.
Proof. reflexivity. Qed.

Lemma spread_cons r k v upd :
  Obj.spread r ((k, v) :: upd) = Obj.spread (Obj.set k v r) upd.
Proof. reflexivity. Qed.

End ObjFacts.

Lemma rowOf_spread keep row upd :
  rowOf keep row -> okUpdate upd -> rowOf keep (Obj.spread row upd).
Proof.
  intros Hrow Hupd. revert row Hrow.
  induction Hupd as [|[k v] upd [Hk He] _ IH]; intros row [Hkeep Herr]; [split; assumption|].
  rewrite spread_cons. apply IH. simpl in *. split.
  - rewrite get_set_other by congruence. exact Hkeep.
  - intros v0. destruct (decide (k = "error")) as [->|Hne].
    + rewrite get_set_same. intros [= <-]. apply He. reflexivity.
    + rewrite get_set_other by congruence. apply Herr.
Qed.

Lemma rowOf_initial keep : rowOf keep [("keep", JStr keep)].
Proof. split; [reflexivity | intros v; discriminate]. Qed.

Lemma rowOf_hasError keep row :
  rowOf keep row -> Obj.get "error" row <> None -> hasError row = true.
Proof.
  intros [_ Herr] Hsome. unfold hasError, Obj.field.
  destruct (Obj.get "error" row) as [v|]; [|congruence]. simpl. apply Herr. reflexivity.
Qed.

Lemma okUpdate_error reason :
  Str.truthy reason = true -> okUpdate [("error", JStr reason)].
Proof.
  intros H. constructor; [|constructor]. split; [discriminate | intros _; exact H].
Qed.

(** * The stage chain *)

Section Chain.

Context {W : Type}.
Implicit Types (m : M W Row) (process : Row -> M W Row) (st : State W).

(** One turn on a settled row: a row with an error is passed on as it
    is; otherwise the stage runs, and what it throws becomes the [error]
    field. *)
Lemma processStep_ret row process st :
  processStep (ret row) process st
  = if hasError row then (Ok row, st)
    else match process row st with
         | (Ok r, st') => (Ok r, st')
         | (Throw e, st') =>
             (Ok (withError row ("Error processing transaction: " +:+ e)), st')
         end.
Proof.
  unfold processStep, bind, tryCatch, ret. simpl.
  destruct (hasError row); simpl; [reflexivity|].
  destruct (process row st) as [[r|e] st']; reflexivity.
Qed.

Lemma processStep_bind m process st :
  processStep m process st
  = match m st with
    | (Ok row, st1) => processStep (ret row) process st1
    | (Throw e, st1) => (Throw e, st1)
    end.
Proof.
  unfold processStep, bind, ret. destruct (m st) as [[row|e] st1]; reflexivity.
Qed.

Lemma fold_processStep processors : forall m st,
  fold_left processStep processors m st
  = match m st with
    | (Ok row, st1) => processThrough row processors st1
    | (Throw e, st1) => (Throw e, st1)
    end.
Proof.
  induction processors as [|p ps IH]; intros m st; simpl.
  - destruct (m st) as [[row|e] st1]; reflexivity.
  - rewrite IH. rewrite processStep_bind.
    destruct (m st) as [[row|e] st1]; [|reflexivity].
    unfold processThrough. simpl. rewrite IH. reflexivity.
Qed.

Lemma processThrough_nil row st : processThrough row [] st = (Ok row, st).
Proof. reflexivity. Qed.

Lemma processThrough_cons row p ps st :
  processThrough row (p :: ps) st
  = match processStep (ret row) p st with
    | (Ok r, st1) => processThrough r ps st1
    | (Throw e, st1) => (Throw e, st1)
    end.
Proof. unfold processThrough. simpl. apply fold_processStep. Qed.

Lemma processThrough_step row p ps st r st1 :
  hasError row = false ->
  p row st = (Ok r, st1) ->
  processThrough row (p :: ps) st = processThrough r ps st1.
Proof.
  intros Hrow Hp. rewrite processThrough_cons, processStep_ret, Hrow, Hp.
  reflexivity.
Qed.

Lemma processThrough_app row pre post st :
  processThrough row (pre ++ post) st
  = match processThrough row pre st with
    | (Ok r, st1) => processThrough r post st1
    | (Throw e, st1) => (Throw e, st1)
    end.
Proof.
  unfold processThrough at 1. rewrite fold_left_app. apply fold_processStep.
Qed.

(** A row with an error goes through any stages unchanged, and so does
    the state: no stage is run. *)
Lemma processThrough_frozen processors : forall row st,
  hasError row = true -> processThrough row processors st = (Ok row, st).
Proof.
  induction processors as [|p ps IH]; intros row st H; [reflexivity|].
  rewrite processThrough_cons, processStep_ret, H. apply IH, H.
Qed.

(** The chain always ends with a row. *)
Lemma processThrough_total processors : forall row st,
  exists r st', processThrough row processors st = (Ok r, st').
Proof.
  induction processors as [|p ps IH]; intros row st; [eauto|].
  rewrite processThrough_cons, processStep_ret.
  destruct (hasError row); [apply IH|].
  destruct (p row st) as [[r|e] st']; apply IH.
Qed.

Lemma processThrough_rowOf keep processors : forall row st r st',
  Forall stageSound processors ->
  rowOf keep row ->
  processThrough row processors st = (Ok r, st') ->
  rowOf keep r.
Proof.
  induction processors as [|p ps IH]; intros row st r st' Hs Hrow H.
  - injection H as <- <-. exact Hrow.
  - apply Forall_cons in Hs as [Hp Hps].
    rewrite processThrough_cons, processStep_ret in H.
    destruct (hasError row); [eapply IH; eassumption|].
    destruct (p row st) as [[r1|e] st1] eqn:Hrun.
    + destruct (Hp _ _ _ _ Hrun) as (upd & -> & Hupd).
      eapply IH; [exact Hps | | exact H]. apply rowOf_spread; assumption.
    + eapply IH; [exact Hps | | exact H].
      apply rowOf_spread; [exact Hrow|]. apply okUpdate_error. reflexivity.
Qed.

End Chain.

(** * The stages of the script *)

Section Stages.

Context {W : Type} (E : Collab W).

Lemma stageSound_same (row : Row) : exists upd, row = Obj.spread row upd /\ okUpdate upd.
Proof. exists []. split; [reflexivity | constructor]. Qed.

Lemma stageSound_error (row : Row) reason :
  Str.truthy reason = true ->
  exists upd, withError row reason = Obj.spread row upd /\ okUpdate upd.
Proof.
  intros H. exists [("error", JStr reason)].
  split; [reflexivity | apply okUpdate_error, H].
Qed.

Lemma beneficiaries_okUpdate keep (st st' : State W) upd :
  beneficiariesAvailableAndSigned E keep st = (Ok upd, st') -> okUpdate upd.
Proof.
  unfold beneficiariesAvailableAndSigned, bind, tryCatch, ask.
  destruct (getMembers E (keepAt keep) (world st)) as [[operators|e] w];
    [|discriminate].
  match goal with
  | |- context [promiseAll ?l ?s] => destruct (promiseAll l s) as [[bs|e] st1]
  end.
  - destruct (0 <? _); intros [= <- <-].
    + apply okUpdate_error. reflexivity.
    + repeat constructor; simpl; discriminate.
  - intros [= <- <-]. apply okUpdate_error. reflexivity.
Qed.

Lemma genericStatusProcessors_sound :
  Forall stageSound (genericStatusProcessors E).
Proof.
  repeat constructor; intros row st r st'; unfold bind.
  - destruct (keySharesReady E (keepOf row) st) as [[[]|e] st1];
      intros [= <- <-]; [apply stageSound_same | apply stageSound_error; reflexivity].
  - destruct (keepStatusCompleted E (keepOf row) st) as [[[s|]|e] st1];
      intros [= <- <-]; [|apply stageSound_error; reflexivity].
    exists [("status", JStr s)]. split; [reflexivity|].
    repeat constructor; simpl; discriminate.
  - destruct (keepHoldsBtc E (keepOf row) st) as [[[addr bal]|e] st1];
      [|discriminate].
    simpl. destruct (bal >? 0)%Z; intros [= <- <-];
      [|apply stageSound_error; reflexivity].
    exists [("bitcoinAddress", JStr addr); ("btcBalance", JNum bal)].
    split; [reflexivity|]. repeat constructor; simpl; discriminate.
Qed.

Lemma liquidationProcessors_sound :
  Forall stageSound (liquidationProcessors E).
Proof.
  repeat constructor; intros row st r st'; unfold bind.
  - destruct (beneficiariesAvailableAndSigned E (keepOf row) st)
      as [[upd|e] st1] eqn:Hb; intros [= <- <-].
    exists upd. split; [reflexivity | eapply beneficiaries_okUpdate, Hb].
  - intros [= <- <-]. apply stageSound_same.
Qed.

Lemma misfundProcessors_sound :
  Forall (stageSound (W:=W)) misfundProcessors.
Proof.
  repeat constructor. intros row st r st' [= <- <-]. apply stageSound_same.
Qed.

Lemma branchOf_sound basicInfo : Forall stageSound (branchOf E basicInfo).
Proof.
  unfold branchOf. destruct (statusIs "terminated" basicInfo);
    [apply liquidationProcessors_sound|].
  destruct (statusIs "closed" basicInfo);
    [apply misfundProcessors_sound | constructor].
Qed.

(** The task of a keep runs the generic stages and then the stages of
    the branch its status selects, all through one chain. *)
Lemma keepTask_chain keep (st : State W) :
  keepTask E keep st
  = match processThrough [("keep", JStr keep)] (genericStatusProcessors E) st with
    | (Ok basicInfo, st1) => processThrough basicInfo (branchOf E basicInfo) st1
    | (Throw e, st1) => (Throw e, st1)
    end.
Proof.
  unfold keepTask, bind, branchOf.
  destruct (processThrough _ (genericStatusProcessors E) st) as [[basic|e] st1];
    [|reflexivity].
  destruct (statusIs "terminated" basic); [reflexivity|].
  destruct (statusIs "closed" basic); reflexivity.
Qed.

Lemma keepTask_total keep (st : State W) :
  exists r st', keepTask E keep st = (Ok r, st').
Proof.
  rewrite keepTask_chain.
  destruct (processThrough_total (genericStatusProcessors E)
              [("keep", JStr keep)] st) as (basic & st1 & ->).
  apply processThrough_total.
Qed.

Lemma keepTask_rowOf keep (st st' : State W) r :
  keepTask E keep st = (Ok r, st') -> rowOf keep r.
Proof.
  rewrite keepTask_chain.
  destruct (processThrough _ (genericStatusProcessors E) st)
    as [[basic|e] st1] eqn:Hg; [|discriminate].
  intros Hb.
  eapply processThrough_rowOf; [apply branchOf_sound | | exact Hb].
  eapply processThrough_rowOf;
    [apply genericStatusProcessors_sound | apply rowOf_initial | exact Hg].
Qed.

Lemma promiseAll_keepTasks keeps : forall (st : State W),
  exists rows st',
    promiseAll (map (keepTask E) keeps) st = (Ok rows, st') /\
    Forall2 rowOf keeps rows.
Proof.
  induction keeps as [|k ks IH]; intros st; simpl.
  - exists [], st. split; [reflexivity | constructor].
  - destruct (keepTask_total k st) as (r & st1 & Hk). rewrite Hk.
    destruct (IH st1) as (rows & st2 & -> & Hrows).
    exists (r :: rows), st2. split; [reflexivity|].
    constructor; [eapply keepTask_rowOf, Hk | exact Hrows].
Qed.

End Stages.

(** C3: in the task of a keep, once the chain of stages has produced a
    row with an [error] field, that row is the terminal row and the state
    is the state at that point: no later stage, of the generic list or of
    the branch list dispatched on the status, runs or changes anything. *)
Theorem C3_error_row_is_terminal {W : Type} (E : Collab W) (keep : string)
    (st st1 st' : State W) (basicInfo r : Row)
    (pre post : list (Row -> M W Row)) :
  processThrough [("keep", JStr keep)] (genericStatusProcessors E) st
  = (Ok basicInfo, st1) ->
  genericStatusProcessors E ++ branchOf E basicInfo = pre ++ post ->
  processThrough [("keep", JStr keep)] pre st = (Ok r, st') ->
  Obj.get "error" r <> None ->
  keepTask E keep st = (Ok r, st') /\
  forall later, processThrough r later st' = (Ok r, st').
Proof.
  intros Hgen Hsplit Hpre Herr.
  assert (Hsound : Forall stageSound pre).
  { assert (Hall : Forall stageSound (pre ++ post)).
    { rewrite <- Hsplit. apply Forall_app. split;
        [apply genericStatusProcessors_sound | apply branchOf_sound]. }
    apply Forall_app in Hall. apply Hall. }
  assert (Hfrozen : hasError r = true).
  { eapply rowOf_hasError; [|exact Herr].
    eapply processThrough_rowOf; [exact Hsound | apply rowOf_initial | exact Hpre]. }
  split; [|intros later; apply processThrough_frozen, Hfrozen].
  rewrite keepTask_chain, Hgen.
  transitivity (processThrough [("keep", JStr keep)]
                  (genericStatusProcessors E ++ branchOf E basicInfo) st).
  - rewrite processThrough_app, Hgen. reflexivity.
  - rewrite Hsplit, processThrough_app, Hpre. apply processThrough_frozen, Hfrozen.
Qed.

(** C3 at work: keep [K2] is closed and holds no BTC; the third generic
    stage sets the error, and the misfund branch dispatched afterwards
    leaves the row as it is. *)
Lemma C3_error_row_is_terminal_K2 :
  keepTask Scenario.threeSigners "K2" (initialState 0)
  = (Ok [("keep", JStr "K2"); ("status", JStr "closed"); ("error", JStr "no BTC")],
     mkState 0 (Some 9000%N) ∅ ∅ []) /\
  forall later,
    processThrough
      [("keep", JStr "K2"); ("status", JStr "closed"); ("error", JStr "no BTC")]
      later (mkState 0 (Some 9000%N) ∅ ∅ [])
    = (Ok [("keep", JStr "K2"); ("status", JStr "closed"); ("error", JStr "no BTC")],
       mkState 0 (Some 9000%N) ∅ ∅ []).
Proof.
  apply (C3_error_row_is_terminal Scenario.threeSigners "K2" (initialState 0)
           (mkState 0 (Some 9000%N) ∅ ∅ []) (mkState 0 (Some 9000%N) ∅ ∅ [])
           [("keep", JStr "K2"); ("status", JStr "closed"); ("error", JStr "no BTC")]
           [("keep", JStr "K2"); ("status", JStr "closed"); ("error", JStr "no BTC")]
           (genericStatusProcessors Scenario.threeSigners)
           misfundProcessors).
  - vm_compute. reflexivity.
  - reflexivity.
  - vm_compute. reflexivity.
  - discriminate.
Defined.

(** * The liquidation scenario *)

Section Liquidation.

Context {W : Type} (E : Collab W).

Lemma ask_ok {A : Type} (q : W -> Result A * W) (a : A) (st : State W) :
  (q (world st)).1 = Ok a ->
  exists st', ask q st = (Ok a, st') /\
              delegationInfoCache st' = delegationInfoCache st.
Proof.
  intros H. unfold ask. destruct (q (world st)) as [r w]. simpl in H. subst r.
  eexists. split; reflexivity.
Qed.

Lemma cacheFromChain_same (st st' : State W) :
  delegationInfoCache st' = delegationInfoCache st ->
  cacheFromChain E st -> cacheFromChain E st'.
Proof.
  intros Hc H op p Hp. apply (H op p). unfold cached in *. rewrite <- Hc. exact Hp.
Qed.

Lemma keySharesReady_present keep (st : State W) :
  keySharesPresent E keep ->
  exists st', keySharesReady E keep st = (Ok true, st') /\
              delegationInfoCache st' = delegationInfoCache st.
Proof.
  intros (Hdir & Hfiles & Hsign). unfold keySharesReady, tryCatch, bind.
  destruct (ask_ok _ _ st (Hdir (world st))) as (st1 & -> & Hc1).
  destruct (Hfiles (world st1)) as (files & Hread & Hlen).
  destruct (ask_ok _ _ st1 Hread) as (st2 & -> & Hc2). rewrite Hlen. simpl.
  destruct (Hsign (world st2)) as (r & Hr).
  destruct (ask_ok _ _ st2 Hr) as (st3 & -> & Hc3).
  exists st3. split; [reflexivity | congruence].
Qed.

Lemma referenceBlock_ok (st : State W) :
  (forall w, exists b, (getBlockNumber E w).1 = Ok b) ->
  exists b st', referenceBlock E st = (Ok b, st') /\
                delegationInfoCache st' = delegationInfoCache st.
Proof.
  intros Hblock. unfold referenceBlock, bind, getState.
  destruct (Hblock (world st)) as (b' & Hb').
  destruct (ask_ok _ _ st Hb') as (st1 & Hask & Hc1).
  destruct (startingBlock st) as [b|]; [destruct (b =? 0)%N|].
  - rewrite Hask. simpl. eexists _, _. split; [reflexivity | exact Hc1].
  - eexists _, _. split; reflexivity.
  - rewrite Hask. simpl. eexists _, _. split; [reflexivity | exact Hc1].
Qed.

Lemma keepStatusCompleted_terminated keep (st : State W) :
  resolvesTerminated E keep ->
  exists st', keepStatusCompleted E keep st = (Ok (Some "terminated"), st') /\
              delegationInfoCache st' = delegationInfoCache st.
Proof.
  intros (Hblock & Hclosed & Hterm). unfold keepStatusCompleted, bind, keepAt.
  destruct (referenceBlock_ok st Hblock) as (b & st1 & -> & Hc1).
  destruct (ask_ok _ _ st1 (Hclosed b (world st1))) as (st2 & -> & Hc2).
  destruct (ask_ok _ _ st2 (Hterm b (world st2))) as (st3 & -> & Hc3).
  exists st3. split; [reflexivity | congruence].
Qed.

Lemma keepHoldsBtc_balance keep addr bal (st : State W) :
  holdsBalance E keep addr bal ->
  exists st', keepHoldsBtc E keep st = (Ok (addr, bal), st') /\
              delegationInfoCache st' = delegationInfoCache st.
Proof.
  intros (pk & Hpk & Haddr & Hbal). unfold keepHoldsBtc, bind, keepAt, liftR.
  destruct (ask_ok _ _ st (Hpk (world st))) as (st1 & -> & Hc1).
  rewrite Haddr.
  destruct (ask_ok _ _ st1 (Hbal (world st1))) as (st2 & -> & Hc2).
  exists st2. split; [reflexivity | congruence].
Qed.

Lemma awaited_beneficiaryOf op b (st : State W) :
  (forall w, (beneficiaryOf_call E op w).1 = Fulfilled b) ->
  cacheFromChain E st ->
  exists st', awaited (beneficiaryOf E op) st = (Ok b, st') /\
              cacheFromChain E st'.
Proof.
  intros Hcall Hcache. unfold awaited, bind.
  destruct (cached FBeneficiary op st) as [p|] eqn:Hc.
  - rewrite (beneficiaryOf_hit E _ _ _ Hc).
    destruct (Hcache _ _ Hc) as (w & ->). rewrite Hcall. simpl.
    exists st. split; [reflexivity | exact Hcache].
  - unfold beneficiaryOf. rewrite Hc.
    pose proof (Hcall (world st)) as Hq.
    destruct (beneficiaryOf_call E op (world st)) as [p w] eqn:Hcallw.
    simpl in Hq. subst p. simpl.
    eexists. split; [reflexivity|].
    intros op' p' Hp'. destruct (decide (op' = op)) as [->|Hne].
    + rewrite cached_insert_same in Hp'. simpl in Hp'. injection Hp' as <-.
      exists (world st). rewrite Hcallw. reflexivity.
    + rewrite (cached_insert_other FBeneficiary op' op _ st) in Hp' by assumption.
      apply Hcache, Hp'.
Qed.

Lemma present_lookup (o : option string) :
  present o = true -> exists d, o = Some d.
Proof. destruct o as [d|]; [eauto | discriminate]. Qed.

Lemma readBeneficiary_attested op (st : State W) :
  attestedByBeneficiary E op ->
  cacheFromChain E st ->
  exists d st', readBeneficiary E op st = (Ok (Some d), st') /\
                cacheFromChain E st'.
Proof.
  intros (contents & m & s & a & b & d & Hfile & Hread & Hparse & Hm & Hs & Ha
          & Hrec & Hben & Hlow & Hdest) Hcache.
  unfold readBeneficiary, bind, getState.
  destruct (present (operatorBeneficiaries st !! op)) eqn:Hp.
  - destruct (present_lookup _ Hp) as (d0 & ->).
    exists d0, st. split; [reflexivity | exact Hcache].
  - unfold tryCatch.
    destruct (ask_ok _ _ st (Hfile (world st))) as (st1 & -> & Hc1). simpl.
    destruct (ask_ok _ _ st1 (Hread (world st1))) as (st2 & -> & Hc2).
    unfold liftR. rewrite Hparse. simpl. unfold present. rewrite Hm, Hs, Ha. simpl.
    rewrite Hrec. rewrite eqb_same. simpl.
    unfold signerRejected, bind.
    assert (Hcache2 : cacheFromChain E st2).
    { apply (cacheFromChain_same st); [congruence | exact Hcache]. }
    destruct (awaited_beneficiaryOf op b st2 Hben Hcache2) as (st3 & -> & Hcache3).
    rewrite Hlow, eqb_same. simpl. rewrite Hdest.
    eexists _, _. split; [reflexivity|].
    apply (cacheFromChain_same st3); [reflexivity | exact Hcache3].
Qed.

Lemma beneficiaries_attested keep o1 o2 o3 (st : State W) :
  (forall w, (getMembers E keep w).1 = Ok [o1; o2; o3]) ->
  attestedByBeneficiary E o1 ->
  attestedByBeneficiary E o2 ->
  attestedByBeneficiary E o3 ->
  cacheFromChain E st ->
  exists b1 b2 b3 st',
    beneficiariesAvailableAndSigned E keep st
    = (Ok [("beneficiary1", JStr b1); ("beneficiary2", JStr b2);
           ("beneficiary3", JStr b3)], st').
Proof.
  intros Hmem H1 H2 H3 Hcache.
  unfold beneficiariesAvailableAndSigned, bind, keepAt.
  destruct (ask_ok _ _ st (Hmem (world st))) as (st0 & -> & Hc0).
  assert (Hcache0 : cacheFromChain E st0).
  { apply (cacheFromChain_same st); assumption. }
  unfold tryCatch. simpl.
  destruct (readBeneficiary_attested o1 st0 H1 Hcache0) as (b1 & st1 & -> & Hcache1).
  destruct (readBeneficiary_attested o2 st1 H2 Hcache1) as (b2 & st2 & -> & Hcache2).
  destruct (readBeneficiary_attested o3 st2 H3 Hcache2) as (b3 & st3 & -> & Hcache3).
  simpl. exists b1, b2, b3, st3. reflexivity.
Qed.

End Liquidation.

(** Keep [K1] with every precondition met: the terminal row has no error
    and holds the three beneficiaries, and the transaction builder hands
    back an empty record, so no field for a transaction result is there. *)
Lemma C8_no_transaction_field_on_K1 :
  (keepTask Scenario.allByBeneficiary "K1" (initialState 0)).1
  = Ok [("keep", JStr "K1"); ("status", JStr "terminated");
        ("bitcoinAddress", JStr "bc1q04K1"); ("btcBalance", JNum 5000000);
        ("beneficiary1", JStr Scenario.destination);
        ("beneficiary2", JStr Scenario.destination);
        ("beneficiary3", JStr Scenario.destination)] /\
  buildAndBroadcastLiquidationSplit (W:=nat)
    [("keep", JStr "K1"); ("status", JStr "terminated");
     ("bitcoinAddress", JStr "bc1q04K1"); ("btcBalance", JNum 5000000);
     ("beneficiary1", JStr Scenario.destination);
     ("beneficiary2", JStr Scenario.destination);
     ("beneficiary3", JStr Scenario.destination)] (initialState 0)
  = (Ok [], initialState 0).
Proof. split; vm_compute; reflexivity. Qed.

(** C8: for a keep that resolves to terminated, holds a positive balance,
    has its key shares, and whose three signers each have on file an
    attestation that recovers to the signer's beneficiary address and names
    a destination, the terminal row has no [error] field and holds
    [beneficiary1], [beneficiary2] and [beneficiary3]; but it is exactly
    the keep, its status, its Bitcoin address and balance and these three:
    the transaction builder adds no field, so the transaction result the
    row should carry is missing. *)
Theorem C8_liquidation_row {W : Type} (E : Collab W)
    (keep o1 o2 o3 addr : string) (bal : Z) (st : State W) :
  keySharesPresent E keep ->
  resolvesTerminated E keep ->
  holdsBalance E keep addr bal ->
  (0 < bal)%Z ->
  (forall w, (getMembers E keep w).1 = Ok [o1; o2; o3]) ->
  attestedByBeneficiary E o1 ->
  attestedByBeneficiary E o2 ->
  attestedByBeneficiary E o3 ->
  cacheFromChain E st ->
  exists b1 b2 b3 st',
    keepTask E keep st
    = (Ok [("keep", JStr keep); ("status", JStr "terminated");
           ("bitcoinAddress", JStr addr); ("btcBalance", JNum bal);
           ("beneficiary1", JStr b1); ("beneficiary2", JStr b2);
           ("beneficiary3", JStr b3)], st').
Proof.
  intros Hshares Hstatus Hbtc Hpos Hmem H1 H2 H3 Hcache.
  destruct (keySharesReady_present E keep st Hshares) as (st1 & Hk & Hc1).
  destruct (keepStatusCompleted_terminated E keep st1 Hstatus) as (st2 & Hs & Hc2).
  destruct (keepHoldsBtc_balance E keep addr bal st2 Hbtc) as (st3 & Hb & Hc3).
  assert (Hcache3 : cacheFromChain E st3).
  { apply (cacheFromChain_same E st); [congruence | exact Hcache]. }
  destruct (beneficiaries_attested E keep o1 o2 o3 st3 Hmem H1 H2 H3 Hcache3)
    as (b1 & b2 & b3 & st4 & Hl).
  exists b1, b2, b3, st4.
  assert (Hgen : processThrough [("keep", JStr keep)] (genericStatusProcessors E) st
                 = (Ok [("keep", JStr keep); ("status", JStr "terminated");
                        ("bitcoinAddress", JStr addr); ("btcBalance", JNum bal)], st3)).
  { unfold genericStatusProcessors.
    rewrite (processThrough_step _ _ _ st [("keep", JStr keep)] st1);
      [|reflexivity | unfold bind; change (keepOf _) with keep; rewrite Hk; reflexivity].
    rewrite (processThrough_step _ _ _ st1
               [("keep", JStr keep); ("status", JStr "terminated")] st2);
      [|reflexivity | unfold bind; change (keepOf _) with keep; rewrite Hs; reflexivity].
    rewrite (processThrough_step _ _ _ st2
               [("keep", JStr keep); ("status", JStr "terminated");
                ("bitcoinAddress", JStr addr); ("btcBalance", JNum bal)] st3);
      [reflexivity | reflexivity |].
    unfold bind; change (keepOf _) with keep; rewrite Hb. simpl.
    replace (bal >? 0)%Z with true by (symmetry; apply Z.gtb_lt; exact Hpos).
    reflexivity. }
  rewrite keepTask_chain, Hgen. unfold branchOf.
  change (statusIs "terminated" _) with true. cbv iota.
  unfold liquidationProcessors.
  rewrite (processThrough_step _ _ _ st3
             [("keep", JStr keep); ("status", JStr "terminated");
              ("bitcoinAddress", JStr addr); ("btcBalance", JNum bal);
              ("beneficiary1", JStr b1); ("beneficiary2", JStr b2);
              ("beneficiary3", JStr b3)] st4);
    [|reflexivity | unfold bind; change (keepOf _) with keep; rewrite Hl; reflexivity].
  reflexivity.
Qed.

(** C8 at work: keep [K1] of the scenario in which every signer signs
    with its beneficiary address. *)
Lemma C8_liquidation_row_K1 :
  exists b1 b2 b3 st',
    keepTask Scenario.allByBeneficiary "K1" (initialState 0)
    = (Ok [("keep", JStr "K1"); ("status", JStr "terminated");
           ("bitcoinAddress", JStr "bc1q04K1"); ("btcBalance", JNum 5000000);
           ("beneficiary1", JStr b1); ("beneficiary2", JStr b2);
           ("beneficiary3", JStr b3)], st').
Proof.
  apply (C8_liquidation_row Scenario.allByBeneficiary "K1" "0xOp1" "0xOp4" "0xOp5").
  - repeat split; intros; eexists; try split; reflexivity.
  - repeat split; intros; try eexists; reflexivity.
  - exists "0x04K1". repeat split; reflexivity.
  - reflexivity.
  - reflexivity.
  - exists "beneficiaries/0xop1.json", Scenario.message, "0xBEEF01", "0xBEEF01",
      "0xbeef01", Scenario.destination. repeat split; reflexivity.
  - exists "beneficiaries/0xop4.json", Scenario.message, "0xBEEF01", "0xBEEF01",
      "0xbeef01", Scenario.destination. repeat split; reflexivity.
  - exists "beneficiaries/0xop5.json", Scenario.message, "0xBEEF01", "0xBEEF01",
      "0xbeef01", Scenario.destination. repeat split; reflexivity.
  - intros op p H. discriminate.
Defined.

(** * Sets in insertion order *)

Lemma setAdd_fold l : forall acc,
  fold_left setAdd l acc = acc ++ filter (fun y => y ∉ acc) (firstSeen l).
Proof.
  induction l as [|x l IH]; intros acc; simpl.
  - rewrite filter_nil, app_nil_r. reflexivity.
  - rewrite IH. unfold setAdd. case_bool_decide as Hx.
    + rewrite filter_cons_False by (intros Hn; apply Hn, Hx).
      rewrite list_filter_filter_l; [reflexivity|].
      intros y Hy ->. apply Hy, Hx.
    + rewrite filter_cons_True by exact Hx.
      rewrite <- app_assoc. simpl. do 2 f_equal.
      rewrite list_filter_filter. apply list_filter_iff.
      intros y. rewrite not_elem_of_app, list_elem_of_singleton. reflexivity.
Qed.

Lemma setAdd_firstSeen l : fold_left setAdd l [] = firstSeen l.
Proof.
  rewrite setAdd_fold. simpl.
  induction (firstSeen l) as [|x t IH]; [reflexivity|].
  rewrite filter_cons_True by apply not_elem_of_nil. f_equal. exact IH.
Qed.


Lemma NoDup_firstSeen l : NoDup (firstSeen l).
Proof.
  induction l as [|y l IH]; simpl; [constructor|].
  constructor; [|apply NoDup_filter, IH].
  rewrite list_elem_of_filter. intros [Hne _]. apply Hne. reflexivity.
Qed.

(** * The keeps of the input *)

Lemma present_keepColumn r :
  (present (keepColumn r) = true /\
   exists k, keepColumn r = Some k /\ Str.truthy k = true) \/
  (present (keepColumn r) = false /\
   match keepColumn r with
   | Some k => if Str.truthy k then Some k else None
   | None => None
   end = None).
Proof.
  unfold present. destruct (keepColumn r) as [k|]; [|right; split; reflexivity].
  destruct (Str.truthy k) eqn:Ht; [left; eauto | right; split; reflexivity].
Qed.

Lemma keeps_of_filtered input :
  map (fun inputRow => default "" (keepColumn inputRow))
      (filter (fun inputRow => present (keepColumn inputRow)) input)
  = keepCells input.
Proof.
  induction input as [|r input IH]; [reflexivity|].
  unfold keepCells in *. simpl.
  destruct (present_keepColumn r) as [(Hp & k & Hk & Ht)|(Hp & Hnone)].
  - rewrite filter_cons_True by (rewrite Hp; exact I).
    simpl. rewrite Hk, Ht. simpl. f_equal. exact IH.
  - rewrite filter_cons_False by (rewrite Hp; intros []).
    rewrite Hnone. exact IH.
Qed.

Lemma fold_left_map_arg {A B C : Type} (f : A -> B -> A) (g : C -> B) l : forall a,
  fold_left (fun acc x => f acc (g x)) l a = fold_left f (map g l) a.
Proof. induction l as [|x l IH]; intros a; simpl; [reflexivity | apply IH]. Qed.

Lemma distinctKeeps_firstSeen input :
  distinctKeeps input = firstSeen (keepCells input).
Proof.
  unfold distinctKeeps.
  rewrite (fold_left_map_arg setAdd (fun r => default "" (keepColumn r))).
  rewrite keeps_of_filtered. apply setAdd_firstSeen.
Qed.



(** * The report *)

Lemma lookup_map {A B : Type} (f : A -> B) (l : list A) : forall i x,
  l !! i = Some x -> map f l !! i = Some (f x).
Proof.
  induction l as [|y l IH]; intros [|i] x H; try discriminate; simpl in *.
  - injection H as ->. reflexivity.
  - apply IH, H.
Qed.

Lemma allKeys_firstSeen (rows : list Row) :
  allKeys rows = firstSeen (flat_map Obj.keys rows).
Proof. apply setAdd_firstSeen. Qed.


(** * Key shares *)

Section KeyShares.

Context {W : Type} (E : Collab W).

Lemma ask_run {A : Type} (q : W -> Result A * W) (st : State W) :
  ask q st = ((q (world st)).1, setWorld (q (world st)).2 st).
Proof. unfold ask, setWorld. destruct (q (world st)); reflexivity. Qed.

(** While the promise of the signer settles, [keySharesReady] answers,
    and [true] exactly when the keep's directory is a directory, holds
    exactly three entries, and the promise of the signer resolves. *)
Lemma keySharesReady_answer (keep : string) (st : State W) :
  exists b st',
    keySharesReady E keep st = (Ok b, st') /\
    (b = true <->
     exists w1 files w2 r w3,
       stat_isDirectory E (keepDirectory E keep) (world st) = (Ok true, w1) /\
       readdir E (keepDirectory E keep) w1 = (Ok files, w2) /\
       length files = 3 /\
       signDigest E keep "deadbeef" w2 = (Ok r, w3)).
Proof.
  unfold keySharesReady, tryCatch, bind. rewrite ask_run.
  destruct (stat_isDirectory E (keepDirectory E keep) (world st))
    as [[[]|e] w1] eqn:Hstat; simpl;
    [|eexists _, _; (split; [reflexivity|]); (split; [discriminate|]);
      intros (? & ? & ? & ? & ? & H1 & _); discriminate..].
  rewrite ask_run. simpl.
  destruct (readdir E (keepDirectory E keep) w1) as [[files|e] w2] eqn:Hread; simpl.
  - destruct (length files =? 3) eqn:Hlen.
    + rewrite ask_run. simpl.
      destruct (signDigest E keep "deadbeef" w2) as [[r|e] w3] eqn:Hsign; simpl.
      * eexists _, _. split; [reflexivity|]. split; [intros _|reflexivity].
        exists w1, files, w2, r, w3. apply Nat.eqb_eq in Hlen. auto.
      * eexists _, _. split; [reflexivity|]. split; [discriminate|].
        intros (? & ? & ? & ? & ? & H1 & H2 & _ & H4). simplify_eq.
        rewrite Hread in H2. simplify_eq. rewrite Hsign in H4. discriminate.
    + eexists _, _. split; [reflexivity|]. split; [discriminate|].
      intros (? & ? & ? & ? & ? & H1 & H2 & H3 & _). simplify_eq.
      rewrite Hread in H2. simplify_eq. apply Nat.eqb_neq in Hlen. contradiction.
  - eexists _, _. split; [reflexivity|]. split; [discriminate|].
    intros (? & ? & ? & ? & ? & H1 & H2 & _). simplify_eq.
    rewrite Hread in H2. discriminate.
Qed.

(** X2: when the keep's directory does not hold exactly three entries the
    answer is [false] and the signer is not started: the world is as the
    directory listing left it. *)
Theorem keySharesReady_spares_the_signer (keep : string) (st : State W)
    (w1 w2 : W) (files : list string) :
  stat_isDirectory E (keepDirectory E keep) (world st) = (Ok true, w1) ->
  readdir E (keepDirectory E keep) w1 = (Ok files, w2) ->
  length files <> 3 ->
  keySharesReady E keep st = (Ok false, setWorld w2 st).
Proof.
  intros Hstat Hread Hlen. unfold keySharesReady, tryCatch, bind.
  rewrite ask_run, Hstat. simpl. rewrite ask_run. simpl. rewrite Hread. simpl.
  apply Nat.eqb_neq in Hlen. rewrite Hlen. reflexivity.
Qed.

End KeyShares.

(** X2 at work: the directory of keep [KB] holds two shares. *)
Lemma keySharesReady_spares_the_signer_KB :
  keySharesReady Office.desk "KB" (initialState [])
  = (Ok false, setWorld ["readdir key-shares/KB"; "stat key-shares/KB"] (initialState [])).
Proof.
  apply (keySharesReady_spares_the_signer Office.desk "KB" (initialState [])
           ["stat key-shares/KB"] _ ["share1"; "share2"]).
  - reflexivity.
  - reflexivity.
  - simpl. lia.
Defined.

(** * The outcomes of a keep's task *)

Section Outcomes.

Context {W : Type} (E : Collab W).

(** Once a row has its error, the rest of the generic stages and the
    branch dispatched on its status leave it alone. *)
Lemma error_row_ends_task (r : Row) (rest : list (Row -> M W Row)) (st : State W) :
  hasError r = true ->
  match processThrough r rest st with
  | (Ok basicInfo, st1) => processThrough basicInfo (branchOf E basicInfo) st1
  | (Throw e, st1) => (Throw e, st1)
  end = (Ok r, st).
Proof.
  intros H. rewrite (processThrough_frozen rest r st H).
  apply processThrough_frozen, H.
Qed.

Lemma keepStatusCompleted_range keep (st st' : State W) s :
  keepStatusCompleted E keep st = (Ok (Some s), st') -> isStatus s.
Proof.
  unfold keepStatusCompleted, bind.
  destruct (referenceBlock E st) as [[b|e] st1]; [|discriminate].
  destruct (ask (isClosed E (keepAt keep) b) st1) as [[[]|e] st2];
    [intros [= <- _]; left; reflexivity | | discriminate].
  destruct (ask (isTerminated E (keepAt keep) b) st2) as [[[]|e] st3];
    [intros [= <- _]; right; reflexivity | discriminate | discriminate].
Qed.

Lemma promiseAll_length {A : Type} (tasks : list (M W A)) : forall st l st',
  promiseAll tasks st = (Ok l, st') -> length l = length tasks.
Proof.
  induction tasks as [|t ts IH]; intros st l st'; simpl.
  - intros [= <- _]. reflexivity.
  - destruct (t st) as [[a|e] st1].
    + destruct (promiseAll ts st1) as [[l'|e] st2] eqn:Hrest; [|discriminate].
      intros [= <- _]. simpl. f_equal. eapply IH, Hrest.
    + destruct (promiseAll ts st1) as [[l'|e'] st2]; discriminate.
Qed.

Lemma unavailable_nil (bs : list (option string)) : forall ops,
  length bs = length ops ->
  unavailable bs ops = [] ->
  forall i, isBeneficiary (beneficiaryAt bs i).
Proof.
  induction bs as [|[d|] bs IH]; intros [|o ops] Hlen Hnil i; simpl in *;
    try discriminate.
  - right. destruct i; reflexivity.
  - destruct i as [|i]; [left; eauto|].
    apply (IH ops); [lia | exact Hnil].
Qed.

Lemma beneficiaries_shape keep (st st' : State W) upd :
  beneficiariesAvailableAndSigned E keep st = (Ok upd, st') ->
  (exists reason, liquidationError reason /\ upd = [("error", JStr reason)]) \/
  (exists v1 v2 v3,
      isBeneficiary v1 /\ isBeneficiary v2 /\ isBeneficiary v3 /\
      upd = [("beneficiary1", v1); ("beneficiary2", v2); ("beneficiary3", v3)]).
Proof.
  unfold beneficiariesAvailableAndSigned, bind, tryCatch.
  destruct (ask (getMembers E (keepAt keep)) st) as [[operators|e] st0];
    [|discriminate].
  destruct (promiseAll (map (readBeneficiary E) operators) st0)
    as [[bs|e] st1] eqn:Hall.
  - apply promiseAll_length in Hall. rewrite length_map in Hall.
    destruct (unavailable bs operators) as [|o missing] eqn:Hun; simpl.
    + intros [= <- _]. right.
      exists (beneficiaryAt bs 0), (beneficiaryAt bs 1), (beneficiaryAt bs 2).
      repeat split; try (eapply unavailable_nil; eassumption).
    + intros [= <- _]. left. eexists. split; [|reflexivity].
      apply (err_missing (o :: missing)). discriminate.
  - intros [= <- _]. left. eexists. split; [apply err_lookup | reflexivity].
Qed.

(** X3: when the key shares are not ready the task ends with the row of
    the keep and the error [missing key shares], in the state the check
    left: nothing is asked of the chain or of Bitcoin. *)
Theorem missing_key_shares_end_the_task (keep : string) (st st1 : State W) :
  keySharesReady E keep st = (Ok false, st1) ->
  keepTask E keep st
  = (Ok [("keep", JStr keep); ("error", JStr "missing key shares")], st1).
Proof.
  intros Hk. rewrite keepTask_chain. unfold genericStatusProcessors.
  rewrite (processThrough_step _ _ _ st
             [("keep", JStr keep); ("error", JStr "missing key shares")] st1);
    [|reflexivity | unfold bind; change (keepOf _) with keep; rewrite Hk; reflexivity].
  apply error_row_ends_task. reflexivity.
Qed.

(** X4: when the keep is neither closed nor terminated the task ends with
    the error [no status] and the balance is not looked up. *)
Theorem unresolved_status_ends_the_task (keep : string) (st st1 st2 : State W) :
  keySharesReady E keep st = (Ok true, st1) ->
  keepStatusCompleted E keep st1 = (Ok None, st2) ->
  keepTask E keep st
  = (Ok [("keep", JStr keep); ("error", JStr "no status")], st2).
Proof.
  intros Hk Hs. rewrite keepTask_chain. unfold genericStatusProcessors.
  rewrite (processThrough_step _ _ _ st [("keep", JStr keep)] st1);
    [|reflexivity | unfold bind; change (keepOf _) with keep; rewrite Hk; reflexivity].
  rewrite (processThrough_step _ _ _ st1
             [("keep", JStr keep); ("error", JStr "no status")] st2);
    [|reflexivity | unfold bind; change (keepOf _) with keep; rewrite Hs; reflexivity].
  apply error_row_ends_task. reflexivity.
Qed.

(** X5: when the keep's address holds no balance the task ends with the
    status it resolved and the error [no BTC]; the stages of the branch of
    that status do nothing. *)
Theorem empty_balance_ends_the_task (keep s addr : string) (bal : Z)
    (st st1 st2 st3 : State W) :
  keySharesReady E keep st = (Ok true, st1) ->
  keepStatusCompleted E keep st1 = (Ok (Some s), st2) ->
  keepHoldsBtc E keep st2 = (Ok (addr, bal), st3) ->
  (bal <= 0)%Z ->
  keepTask E keep st
  = (Ok [("keep", JStr keep); ("status", JStr s); ("error", JStr "no BTC")], st3).
Proof.
  intros Hk Hs Hb Hbal. rewrite keepTask_chain. unfold genericStatusProcessors.
  rewrite (processThrough_step _ _ _ st [("keep", JStr keep)] st1);
    [|reflexivity | unfold bind; change (keepOf _) with keep; rewrite Hk; reflexivity].
  rewrite (processThrough_step _ _ _ st1
             [("keep", JStr keep); ("status", JStr s)] st2);
    [|reflexivity | unfold bind; change (keepOf _) with keep; rewrite Hs; reflexivity].
  rewrite (processThrough_step _ _ _ st2
             [("keep", JStr keep); ("status", JStr s); ("error", JStr "no BTC")] st3);
    [apply (error_row_ends_task _ []); reflexivity | reflexivity |].
  unfold bind. change (keepOf _) with keep. rewrite Hb. simpl.
  replace (bal >? 0)%Z with false by (symmetry; rewrite Z.gtb_ltb; apply Z.ltb_ge; exact Hbal).
  reflexivity.
Qed.

(** X6: a closed keep with its key shares and a positive balance ends
    with the keep, the status, the address and the balance, and nothing
    more: the misfund branch adds no refund and no error. *)
Theorem closed_keep_row (keep addr : string) (bal : Z)
    (st st1 st2 st3 : State W) :
  keySharesReady E keep st = (Ok true, st1) ->
  keepStatusCompleted E keep st1 = (Ok (Some "closed"), st2) ->
  keepHoldsBtc E keep st2 = (Ok (addr, bal), st3) ->
  (0 < bal)%Z ->
  keepTask E keep st
  = (Ok [("keep", JStr keep); ("status", JStr "closed");
         ("bitcoinAddress", JStr addr); ("btcBalance", JNum bal)], st3).
Proof.
  intros Hk Hs Hb Hbal. rewrite keepTask_chain. unfold genericStatusProcessors.
  rewrite (processThrough_step _ _ _ st [("keep", JStr keep)] st1);
    [|reflexivity | unfold bind; change (keepOf _) with keep; rewrite Hk; reflexivity].
  rewrite (processThrough_step _ _ _ st1
             [("keep", JStr keep); ("status", JStr "closed")] st2);
    [|reflexivity | unfold bind; change (keepOf _) with keep; rewrite Hs; reflexivity].
  rewrite (processThrough_step _ _ _ st2
             [("keep", JStr keep); ("status", JStr "closed");
              ("bitcoinAddress", JStr addr); ("btcBalance", JNum bal)] st3);
    [reflexivity | reflexivity |].
  unfold bind. change (keepOf _) with keep. rewrite Hb. simpl.
  replace (bal >? 0)%Z with true by (symmetry; apply Z.gtb_lt; exact Hbal).
  reflexivity.
Qed.

(** While the promise of the signer settles, the task of a keep ends
    with one of the rows of [terminalRow]. *)
Lemma keepTask_terminalRow (keep : string) (st : State W) :
  exists r st', keepTask E keep st = (Ok r, st') /\ terminalRow keep r.
Proof.
  rewrite keepTask_chain. unfold genericStatusProcessors.
  destruct (keySharesReady_answer E keep st) as (ready & st1 & Hk & _).
  destruct ready.
  2:{ rewrite (processThrough_step _ _ _ st
                 [("keep", JStr keep); ("error", JStr "missing key shares")] st1);
        [|reflexivity | unfold bind; change (keepOf _) with keep; rewrite Hk; reflexivity].
      rewrite error_row_ends_task by reflexivity.
      eexists _, _. split; [reflexivity | constructor]. }
  rewrite (processThrough_step _ _ _ st [("keep", JStr keep)] st1);
    [|reflexivity | unfold bind; change (keepOf _) with keep; rewrite Hk; reflexivity].
  rewrite processThrough_cons, processStep_ret.
  change (hasError [("keep", JStr keep)]) with false. cbv beta iota.
  unfold bind at 1. change (keepOf [("keep", JStr keep)]) with keep.
  destruct (keepStatusCompleted E keep st1) as [[[s|]|e] st2] eqn:Hs.
  2:{ change (withError [("keep", JStr keep)] "no status")
        with [("keep", JStr keep); ("error", JStr "no status")].
      unfold ret at 1. rewrite error_row_ends_task by reflexivity.
      eexists _, _. split; [reflexivity | constructor]. }
  2:{ rewrite error_row_ends_task by reflexivity.
      eexists _, _. split; [reflexivity | apply row_status_failed]. }
  apply keepStatusCompleted_range in Hs.
  change (Obj.spread [("keep", JStr keep)] [("status", JStr s)])
    with [("keep", JStr keep); ("status", JStr s)].
  unfold ret at 1.
  rewrite processThrough_cons, processStep_ret.
  change (hasError [("keep", JStr keep); ("status", JStr s)]) with false.
  cbv beta iota. unfold bind at 1.
  change (keepOf [("keep", JStr keep); ("status", JStr s)]) with keep.
  destruct (keepHoldsBtc E keep st2) as [[[addr bal]|e] st3].
  2:{ eexists _, _. split; [apply (error_row_ends_task _ []); reflexivity|].
      apply row_balance_failed, Hs. }
  cbv beta iota. cbn [fst snd]. destruct (bal >? 0)%Z eqn:Hbal.
  2:{ eexists _, _. split; [apply (error_row_ends_task _ []); reflexivity|].
      apply row_no_btc, Hs. }
  apply Z.gtb_lt in Hbal. unfold ret at 1.
  change (Obj.spread [("keep", JStr keep); ("status", JStr s)]
            [("bitcoinAddress", JStr addr); ("btcBalance", JNum bal)])
    with [("keep", JStr keep); ("status", JStr s);
          ("bitcoinAddress", JStr addr); ("btcBalance", JNum bal)].
  cbv beta iota. rewrite processThrough_nil. unfold branchOf.
  destruct Hs as [-> | ->].
  - change (statusIs "terminated" _) with false.
    change (statusIs "closed" _) with true. cbv iota.
    eexists _, _. split; [reflexivity | apply row_closed, Hbal].
  - change (statusIs "terminated" _) with true. cbv iota.
    unfold liquidationProcessors.
    rewrite processThrough_cons, processStep_ret.
    match goal with |- context [hasError ?r] => change (hasError r) with false end.
    cbv beta iota. unfold bind at 1.
    match goal with |- context [keepOf ?r] => change (keepOf r) with keep end.
    destruct (beneficiariesAvailableAndSigned E keep st3) as [[upd|e] st4] eqn:Hben.
    + destruct (beneficiaries_shape _ _ _ _ Hben)
        as [(reason & Hreason & ->)|(v1 & v2 & v3 & H1 & H2 & H3 & ->)].
      * eexists _, _. split; [|apply row_liquidation_failed; eassumption].
        unfold ret at 1. apply processThrough_frozen.
        inversion Hreason; reflexivity.
      * eexists _, _. split; [reflexivity|].
        apply row_liquidation; assumption.
    + eexists _, _. split; [apply processThrough_frozen; reflexivity|].
      apply row_liquidation_failed; [exact Hbal | apply err_members].
Qed.

End Outcomes.

(** * The matches of the two patterns *)

Lemma substring_prefix (n : nat) : forall s,
  exists rest, s = substring 0 n s +:+ rest.
Proof.
  induction n as [|n IH]; intros [|c t]; simpl.
  - exists "". reflexivity.
  - exists (String c t). reflexivity.
  - exists "". reflexivity.
  - destruct (IH t) as (rest & Hrest). exists rest.
    change (String c t = String c (substring 0 n t +:+ rest)). f_equal. exact Hrest.
Qed.

Lemma substring_length (n : nat) : forall s,
  n <= String.length s -> String.length (substring 0 n s) = n.
Proof.
  induction n as [|n IH]; intros [|c t]; simpl; intros H; try lia.
  rewrite IH by lia. reflexivity.
Qed.

Lemma length_append (a b : string) :
  String.length (a +:+ b) = String.length a + String.length b.
Proof.
  induction a as [|c a IH]; [reflexivity|].
  change (S (String.length (a +:+ b)) = S (String.length a + String.length b)).
  rewrite IH. reflexivity.
Qed.

Lemma alnumRun_bounds (max : nat) : forall s,
  Regex.alnumRun max s <= max /\ Regex.alnumRun max s <= String.length s.
Proof.
  induction max as [|max IH]; intros [|c t]; simpl; try lia.
  destruct (Str.isAlnum c); [|lia]. destruct (IH t). lia.
Qed.

Lemma alnumRun_chars (max : nat) : forall s,
  allChars Str.isAlnum (substring 0 (Regex.alnumRun max s) s) = true.
Proof.
  induction max as [|max IH]; intros [|c t]; simpl; try reflexivity.
  destruct (Str.isAlnum c) eqn:Hc; simpl; [|reflexivity].
  rewrite Hc, IH. reflexivity.
Qed.

Lemma alnumStar_bound : forall s, Regex.alnumStar s <= String.length s.
Proof.
  induction s as [|c t IH]; simpl; [lia|]. destruct (Str.isAlnum c); lia.
Qed.

Lemma alnumStar_chars : forall s,
  allChars Str.isAlnum (substring 0 (Regex.alnumStar s) s) = true.
Proof.
  induction s as [|c t IH]; simpl; [reflexivity|].
  destruct (Str.isAlnum c) eqn:Hc; simpl; [|reflexivity].
  rewrite Hc, IH. reflexivity.
Qed.

Lemma alnum_26_33_spec s n :
  Regex.alnum_26_33 s = Some n ->
  26 <= n <= 33 /\ n <= String.length s /\
  allChars Str.isAlnum (substring 0 n s) = true.
Proof.
  unfold Regex.alnum_26_33.
  pose proof (alnumRun_bounds 33 s) as [Hmax Hlen].
  pose proof (alnumRun_chars 33 s) as Hchars.
  revert Hmax Hlen Hchars. generalize (Regex.alnumRun 33 s). intros k Hmax Hlen Hchars.
  destruct (26 <=? k) eqn:H26; [|discriminate].
  intros [= <-]. apply Nat.leb_le in H26. repeat split; try lia. exact Hchars.
Qed.

(** What the address pattern matches at a position. *)
Lemma addressAt_spec s len :
  Regex.addressAt s = Some len ->
  exists lead rest,
    (lead = "1" \/ lead = "3" \/ lead = "bc1") /\
    substring 0 len s = lead +:+ rest /\
    26 <= String.length rest <= 33 /\
    allChars Str.isAlnum rest = true /\
    1 <= len.
Proof.
  unfold Regex.addressAt.
  destruct s as [|c t]; [discriminate|].
  destruct (decide (c = "1"%char)) as [->|H1].
  { destruct (Regex.alnum_26_33 t) as [n|] eqn:Hn; [|discriminate].
    intros [= <-]. apply alnum_26_33_spec in Hn as (Hb & Hl & Hc).
    exists "1", (substring 0 n t). rewrite substring_length by lia.
    repeat split; auto; lia. }
  destruct (decide (c = "3"%char)) as [->|H3].
  { destruct (Regex.alnum_26_33 t) as [n|] eqn:Hn; [|discriminate].
    intros [= <-]. apply alnum_26_33_spec in Hn as (Hb & Hl & Hc).
    exists "3", (substring 0 n t). rewrite substring_length by lia.
    repeat split; auto; lia. }
  destruct (decide (c = "b"%char)) as [->|Hb].
  2:{ destruct c as [[] [] [] [] [] [] [] []]; try discriminate; congruence. }
  destruct t as [|c1 t]; [discriminate|].
  destruct (decide (c1 = "c"%char)) as [->|Hc1].
  2:{ destruct c1 as [[] [] [] [] [] [] [] []]; try discriminate; congruence. }
  destruct t as [|c2 t]; [discriminate|].
  destruct (decide (c2 = "1"%char)) as [->|Hc2].
  2:{ destruct c2 as [[] [] [] [] [] [] [] []]; try discriminate; congruence. }
  destruct (Regex.alnum_26_33 t) as [n|] eqn:Hn; [|discriminate].
  intros [= <-]. apply alnum_26_33_spec in Hn as (Hb & Hl & Hc).
  exists "bc1", (substring 0 n t). rewrite substring_length by lia.
  repeat split; auto; lia.
Qed.

(** What the extended-key pattern matches at a position. *)
Lemma pubAt_spec s len :
  Regex.pubAt s = Some len ->
  exists c rest,
    (c = "x" \/ c = "y" \/ c = "z")%char /\
    substring 0 len s = String c ("pub" +:+ rest) /\
    allChars Str.isAlnum rest = true /\
    1 <= len.
Proof.
  unfold Regex.pubAt.
  destruct s as [|c s]; [discriminate|].
  destruct s as [|p s]; [discriminate|].
  destruct s as [|u s]; [destruct p as [[] [] [] [] [] [] [] []]; discriminate|].
  destruct s as [|b t];
    [destruct p as [[] [] [] [] [] [] [] []]; try discriminate;
     destruct u as [[] [] [] [] [] [] [] []]; discriminate|].
  destruct (decide (p = "p"%char)) as [->|Hp].
  2:{ destruct p as [[] [] [] [] [] [] [] []]; try discriminate; congruence. }
  destruct (decide (u = "u"%char)) as [->|Hu].
  2:{ destruct u as [[] [] [] [] [] [] [] []]; try discriminate; congruence. }
  destruct (decide (b = "b"%char)) as [->|Hb].
  2:{ destruct b as [[] [] [] [] [] [] [] []]; try discriminate; congruence. }
  case_bool_decide as Hc; [|discriminate].
  intros [= <-]. exists c, (substring 0 (Regex.alnumStar t) t).
  repeat split; auto; [apply alnumStar_chars | lia].
Qed.

(** Every match is cut from the text where the pattern matches. *)
Lemma matchAllFrom_elem (re : string -> option nat) (m : string) : forall s skip,
  m ∈ Regex.matchAllFrom re skip s ->
  exists before s' len,
    s = before +:+ s' /\ re s' = Some len /\ m = substring 0 len s' /\
    s' <> "".
Proof.
  induction s as [|c t IH]; intros skip Hin; simpl in Hin.
  - apply elem_of_nil in Hin. contradiction.
  - assert (Hlater : forall k, m ∈ Regex.matchAllFrom re k t ->
              exists before s' len,
                String c t = before +:+ s' /\ re s' = Some len /\
                m = substring 0 len s' /\ s' <> "").
    { intros k Hk. destruct (IH k Hk) as (before & s' & len & -> & Hre & Hm & Hne).
      exists (String c before), s', len. auto. }
    destruct skip as [|k]; [|apply (Hlater k Hin)].
    destruct (re (String c t)) as [len|] eqn:Hre; [|apply (Hlater 0 Hin)].
    apply elem_of_cons in Hin as [->|Hin]; [|apply (Hlater _ Hin)].
    exists "", (String c t), len. repeat split; auto; discriminate.
Qed.

Lemma occursIn_match before s' len :
  occursIn (substring 0 len s') (before +:+ s').
Proof.
  destruct (substring_prefix len s') as (rest & Hrest).
  exists before, rest. rewrite <- Hrest. reflexivity.
Qed.

(** X8: every match of the address pattern occurs in the message, starts
    with [1], [3] or [bc1] and goes on with 26 to 33 letters and digits:
    no match is longer than 36 characters, so a longer address in the
    message is cut short. *)
Theorem address_matches_shape (message m : string) :
  m ∈ addressMatches message ->
  occursIn m message /\
  String.length m <= 36 /\
  exists lead rest,
    (lead = "1" \/ lead = "3" \/ lead = "bc1") /\
    m = lead +:+ rest /\
    26 <= String.length rest <= 33 /\
    allChars Str.isAlnum rest = true.
Proof.
  intros Hin. apply matchAllFrom_elem in Hin as (before & s' & len & -> & Hre & -> & _).
  split; [apply occursIn_match|].
  apply addressAt_spec in Hre as (lead & rest & Hlead & -> & Hlen & Hchars & _).
  split; [|exists lead, rest; auto].
  rewrite length_append.
  destruct Hlead as [->| [->| ->]];
    [change (String.length "1") with 1 | change (String.length "3") with 1
     | change (String.length "bc1") with 3]; lia.
Qed.

(** X8 at work: the one match in a message that holds a Bech32 address of
    42 characters. *)
Lemma address_matches_shape_bech32 :
  occursIn "bc1qar0srrr7xfkvy5l643lydnw9re59gtzz"
    "to bc1qar0srrr7xfkvy5l643lydnw9re59gtzzwf5mdq" /\
  String.length "bc1qar0srrr7xfkvy5l643lydnw9re59gtzz" <= 36 /\
  exists lead rest,
    (lead = "1" \/ lead = "3" \/ lead = "bc1") /\
    "bc1qar0srrr7xfkvy5l643lydnw9re59gtzz" = lead +:+ rest /\
    26 <= String.length rest <= 33 /\
    allChars Str.isAlnum rest = true.
Proof.
  apply (address_matches_shape "to bc1qar0srrr7xfkvy5l643lydnw9re59gtzzwf5mdq").
  vm_compute. apply list_elem_of_here.
Defined.

(** X9: every match of the extended-key pattern occurs in the message
    and is [x], [y] or [z], then [pub], then letters and digits only. *)
Theorem pub_matches_shape (message m : string) :
  m ∈ pubMatches message ->
  occursIn m message /\
  exists c rest,
    (c = "x" \/ c = "y" \/ c = "z")%char /\
    m = String c ("pub" +:+ rest) /\
    allChars Str.isAlnum rest = true.
Proof.
  intros Hin. apply matchAllFrom_elem in Hin as (before & s' & len & -> & Hre & -> & _).
  split; [apply occursIn_match|].
  apply pubAt_spec in Hre as (c & rest & Hc & -> & Hchars & _).
  exists c, rest. auto.
Qed.

(** X9 at work. *)
Lemma pub_matches_shape_ypub :
  occursIn "ypubABC" "use ypubABC, please" /\
  exists c rest,
    (c = "x" \/ c = "y" \/ c = "z")%char /\
    "ypubABC" = String c ("pub" +:+ rest) /\
    allChars Str.isAlnum rest = true.
Proof.
  apply (pub_matches_shape "use ypubABC, please").
  vm_compute. apply list_elem_of_here.
Defined.

Lemma match_truthy re (m : string) s skip :
  (forall s' len, re s' = Some len -> 1 <= len) ->
  m ∈ Regex.matchAllFrom re skip s -> Str.truthy m = true.
Proof.
  intros Hpos Hin.
  apply matchAllFrom_elem in Hin as (before & s' & len & _ & Hre & -> & Hne).
  pose proof (Hpos _ _ Hre) as Hlen.
  destruct len as [|len]; [lia|].
  destruct s' as [|c t]; [congruence | reflexivity].
Qed.

Lemma extractDestination_match operatorAddress message d :
  extractDestination operatorAddress message = Ok d ->
  d ∈ addressMatches message \/ d ∈ pubMatches message.
Proof.
  unfold extractDestination.
  destruct (addressMatches message) as [|a [|a' l]]; simpl; [| |discriminate].
  - destruct (pubMatches message) as [|p [|p' l']]; simpl; try discriminate.
    intros [= <-]. right. apply list_elem_of_here.
  - intros [= <-]. left. apply list_elem_of_here.
Qed.

Lemma extractDestination_truthy operatorAddress message d :
  extractDestination operatorAddress message = Ok d -> Str.truthy d = true.
Proof.
  intros H. apply extractDestination_match in H as [H|H].
  - eapply (match_truthy Regex.addressAt); [|exact H].
    intros s' len Hre. apply addressAt_spec in Hre as (? & ? & _ & _ & _ & _ & Hl).
    exact Hl.
  - eapply (match_truthy Regex.pubAt); [|exact H].
    intros s' len Hre. apply pubAt_spec in Hre as (? & ? & _ & _ & _ & Hl).
    exact Hl.
Qed.

(** X10: a destination that extraction returns is a non-empty piece of
    the signed message. *)
Theorem destination_occurs_in_message (operatorAddress message d : string) :
  extractDestination operatorAddress message = Ok d ->
  occursIn d message /\ d <> "".
Proof.
  intros H. split.
  - apply extractDestination_match in H as [H|H];
      apply matchAllFrom_elem in H as (before & s' & len & -> & _ & -> & _);
      apply occursIn_match.
  - apply extractDestination_truthy in H. intros ->. discriminate.
Qed.

(** X10 at work. *)
Lemma destination_occurs_in_message_boat :
  occursIn Scenario.destination Scenario.message /\ Scenario.destination <> "".
Proof.
  apply (destination_occurs_in_message "0xOp1"). vm_compute. reflexivity.
Defined.

(** * What a run keeps *)

Section Keeps.

Context {W : Type}.
Implicit Types (st : State W) (R : State W -> State W -> Prop).

Lemma extends_refl st : extends st st.
Proof. repeat split; auto. exists []. reflexivity. Qed.

Lemma extends_trans st1 st2 st3 :
  extends st1 st2 -> extends st2 st3 -> extends st1 st3.
Proof.
  intros (Hb1 & Hd1 & Hc1 & l1 & Hi1) (Hb2 & Hd2 & Hc2 & l2 & Hi2).
  repeat split; auto.
  exists (l2 ++ l1). rewrite Hi2, Hi1, app_assoc. reflexivity.
Qed.

Lemma extends_preorder : PreOrder (extends (W:=W)).
Proof. split; [intros st; apply extends_refl | intros a b c; apply extends_trans]. Qed.

Lemma sameProcess_preorder : PreOrder (sameProcess (W:=W)).
Proof.
  split.
  - intros st. repeat split.
  - intros a b c (H1 & H2 & H3 & H4) (H5 & H6 & H7 & H8). repeat split; congruence.
Qed.

Lemma sameTables_preorder : PreOrder (sameTables (W:=W)).
Proof.
  split.
  - intros st. split; [apply extends_refl | split; reflexivity].
  - intros a b c (H1 & H2 & H3) (H4 & H5 & H6).
    split; [eapply extends_trans; eassumption | split; congruence].
Qed.

Lemma sameProcess_sameTables st st' : sameProcess st st' -> sameTables st st'.
Proof.
  intros (Hb & Hc & Hd & Hi). split; [|split; assumption].
  split; [|split; [|split]].
  - intros b H _. congruence.
  - intros op d H _. congruence.
  - intros f op p. unfold cached. rewrite Hc. auto.
  - exists []. exact Hi.
Qed.

Lemma sameTables_extends st st' : sameTables st st' -> extends st st'.
Proof. intros H. apply H. Qed.

(** ** The rules of [follows] *)

Lemma follows_weaken {A} R R' (m : M W A) :
  (forall st st', R st st' -> R' st st') -> follows R m -> follows R' m.
Proof. intros Himp H st r st' Hrun. apply Himp, (H _ _ _ Hrun). Qed.

Lemma follows_ret {A} R (HR : PreOrder R) (a : A) : follows R (ret a).
Proof. intros st r st' [= _ <-]. reflexivity. Qed.

Lemma follows_throw {A} R (HR : PreOrder R) e : follows R (throw (A:=A) e).
Proof. intros st r st' [= _ <-]. reflexivity. Qed.

Lemma follows_liftR {A} R (HR : PreOrder R) (x : Result A) : follows R (liftR x).
Proof. intros st r st' [= _ <-]. reflexivity. Qed.

Lemma follows_getState R (HR : PreOrder R) : follows R (getState (W:=W)).
Proof. intros st r st' [= _ <-]. reflexivity. Qed.

Lemma follows_bind {A B} R (HR : PreOrder R) (m : M W A) (k : A -> M W B) :
  follows R m -> (forall a, follows R (k a)) -> follows R (bind m k).
Proof.
  intros Hm Hk st r st'. unfold bind.
  destruct (m st) as [[a|e] st1] eqn:Hrun.
  - intros Hrest. etransitivity; [apply (Hm _ _ _ Hrun) | apply (Hk _ _ _ _ Hrest)].
  - intros [= _ <-]. apply (Hm _ _ _ Hrun).
Qed.

Lemma follows_tryCatch {A} R (HR : PreOrder R) (m : M W A) (h : Exn -> M W A) :
  follows R m -> (forall e, follows R (h e)) -> follows R (tryCatch m h).
Proof.
  intros Hm Hh st r st'. unfold tryCatch.
  destruct (m st) as [[a|e] st1] eqn:Hrun.
  - intros [= _ <-]. apply (Hm _ _ _ Hrun).
  - intros Hrest. etransitivity; [apply (Hm _ _ _ Hrun) | apply (Hh _ _ _ _ Hrest)].
Qed.

Lemma follows_ask {A} (q : W -> Result A * W) : follows sameProcess (ask q).
Proof.
  intros st r st'. unfold ask. destruct (q (world st)) as [x w].
  intros [= _ <-]. repeat split.
Qed.

Lemma follows_promiseAll {A} R (HR : PreOrder R) (tasks : list (M W A)) :
  Forall (follows R) tasks -> follows R (promiseAll tasks).
Proof.
  induction 1 as [|t ts Ht _ IH]; [apply follows_ret; assumption|].
  intros st r st'. simpl.
  destruct (t st) as [x st1] eqn:Hrun.
  destruct (promiseAll ts st1) as [xs st2] eqn:Hrest.
  intros [= _ <-]. etransitivity; [apply (Ht _ _ _ Hrun) | apply (IH _ _ _ Hrest)].
Qed.

Lemma follows_processStep R (HR : PreOrder R) (m : M W Row) (p : Row -> M W Row) :
  follows R m -> (forall row, follows R (p row)) -> follows R (processStep m p).
Proof.
  intros Hm Hp. unfold processStep. apply follows_bind; [assumption..|].
  intros row. apply follows_tryCatch; [assumption| |].
  - destruct (negb (hasError row)); [apply Hp | apply follows_ret; assumption].
  - intros e. apply follows_ret; assumption.
Qed.

Lemma follows_processThrough R (HR : PreOrder R) (ps : list (Row -> M W Row)) row :
  Forall (fun p => forall row, follows R (p row)) ps ->
  follows R (processThrough row ps).
Proof.
  intros Hps. unfold processThrough.
  assert (Hinit : follows R (ret (W:=W) row)) by (apply follows_ret; assumption).
  revert Hinit. generalize (ret (W:=W) row).
  induction Hps as [|p ps Hp _ IH]; intros m Hm; simpl; [exact Hm|].
  apply IH. apply follows_processStep; assumption.
Qed.

End Keeps.

Section RunKeeps.

Context {W : Type} (E : Collab W).

Lemma beneficiaryOf_sameTables op : follows sameTables (beneficiaryOf E op).
Proof.
  intros st r st'. unfold beneficiaryOf.
  destruct (cached FBeneficiary op st) as [p|] eqn:Hc.
  - intros [= _ <-]. apply sameTables_preorder.
  - destruct (beneficiaryOf_call E op (world st)) as [p w].
    intros [= _ <-]. split; [|split; reflexivity].
    split; [|split; [|split]]; simpl.
    + intros b H _. exact H.
    + intros op' d H _. exact H.
    + intros f op' q Hq. destruct (decide (op' = op)) as [->|Hne].
      * rewrite cached_insert_same. destruct f; [congruence|].
        simpl. rewrite entryOrEmpty_owner. exact Hq.
      * rewrite cached_insert_other by assumption. exact Hq.
    + exists [(FBeneficiary, op)]. reflexivity.
Qed.

Lemma deepOwnerOf_sameTables op : follows sameTables (deepOwnerOf E op).
Proof.
  intros st r st' Hrun.
  destruct (cached FOwner op st) as [p|] eqn:Hc.
  - rewrite (deepOwnerOf_hit E _ _ _ Hc) in Hrun. injection Hrun as _ <-.
    apply sameTables_preorder.
  - revert Hrun. unfold deepOwnerOf, deepOwnerOf_cached, bind. rewrite Hc.
    rewrite ask_run.
    destruct (contractsFromWeb3 E (world st)) as [[[]|e] w]; simpl.
    + unfold deepOwnerOf_store. simpl.
      destruct (lookupOwner E op w) as [p w']. intros [= _ <-].
      split; [|split; reflexivity].
      split; [|split; [|split]]; simpl.
      * intros b H _. exact H.
      * intros op' d H _. exact H.
      * intros f op' q Hq. destruct (decide (op' = op)) as [->|Hne].
        -- rewrite cached_insert_same. destruct f; [|congruence].
           simpl. unfold entryOrEmpty. simpl. fold (entryOrEmpty op st).
           rewrite entryOrEmpty_beneficiary. exact Hq.
        -- rewrite (cached_insert_other f op' op _ st) by assumption. exact Hq.
      * exists [(FOwner, op)]. reflexivity.
    + intros [= _ <-]. apply sameProcess_sameTables. repeat split.
Qed.

Lemma follows_await R (HR : PreOrder R) p : follows R (await (W:=W) p).
Proof. destruct p; [apply follows_ret | apply follows_throw]; assumption. Qed.

Lemma follows_ask_tables {A} (q : W -> Result A * W) : follows sameTables (ask q).
Proof.
  eapply follows_weaken; [apply sameProcess_sameTables | apply follows_ask].
Qed.

Lemma signerRejected_sameTables op r : follows sameTables (signerRejected E op r).
Proof.
  unfold signerRejected, awaited.
  apply follows_bind; [apply sameTables_preorder| |].
  - apply follows_bind; [apply sameTables_preorder | apply beneficiaryOf_sameTables|].
    intros p. apply follows_await, sameTables_preorder.
  - intros b. destruct (negb _); [|apply follows_ret, sameTables_preorder].
    apply follows_bind; [apply sameTables_preorder| |].
    + apply follows_bind; [apply sameTables_preorder | apply deepOwnerOf_sameTables|].
      intros p. apply follows_await, sameTables_preorder.
    + intros o. apply follows_ret, sameTables_preorder.
Qed.

Lemma keySharesReady_sameProcess keep : follows sameProcess (keySharesReady E keep).
Proof.
  unfold keySharesReady.
  apply follows_tryCatch; [apply sameProcess_preorder| |].
  - apply follows_bind; [apply sameProcess_preorder | apply follows_ask|].
    intros []; [|apply follows_ret, sameProcess_preorder].
    apply follows_bind; [apply sameProcess_preorder | apply follows_ask|].
    intros files. destruct (length files =? 3); [|apply follows_ret, sameProcess_preorder].
    apply follows_bind; [apply sameProcess_preorder | apply follows_ask|].
    intros _. apply follows_ret, sameProcess_preorder.
  - intros _. apply follows_ret, sameProcess_preorder.
Qed.

(** What a call of [readBeneficiary] does to the state. *)
Lemma readBeneficiary_effect op (st st' : State W) r :
  readBeneficiary E op st = (r, st') ->
  extends st st' /\
  startingBlock st' = startingBlock st /\
  match r with
  | Ok (Some d) =>
      operatorBeneficiaries st' !! op = Some d /\ Str.truthy d = true /\
      (operatorBeneficiaries st' = operatorBeneficiaries st \/
       operatorBeneficiaries st' = <[op := d]> (operatorBeneficiaries st))
  | _ => operatorBeneficiaries st' = operatorBeneficiaries st
  end.
Proof.
  unfold readBeneficiary. unfold bind at 1. unfold getState.
  destruct (present (operatorBeneficiaries st !! op)) eqn:Hp.
  { intros [= <- <-]. split; [apply extends_refl|]. split; [reflexivity|].
    destruct (operatorBeneficiaries st !! op) as [d|] eqn:Hd; [|discriminate].
    auto. }
  unfold bind at 1.
  destruct (tryCatch (ask (stat_isFile E (beneficiaryFile (beneficiaryDirectory E) op)))
              (fun _ => ret false) st) as [[isFile|e] st1] eqn:H1.
  2:{ exfalso. revert H1. unfold tryCatch. rewrite ask_run.
      destruct (stat_isFile E _ (world st)) as [[b|e'] w]; discriminate. }
  assert (S1 : sameTables st st1).
  { refine (follows_tryCatch sameTables sameTables_preorder _ _ _ _ _ _ _ H1).
    - apply follows_ask_tables.
    - intros _. apply follows_ret, sameTables_preorder. }
  destruct isFile; simpl.
  2:{ intros [= <- <-]. split; [apply S1|]. split; apply S1. }
  unfold bind at 1.
  destruct (ask (readFile E (beneficiaryFile (beneficiaryDirectory E) op)) st1)
    as [[contents|e] st2] eqn:H2;
    pose proof (follows_ask_tables _ _ _ _ H2) as S2;
    assert (S12 : sameTables st st2)
      by (eapply sameTables_preorder; eassumption).
  2:{ intros [= <- <-]. split; [apply S12|]. split; apply S12. }
  unfold bind at 1, liftR at 1.
  destruct (JSON_parse E contents) as [a|e].
  2:{ intros [= <- <-]. split; [apply S12|]. split; apply S12. }
  destruct (negb (present (msg a)) || negb (present (sig a)) || negb (present (address a))).
  { intros [= <- <-]. split; [apply S12|]. split; apply S12. }
  unfold bind at 1, liftR at 1.
  destruct (recover E (default "" (msg a)) (default "" (sig a))) as [rec|e].
  2:{ intros [= <- <-]. split; [apply S12|]. split; apply S12. }
  destruct (negb (Str.eqb rec (default "" (address a)))).
  { intros [= <- <-]. split; [apply S12|]. split; apply S12. }
  unfold bind at 1.
  destruct (signerRejected E op rec st2) as [[rejected|e] st3] eqn:H3;
    pose proof (signerRejected_sameTables _ _ _ _ _ H3) as S3;
    assert (S13 : sameTables st st3)
      by (eapply sameTables_preorder; eassumption).
  2:{ intros [= <- <-]. split; [apply S13|]. split; apply S13. }
  destruct rejected.
  { intros [= <- <-]. split; [apply S13|]. split; apply S13. }
  unfold bind at 1, liftR at 1.
  destruct (extractDestination op (default "" (msg a))) as [d|e] eqn:Hd.
  2:{ intros [= <- <-]. split; [apply S13|]. split; apply S13. }
  intros [= <- <-]. destruct S13 as ((Hb & Ho & Hc & l & Hi) & Hsb & Hob).
  simpl. rewrite lookup_insert_eq.
  pose proof (extractDestination_truthy _ _ _ Hd) as Ht.
  split; [|split; [exact Hsb | repeat split; auto; right; rewrite Hob; reflexivity]].
  split; [|split; [|split]]; simpl; auto.
  - intros op' d' Hd' Ht'. destruct (decide (op' = op)) as [->|Hne].
    + unfold present in Hp. rewrite Hd', Ht' in Hp. discriminate.
    + rewrite lookup_insert_ne by congruence. rewrite Hob. exact Hd'.
  - exists l. exact Hi.
Qed.

(** X11: [readBeneficiary] stores a destination under the signer's
    address only when it returns that destination; a call that answers
    [null] or throws leaves the destination cache as it was, so the file is
    read again the next time. *)
Theorem readBeneficiary_caches_only_destinations (op : string) (st st' : State W)
    (r : Result (option string)) :
  readBeneficiary E op st = (r, st') ->
  match r with
  | Ok (Some d) =>
      operatorBeneficiaries st' = operatorBeneficiaries st \/
      operatorBeneficiaries st' = <[op := d]> (operatorBeneficiaries st)
  | _ => operatorBeneficiaries st' = operatorBeneficiaries st
  end.
Proof.
  intros H. apply readBeneficiary_effect in H as (_ & _ & H).
  destruct r as [[d|]|e]; [apply H | exact H | exact H].
Qed.

End RunKeeps.

(** X11 at work: the attestation of [0xOpN], which is turned down. *)
Lemma readBeneficiary_caches_only_destinations_OpN :
  operatorBeneficiaries (readBeneficiary Office.desk "0xOpN" (initialState (W:=list string) [])).2
  = operatorBeneficiaries (initialState (W:=list string) []).
Proof.
  apply (readBeneficiary_caches_only_destinations Office.desk "0xOpN" (initialState (W:=list string) [])
           (readBeneficiary Office.desk "0xOpN" (initialState (W:=list string) [])).2
           (Throw (Error "Recovered address does not match signing address for 0xOpN."))).
  reflexivity.
Defined.

(** * Reading an attestation *)

Section Reading.

Context {W : Type} (E : Collab W).

(** X12: a destination that [readBeneficiary] has returned for a signer
    is returned again by every later call in that state, with no file read
    and no query: the state does not move at all. *)
Theorem readBeneficiary_answers_from_its_cache (op d : string) (st st' : State W) :
  readBeneficiary E op st = (Ok (Some d), st') ->
  readBeneficiary E op st' = (Ok (Some d), st').
Proof.
  intros H. apply readBeneficiary_effect in H as (_ & _ & Hd & Ht & _).
  unfold readBeneficiary, bind, getState. unfold present. rewrite Hd, Ht.
  reflexivity.
Qed.

(** X13: when no destination is cached for the signer and [stat] fails
    or does not find a regular file, the answer is [null]: the file is not
    read, no delegation is looked up, and nothing is cached. *)
Theorem missing_file_reads_as_null (op : string) (st : State W) :
  present (operatorBeneficiaries st !! op) = false ->
  (stat_isFile E (beneficiaryFile (beneficiaryDirectory E) op) (world st)).1
  <> Ok true ->
  readBeneficiary E op st
  = (Ok None,
     setWorld (stat_isFile E (beneficiaryFile (beneficiaryDirectory E) op)
                 (world st)).2 st).
Proof.
  intros Hp Hstat. unfold readBeneficiary, bind, getState, tryCatch.
  rewrite Hp, ask_run.
  destruct (stat_isFile E _ (world st)) as [[[]|e] w]; simpl in *;
    [congruence | reflexivity | reflexivity].
Qed.

(** X14: an attestation file that lacks the message, the signature or
    the address makes [readBeneficiary] throw the format error, before the
    signature is looked at and before any delegation is looked up. *)
Theorem incomplete_artifact_is_rejected (op contents : string) (a : Artifact)
    (st : State W) (w1 w2 : W) :
  present (operatorBeneficiaries st !! op) = false ->
  stat_isFile E (beneficiaryFile (beneficiaryDirectory E) op) (world st)
  = (Ok true, w1) ->
  readFile E (beneficiaryFile (beneficiaryDirectory E) op) w1 = (Ok contents, w2) ->
  JSON_parse E contents = Ok a ->
  present (msg a) && present (sig a) && present (address a) = false ->
  readBeneficiary E op st
  = (Throw (Error ("Invalid format for " +:+ op +:+
                   ": message, signature, or signing address missing.")),
     setWorld w2 st).
Proof.
  intros Hp Hstat Hread Hparse Hfields.
  unfold readBeneficiary, bind, getState, tryCatch, liftR.
  rewrite Hp, ask_run, Hstat. simpl. rewrite ask_run. simpl. rewrite Hread. simpl.
  rewrite Hparse.
  replace (negb (present (msg a)) || negb (present (sig a))
           || negb (present (address a))) with true; [reflexivity|].
  destruct (present (msg a)), (present (sig a)), (present (address a));
    simpl in *; congruence.
Qed.

(** X15: an attestation whose signature recovers to another address than
    the one the file claims makes [readBeneficiary] throw the mismatch
    error, before any delegation is looked up. *)
Theorem foreign_signature_is_rejected (op contents m s claimed recovered : string)
    (st : State W) (w1 w2 : W) :
  present (operatorBeneficiaries st !! op) = false ->
  stat_isFile E (beneficiaryFile (beneficiaryDirectory E) op) (world st)
  = (Ok true, w1) ->
  readFile E (beneficiaryFile (beneficiaryDirectory E) op) w1 = (Ok contents, w2) ->
  JSON_parse E contents = Ok (mkArtifact (Some m) (Some s) (Some claimed)) ->
  Str.truthy m = true -> Str.truthy s = true -> Str.truthy claimed = true ->
  recover E m s = Ok recovered ->
  recovered <> claimed ->
  readBeneficiary E op st
  = (Throw (Error ("Recovered address does not match signing address for " +:+
                   op +:+ ".")),
     setWorld w2 st).
Proof.
  intros Hp Hstat Hread Hparse Hm Hs Hc Hrec Hne.
  unfold readBeneficiary, bind, getState, tryCatch, liftR.
  rewrite Hp, ask_run, Hstat. simpl. rewrite ask_run. simpl. rewrite Hread. simpl.
  rewrite Hparse. simpl. unfold present. rewrite Hm, Hs, Hc. simpl. rewrite Hrec.
  rewrite (eqb_other _ _ Hne). reflexivity.
Qed.

(** ** The signers without a file *)

Lemma attested_not_missing op (w : W) :
  attestedByBeneficiary E op -> fileMissing E op -> False.
Proof.
  intros (? & ? & ? & ? & ? & ? & Hfile & _) Hmiss. apply (Hmiss w), Hfile.
Qed.

Lemma readable_after op0 d (st st' : State W) ops marks :
  attestedByBeneficiary E op0 ->
  (operatorBeneficiaries st' = operatorBeneficiaries st \/
   operatorBeneficiaries st' = <[op0 := d]> (operatorBeneficiaries st)) ->
  Forall2 (readable E st) ops marks -> Forall2 (readable E st') ops marks.
Proof.
  intros Hatt Hob Hall. induction Hall as [|op mark ops marks Hr _ IH]; constructor; auto.
  destruct mark; [exact Hr|]. destruct Hr as [Hmiss Hp]. split; [exact Hmiss|].
  simpl.
  destruct Hob as [-> | ->]; [exact Hp|].
  rewrite lookup_insert_ne; [exact Hp|].
  intros ->. apply (attested_not_missing op (world st) Hatt Hmiss).
Qed.

Lemma readable_same (st st' : State W) ops marks :
  operatorBeneficiaries st' = operatorBeneficiaries st ->
  Forall2 (readable E st) ops marks -> Forall2 (readable E st') ops marks.
Proof.
  intros Hob Hall. induction Hall as [|op mark ops marks Hr _ IH]; constructor; auto.
  destruct mark; [exact Hr|]. unfold readable in *. rewrite Hob. exact Hr.
Qed.

Lemma read_all ops marks : forall (st : State W),
  Forall2 (readable E st) ops marks ->
  cacheFromChain E st ->
  exists bs st',
    promiseAll (map (readBeneficiary E) ops) st = (Ok bs, st') /\
    unavailable bs ops = unmarked ops marks.
Proof.
  revert marks. induction ops as [|op ops IH]; intros marks st Hall Hcache.
  - exists [], st. split; reflexivity.
  - inversion Hall as [|? mark ? marks' Hr Hrest]; subst. simpl.
    destruct mark.
    + destruct (readBeneficiary_attested E op st Hr Hcache) as (d & st1 & Hrun & Hcache1).
      rewrite Hrun.
      pose proof (readBeneficiary_effect E _ _ _ _ Hrun) as (_ & _ & _ & _ & Hob).
      destruct (IH marks' st1) as (bs & st2 & Hrest' & Hun);
        [eapply readable_after; eassumption | exact Hcache1|].
      rewrite Hrest'. exists (Some d :: bs), st2. split; [reflexivity | exact Hun].
    + destruct Hr as [Hmiss Hp].
      assert (Hnull : readBeneficiary E op st
                      = (Ok None,
                         setWorld (stat_isFile E
                           (beneficiaryFile (beneficiaryDirectory E) op)
                           (world st)).2 st)).
      { pose proof (Hmiss (world st)) as Hstat.
        unfold readBeneficiary, bind, getState, tryCatch. rewrite Hp, ask_run.
        destruct (stat_isFile E _ (world st)) as [[[]|e] w]; simpl in *;
          [congruence | reflexivity | reflexivity]. }
      rewrite Hnull.
      destruct (IH marks' (setWorld (stat_isFile E
                   (beneficiaryFile (beneficiaryDirectory E) op) (world st)).2 st))
        as (bs & st2 & Hrest' & Hun);
        [apply (readable_same st); [reflexivity | exact Hrest] | exact Hcache|].
      rewrite Hrest'. exists (None :: bs), st2. split; [reflexivity|].
      simpl. rewrite Hun. reflexivity.
Qed.

End Reading.

Section Members.

Context {W : Type} (E : Collab W).

(** X16: when some of a keep's signers have no attestation file and the
    others have theirs, signed by their beneficiary, the result is the one
    error that names exactly the signers without a file, in the order of
    the members. *)
Theorem missing_signers_are_named (keep : string) (ops : list string)
    (marks : list bool) (st : State W) (w0 : W) :
  getMembers E keep (world st) = (Ok ops, w0) ->
  Forall2 (readable E st) ops marks ->
  cacheFromChain E st ->
  unmarked ops marks <> [] ->
  exists st',
    beneficiariesAvailableAndSigned E keep st
    = (Ok [("error",
            JStr ("not all beneficiaries are available (missing " +:+
                  Str.join "," (unmarked ops marks) +:+ ")"))], st').
Proof.
  intros Hmem Hall Hcache Hsome.
  unfold beneficiariesAvailableAndSigned, bind, tryCatch, keepAt.
  rewrite ask_run, Hmem. simpl.
  destruct (read_all E ops marks (setWorld w0 st)) as (bs & st' & Hrun & Hun).
  - apply (readable_same E st); [reflexivity | exact Hall].
  - apply (cacheFromChain_same E st); [reflexivity | exact Hcache].
  - rewrite Hrun, Hun. exists st'.
    destruct (unmarked ops marks) as [|o l]; [congruence | reflexivity].
Qed.

(** X17: a closed keep is reported as closed without the terminated flag
    being asked for. *)
Theorem closed_is_settled_first (keep : string) (b : N) (st st1 : State W) (w : W) :
  referenceBlock E st = (Ok b, st1) ->
  isClosed E keep b (world st1) = (Ok true, w) ->
  keepStatusCompleted E keep st = (Ok (Some "closed"), setWorld w st1).
Proof.
  intros Hblock Hclosed. unfold keepStatusCompleted, bind, keepAt.
  rewrite Hblock, ask_run, Hclosed. reflexivity.
Qed.

End Members.

(** X16 at work: of the members of keep [KF], [0xOpB] has no file. *)
Lemma missing_signers_are_named_KF :
  exists st',
    beneficiariesAvailableAndSigned Office.desk "KF" (initialState [])
    = (Ok [("error",
            JStr "not all beneficiaries are available (missing 0xOpB)")], st').
Proof.
  apply (missing_signers_are_named Office.desk "KF" ["0xOpA"; "0xOpB"; "0xOpC"]
           [true; false; true] (initialState []) ["getMembers KF"]).
  - reflexivity.
  - repeat constructor.
    + exists "beneficiaries/0xopa.json", Scenario.message, "0xBEEF01", "0xBEEF01",
        "0xbeef01", Scenario.destination. repeat split; reflexivity.
    + intros w. simpl. discriminate.
    + exists "beneficiaries/0xopc.json", Scenario.message, "0xBEEF01", "0xBEEF01",
        "0xbeef01", Scenario.destination. repeat split; reflexivity.
  - intros op p H. discriminate.
  - discriminate.
Defined.

(** X17 at work: keep [KE] is closed, and its terminated flag, which is
    set too, is not asked for. *)
Lemma closed_is_settled_first_KE :
  keepStatusCompleted Office.desk "KE" (initialState [])
  = (Ok (Some "closed"),
     setWorld ["isClosed KE"; "getBlockNumber"]
       (mkState ["getBlockNumber"] (Some 9000%N) ∅ ∅ [])).
Proof.
  apply (closed_is_settled_first Office.desk "KE" 9000%N (initialState [])); reflexivity.
Defined.

(** X3 at work: keep [KA] has no directory; only [stat] was asked. *)
Lemma missing_key_shares_end_the_task_KA :
  keepTask Office.desk "KA" (initialState [])
  = (Ok [("keep", JStr "KA"); ("error", JStr "missing key shares")],
     setWorld ["stat key-shares/KA"] (initialState [])).
Proof.
  apply (missing_key_shares_end_the_task Office.desk "KA" (initialState [])).
  reflexivity.
Defined.

(** X4 at work: keep [KC] is neither closed nor terminated; its public
    key and balance are not asked for. *)
Lemma unresolved_status_ends_the_task_KC :
  keepTask Office.desk "KC" (initialState [])
  = (Ok [("keep", JStr "KC"); ("error", JStr "no status")],
     mkState ["isTerminated KC"; "isClosed KC"; "getBlockNumber"; "sign KC";
              "readdir key-shares/KC"; "stat key-shares/KC"]
       (Some 9000%N) ∅ ∅ []).
Proof.
  apply (unresolved_status_ends_the_task Office.desk "KC" (initialState [])
           (setWorld ["sign KC"; "readdir key-shares/KC"; "stat key-shares/KC"]
              (initialState []))); reflexivity.
Defined.

(** X5 at work: keep [KD] is closed and its address is empty. *)
Lemma empty_balance_ends_the_task_KD :
  keepTask Office.desk "KD" (initialState [])
  = (Ok [("keep", JStr "KD"); ("status", JStr "closed"); ("error", JStr "no BTC")],
     mkState ["getBalance bc1q04KD"; "getPublicKey KD"; "isClosed KD";
              "getBlockNumber"; "sign KD"; "readdir key-shares/KD";
              "stat key-shares/KD"]
       (Some 9000%N) ∅ ∅ []).
Proof.
  apply (empty_balance_ends_the_task Office.desk "KD" "closed" "bc1q04KD" 0
           (initialState [])
           (setWorld ["sign KD"; "readdir key-shares/KD"; "stat key-shares/KD"]
              (initialState []))
           (mkState ["isClosed KD"; "getBlockNumber"; "sign KD";
                     "readdir key-shares/KD"; "stat key-shares/KD"]
              (Some 9000%N) ∅ ∅ []));
    [reflexivity | reflexivity | reflexivity | lia].
Defined.

(** X6 at work: keep [KE] is closed and holds a balance. *)
Lemma closed_keep_row_KE :
  keepTask Office.desk "KE" (initialState [])
  = (Ok [("keep", JStr "KE"); ("status", JStr "closed");
         ("bitcoinAddress", JStr "bc1q04KE"); ("btcBalance", JNum 5000000)],
     mkState ["getBalance bc1q04KE"; "getPublicKey KE"; "isClosed KE";
              "getBlockNumber"; "sign KE"; "readdir key-shares/KE";
              "stat key-shares/KE"]
       (Some 9000%N) ∅ ∅ []).
Proof.
  apply (closed_keep_row Office.desk "KE" "bc1q04KE" 5000000
           (initialState [])
           (setWorld ["sign KE"; "readdir key-shares/KE"; "stat key-shares/KE"]
              (initialState []))
           (mkState ["isClosed KE"; "getBlockNumber"; "sign KE";
                     "readdir key-shares/KE"; "stat key-shares/KE"]
              (Some 9000%N) ∅ ∅ []));
    [reflexivity | reflexivity | reflexivity | lia].
Defined.

(** X12 at work: the second reading of the attestation of [0xOpA]. *)
Lemma readBeneficiary_answers_from_its_cache_OpA :
  readBeneficiary Office.desk "0xOpA"
    (readBeneficiary Office.desk "0xOpA" (initialState [])).2
  = (Ok (Some Scenario.destination),
     (readBeneficiary Office.desk "0xOpA" (initialState [])).2).
Proof.
  apply (readBeneficiary_answers_from_its_cache Office.desk "0xOpA"
           Scenario.destination (initialState [])).
  vm_compute. reflexivity.
Defined.

(** X13 at work: [0xOpB] has no file. *)
Lemma missing_file_reads_as_null_OpB :
  readBeneficiary Office.desk "0xOpB" (initialState [])
  = (Ok None, setWorld ["stat beneficiaries/0xopb.json"] (initialState [])).
Proof.
  apply (missing_file_reads_as_null Office.desk "0xOpB" (initialState []));
    [reflexivity | discriminate].
Defined.

(** X14 at work: the file of [0xOpM] has no signature. *)
Lemma incomplete_artifact_is_rejected_OpM :
  readBeneficiary Office.desk "0xOpM" (initialState [])
  = (Throw (Error "Invalid format for 0xOpM: message, signature, or signing address missing."),
     setWorld ["readFile beneficiaries/0xopm.json"; "stat beneficiaries/0xopm.json"]
       (initialState [])).
Proof.
  apply (incomplete_artifact_is_rejected Office.desk "0xOpM"
           "beneficiaries/0xopm.json"
           (mkArtifact (Some Scenario.message) None (Some "0xBEEF01"))
           (initialState []) ["stat beneficiaries/0xopm.json"]); reflexivity.
Defined.

(** X15 at work: the file of [0xOpN] claims [0xBEEF01] and is signed by
    [0x5A7A17]. *)
Lemma foreign_signature_is_rejected_OpN :
  readBeneficiary Office.desk "0xOpN" (initialState [])
  = (Throw (Error "Recovered address does not match signing address for 0xOpN."),
     setWorld ["readFile beneficiaries/0xopn.json"; "stat beneficiaries/0xopn.json"]
       (initialState [])).
Proof.
  apply (foreign_signature_is_rejected Office.desk "0xOpN"
           "beneficiaries/0xopn.json" Scenario.message "0x5A7A17" "0xBEEF01" "0x5A7A17"
           (initialState []) ["stat beneficiaries/0xopn.json"]);
    try reflexivity. discriminate.
Defined.

(** * The chain of stages, composed *)

(** X20: running the stages of two lists one list after the other, on
    the row and in the state the first list ended with, is running the
    stages of the two lists joined; a chain never throws, whatever its
    stages do. *)
Theorem processThrough_composes {W : Type} (pre post : list (Row -> M W Row))
    (row : Row) (st : State W) :
  exists r st1,
    processThrough row pre st = (Ok r, st1) /\
    processThrough row (pre ++ post) st = processThrough r post st1.
Proof.
  destruct (processThrough_total pre row st) as (r & st1 & Hpre).
  exists r, st1. split; [exact Hpre|].
  rewrite processThrough_app, Hpre. reflexivity.
Qed.

(** * The report *)

Section Report.

Context {W : Type} (E : Collab W).

(** X21: an input without any keep value gives the empty report, and
    nothing is asked of anyone. *)
Theorem no_keeps_give_an_empty_report (input : list (list (string * string)))
    (st : State W) :
  keepCells input = [] ->
  main E input st = (Ok "", st).
Proof.
  intros Hnone. unfold main, bind, processKeeps.
  rewrite distinctKeeps_firstSeen, Hnone. reflexivity.
Qed.

Lemma set_keepFirst k v row : keepFirst row -> keepFirst (Obj.set k v row).
Proof.
  intros (v0 & rest & ->). simpl. destruct (Str.eqb k "keep") eqn:Hk.
  - apply bool_decide_eq_true_1 in Hk as ->. eexists _, _. reflexivity.
  - eexists _, _. reflexivity.
Qed.

Lemma spread_keepFirst upd : forall row,
  keepFirst row -> keepFirst (Obj.spread row upd).
Proof.
  induction upd as [|[k v] upd IH]; intros row H; [exact H|].
  rewrite spread_cons. apply IH, set_keepFirst, H.
Qed.

Lemma processThrough_keepFirst (processors : list (Row -> M W Row)) :
  forall row st r st',
    Forall stageSound processors ->
    keepFirst row ->
    processThrough row processors st = (Ok r, st') ->
    keepFirst r.
Proof.
  induction processors as [|p ps IH]; intros row st r st' Hs Hrow H.
  - injection H as <- <-. exact Hrow.
  - apply Forall_cons in Hs as [Hp Hps].
    rewrite processThrough_cons, processStep_ret in H.
    destruct (hasError row); [eapply IH; eassumption|].
    destruct (p row st) as [[r1|e] st1] eqn:Hrun.
    + destruct (Hp _ _ _ _ Hrun) as (upd & -> & _).
      eapply IH; [exact Hps | | exact H]. apply spread_keepFirst, Hrow.
    + eapply IH; [exact Hps | | exact H]. apply spread_keepFirst, Hrow.
Qed.

Lemma keepTask_keepFirst keep (st st' : State W) r :
  keepTask E keep st = (Ok r, st') -> keepFirst r.
Proof.
  rewrite keepTask_chain.
  destruct (processThrough _ (genericStatusProcessors E) st)
    as [[basic|e] st1] eqn:Hg; [|discriminate].
  intros Hb.
  eapply processThrough_keepFirst; [apply branchOf_sound | | exact Hb].
  eapply processThrough_keepFirst;
    [apply genericStatusProcessors_sound | | exact Hg].
  eexists _, _. reflexivity.
Qed.

Lemma promiseAll_keepFirst keeps : forall (st st' : State W) rows,
  promiseAll (map (keepTask E) keeps) st = (Ok rows, st') ->
  Forall keepFirst rows.
Proof.
  induction keeps as [|k ks IH]; intros st st' rows; simpl.
  - intros [= <- _]. constructor.
  - destruct (keepTask E k st) as [[r|e] st1] eqn:Hk.
    + destruct (promiseAll (map (keepTask E) ks) st1) as [[l|e] st2] eqn:Hrest;
        [|discriminate].
      intros [= <- _]. constructor; [eapply keepTask_keepFirst, Hk | eapply IH, Hrest].
    + destruct (promiseAll (map (keepTask E) ks) st1) as [[l|e'] st2]; discriminate.
Qed.

(** X22: the header of the report never names a column twice, and when
    there is a row at all its first column is [keep]. *)
Theorem report_header_starts_with_keep (input : list (list (string * string)))
    (st : State W) :
  exists rows st',
    processKeeps E input st = (Ok rows, st') /\
    NoDup (allKeys rows) /\
    (rows <> [] -> exists others, allKeys rows = "keep" :: others).
Proof.
  destruct (promiseAll_keepTasks E (distinctKeeps input) st)
    as (rows & st' & Hrun & _).
  exists rows, st'. split; [exact Hrun|].
  rewrite allKeys_firstSeen. split; [apply NoDup_firstSeen|].
  intros Hsome. apply promiseAll_keepFirst in Hrun.
  destruct rows as [|row rows]; [congruence|].
  apply Forall_cons in Hrun as [(v & rest & ->) _].
  simpl. eexists. reflexivity.
Qed.

End Report.

(** X21 at work: a table whose rows have no keep. *)
Lemma no_keeps_give_an_empty_report_blank :
  main Office.desk [[("keep", "")]; [("name", "KA")]] (initialState [])
  = (Ok "", initialState []).
Proof.
  apply (no_keeps_give_an_empty_report Office.desk). reflexivity.
Defined.

(** * The delegation cache under interleaving *)

Section Interleaving.

Context {W : Type} (E : Collab W).

Lemma stepCall_keeps_beneficiary op p c (s : State W * list string) :
  cached FBeneficiary op s.1 = Some p ->
  cached FBeneficiary op (stepCall E s c).1 = Some p.
Proof.
  intros H. destruct c as [op'|op'|op'|op']; simpl.
  - destruct (beneficiaryOf E op' s.1) as [r st'] eqn:Hrun.
    apply (beneficiaryOf_sameTables E) in Hrun as ((_ & _ & Hc & _) & _). auto.
  - destruct (deepOwnerOf E op' s.1) as [r st'] eqn:Hrun.
    apply (deepOwnerOf_sameTables E) in Hrun as ((_ & _ & Hc & _) & _). auto.
  - destruct (cached FOwner op' s.1); simpl; [exact H|].
    rewrite ask_run. destruct (contractsFromWeb3 E (world s.1)) as [[[]|e] w]; exact H.
  - case_bool_decide; [|exact H]. simpl. unfold deepOwnerOf_store.
    destruct (lookupOwner E op' (world s.1)) as [q w]. simpl.
    destruct (decide (op = op')) as [->|Hne].
    + rewrite cached_insert_same. simpl. rewrite entryOrEmpty_beneficiary. exact H.
    + rewrite cached_insert_other by assumption. exact H.
Qed.

(** X23: a beneficiary promise in the delegation cache stays the same
    promise over every run of calls, whole or interleaved: no call of
    [beneficiaryOf] or [deepOwnerOf] replaces or removes it. *)
Theorem cached_beneficiary_is_never_replaced (op : string) (p : Promise)
    (calls : list CacheCall) (s : State W * list string) :
  cached FBeneficiary op s.1 = Some p ->
  cached FBeneficiary op (runCalls E calls s).1 = Some p.
Proof.
  revert s. induction calls as [|c calls IH]; intros s H; [exact H|].
  simpl. apply IH, stepCall_keeps_beneficiary, H.
Qed.

(** ** The generic stages leave the caches alone *)

Lemma sameCaches_preorder : PreOrder (sameCaches (W:=W)).
Proof.
  split.
  - intros st. repeat split.
  - intros a b c (H1 & H2 & H3) (H4 & H5 & H6). repeat split; congruence.
Qed.

Lemma follows_ask_caches {A} (q : W -> Result A * W) : follows sameCaches (ask q).
Proof.
  eapply follows_weaken; [|apply follows_ask].
  intros st st' (_ & H1 & H2 & H3). repeat split; assumption.
Qed.

Lemma referenceBlock_sameCaches : follows sameCaches (referenceBlock E).
Proof.
  unfold referenceBlock.
  assert (Hquery : follows sameCaches
            (b' <- ask (getBlockNumber E);; exec setStartingBlock b';; ret b')).
  { apply follows_bind; [apply sameCaches_preorder | apply follows_ask_caches|].
    intros b. apply follows_bind; [apply sameCaches_preorder| |].
    - intros st r st' [= _ <-]. repeat split.
    - intros _. apply follows_ret, sameCaches_preorder. }
  intros st r st'. unfold bind at 1. unfold getState.
  destruct (startingBlock st) as [b|]; [destruct (b =? 0)%N|].
  - apply Hquery.
  - intros [= _ <-]. apply sameCaches_preorder.
  - apply Hquery.
Qed.

Lemma keepStatusCompleted_sameCaches keep :
  follows sameCaches (keepStatusCompleted E keep).
Proof.
  unfold keepStatusCompleted.
  apply follows_bind; [apply sameCaches_preorder | apply referenceBlock_sameCaches|].
  intros b. apply follows_bind; [apply sameCaches_preorder | apply follows_ask_caches|].
  intros []; [apply follows_ret, sameCaches_preorder|].
  apply follows_bind; [apply sameCaches_preorder | apply follows_ask_caches|].
  intros []; apply follows_ret, sameCaches_preorder.
Qed.

Lemma keepHoldsBtc_sameCaches keep : follows sameCaches (keepHoldsBtc E keep).
Proof.
  unfold keepHoldsBtc.
  apply follows_bind; [apply sameCaches_preorder | apply follows_ask_caches|].
  intros pk. apply follows_bind;
    [apply sameCaches_preorder | apply follows_liftR, sameCaches_preorder|].
  intros addr. apply follows_bind; [apply sameCaches_preorder | apply follows_ask_caches|].
  intros bal. apply follows_ret, sameCaches_preorder.
Qed.

Lemma keySharesReady_sameCaches keep : follows sameCaches (keySharesReady E keep).
Proof.
  eapply follows_weaken; [|apply keySharesReady_sameProcess].
  intros st st' (_ & H1 & H2 & H3). repeat split; assumption.
Qed.

(** X24: resolving key shares, status and balance never touches the
    destination cache or the delegation cache and issues no delegation
    query, however the stages end. *)
Theorem generic_stages_leave_the_caches (row : Row) (st : State W) :
  sameCaches st (processThrough row (genericStatusProcessors E) st).2.
Proof.
  destruct (processThrough row (genericStatusProcessors E) st) as [r st'] eqn:Hrun.
  simpl. revert Hrun.
  apply (follows_processThrough sameCaches sameCaches_preorder).
  unfold genericStatusProcessors.
  repeat apply Forall_cons_2; [intros row0..|apply Forall_nil_2].
  - apply follows_bind; [apply sameCaches_preorder | apply keySharesReady_sameCaches|].
    intros []; apply follows_ret, sameCaches_preorder.
  - apply follows_bind; [apply sameCaches_preorder | apply keepStatusCompleted_sameCaches|].
    intros [s|]; apply follows_ret, sameCaches_preorder.
  - apply follows_bind; [apply sameCaches_preorder | apply keepHoldsBtc_sameCaches|].
    intros [addr bal]. simpl. destruct (bal >? 0)%Z; apply follows_ret, sameCaches_preorder.
Qed.

(** X25: a terminated keep with its key shares and a positive balance,
    some of whose signers have no attestation file while the others have
    theirs signed by their beneficiary, ends with the keep, its status,
    address and balance, and the error that names the signers without a
    file. *)
Theorem terminated_keep_with_missing_files (keep addr : string) (bal : Z)
    (ops : list string) (marks : list bool) (st : State W) :
  keySharesPresent E keep ->
  resolvesTerminated E keep ->
  holdsBalance E keep addr bal ->
  (0 < bal)%Z ->
  (forall w, (getMembers E keep w).1 = Ok ops) ->
  Forall2 (readable E st) ops marks ->
  unmarked ops marks <> [] ->
  cacheFromChain E st ->
  exists st',
    keepTask E keep st
    = (Ok [("keep", JStr keep); ("status", JStr "terminated");
           ("bitcoinAddress", JStr addr); ("btcBalance", JNum bal);
           ("error",
            JStr ("not all beneficiaries are available (missing " +:+
                  Str.join "," (unmarked ops marks) +:+ ")"))], st').
Proof.
  intros Hshares Hstatus Hbtc Hpos Hmem Hall Hsome Hcache.
  destruct (keySharesReady_present E keep st Hshares) as (st1 & Hk & _).
  destruct (keepStatusCompleted_terminated E keep st1 Hstatus) as (st2 & Hs & _).
  destruct (keepHoldsBtc_balance E keep addr bal st2 Hbtc) as (st3 & Hb & _).
  pose proof (keySharesReady_sameCaches _ _ _ _ Hk) as (Hd1 & Ho1 & _).
  pose proof (keepStatusCompleted_sameCaches _ _ _ _ Hs) as (Hd2 & Ho2 & _).
  pose proof (keepHoldsBtc_sameCaches _ _ _ _ Hb) as (Hd3 & Ho3 & _).
  assert (Hall3 : Forall2 (readable E st3) ops marks).
  { apply (readable_same E st); [congruence | exact Hall]. }
  assert (Hcache3 : cacheFromChain E st3).
  { apply (cacheFromChain_same E st); [congruence | exact Hcache]. }
  pose proof (Hmem (world st3)) as Hm.
  destruct (getMembers E keep (world st3)) as [rm w0] eqn:Hmw. simpl in Hm. subst rm.
  assert (Hl : exists st4,
             beneficiariesAvailableAndSigned E keep st3
             = (Ok [("error",
                     JStr ("not all beneficiaries are available (missing " +:+
                           Str.join "," (unmarked ops marks) +:+ ")"))], st4)).
  { unfold beneficiariesAvailableAndSigned, bind, tryCatch, keepAt.
    rewrite ask_run, Hmw. simpl.
    destruct (read_all E ops marks (setWorld w0 st3)) as (bs & st4 & Hrun & Hun).
    - apply (readable_same E st3); [reflexivity | exact Hall3].
    - apply (cacheFromChain_same E st3); [reflexivity | exact Hcache3].
    - rewrite Hrun, Hun. exists st4.
      destruct (unmarked ops marks) as [|o l]; [congruence | reflexivity]. }
  destruct Hl as (st4 & Hl). exists st4.
  rewrite keepTask_chain. unfold genericStatusProcessors.
  rewrite (processThrough_step _ _ _ st [("keep", JStr keep)] st1);
    [|reflexivity | unfold bind; change (keepOf _) with keep; rewrite Hk; reflexivity].
  rewrite (processThrough_step _ _ _ st1
             [("keep", JStr keep); ("status", JStr "terminated")] st2);
    [|reflexivity | unfold bind; change (keepOf _) with keep; rewrite Hs; reflexivity].
  rewrite (processThrough_step _ _ _ st2
             [("keep", JStr keep); ("status", JStr "terminated");
              ("bitcoinAddress", JStr addr); ("btcBalance", JNum bal)] st3);
    [|reflexivity|].
  2:{ unfold bind; change (keepOf _) with keep; rewrite Hb. simpl.
      replace (bal >? 0)%Z with true by (symmetry; apply Z.gtb_lt; exact Hpos).
      reflexivity. }
  rewrite processThrough_nil. unfold branchOf.
  change (statusIs "terminated" _) with true. cbv iota.
  unfold liquidationProcessors.
  rewrite (processThrough_step _ _ _ st3
             [("keep", JStr keep); ("status", JStr "terminated");
              ("bitcoinAddress", JStr addr); ("btcBalance", JNum bal);
              ("error",
               JStr ("not all beneficiaries are available (missing " +:+
                     Str.join "," (unmarked ops marks) +:+ ")"))] st4);
    [|reflexivity | unfold bind; change (keepOf _) with keep; rewrite Hl; reflexivity].
  apply processThrough_frozen. reflexivity.
Qed.

End Interleaving.

(** X25 at work: keep [KF] is terminated and [0xOpB] has no file. *)
Lemma terminated_keep_with_missing_files_KF :
  exists st',
    keepTask Office.desk "KF" (initialState [])
    = (Ok [("keep", JStr "KF"); ("status", JStr "terminated");
           ("bitcoinAddress", JStr "bc1q04KF"); ("btcBalance", JNum 5000000);
           ("error", JStr "not all beneficiaries are available (missing 0xOpB)")],
       st').
Proof.
  apply (terminated_keep_with_missing_files Office.desk "KF" "bc1q04KF" 5000000
           ["0xOpA"; "0xOpB"; "0xOpC"] [true; false; true] (initialState [])).
  - repeat split; intros; eexists; try split; reflexivity.
  - repeat split; intros; try eexists; reflexivity.
  - exists "0x04KF". repeat split; reflexivity.
  - reflexivity.
  - reflexivity.
  - repeat constructor.
    + exists "beneficiaries/0xopa.json", Scenario.message, "0xBEEF01", "0xBEEF01",
        "0xbeef01", Scenario.destination. repeat split; reflexivity.
    + intros w. simpl. discriminate.
    + exists "beneficiaries/0xopc.json", Scenario.message, "0xBEEF01", "0xBEEF01",
        "0xbeef01", Scenario.destination. repeat split; reflexivity.
  - discriminate.
  - intros op p H. discriminate.
Defined.

(** X23 at work: the promise cached for [0xOp1] after one call, over a
    run of interleaved calls. *)
Lemma cached_beneficiary_is_never_replaced_Op1 :
  cached FBeneficiary "0xOp1"
    (runCalls Scenario.threeSigners
       [EnterDeepOwnerOf "0xOp1"; CallBeneficiaryOf "0xOp1";
        ResumeDeepOwnerOf "0xOp1"; CallDeepOwnerOf "0xOp1"]
       ((beneficiaryOf Scenario.threeSigners "0xOp1" (initialState 0)).2, [])).1
  = Some (Fulfilled "0xbeef01").
Proof.
  apply (cached_beneficiary_is_never_replaced Scenario.threeSigners "0xOp1").
  vm_compute. reflexivity.
Defined.

Section MemberCount.

Context {W : Type} (E : Collab W).

Lemma read_all_attested ops : forall (st : State W),
  Forall (attestedByBeneficiary E) ops ->
  cacheFromChain E st ->
  exists ds st',
    promiseAll (map (readBeneficiary E) ops) st = (Ok (map Some ds), st') /\
    length ds = length ops.
Proof.
  induction ops as [|op ops IH]; intros st Hall Hcache.
  - exists [], st. split; reflexivity.
  - apply Forall_cons in Hall as [Hop Hops]. simpl.
    destruct (readBeneficiary_attested E op st Hop Hcache) as (d & st1 & -> & Hcache1).
    destruct (IH st1 Hops Hcache1) as (ds & st2 & -> & Hlen).
    exists (d :: ds), st2. split; [reflexivity | simpl; congruence].
Qed.

Lemma unavailable_all_there (ds ops : list string) :
  unavailable (map Some ds) ops = [].
Proof.
  revert ops. induction ds as [|d ds IH]; intros [|o ops]; simpl; auto.
Qed.

Lemma beneficiaryAt_there (ds : list string) : forall i,
  beneficiaryAt (map Some ds) i = from_option JStr JUndefined (ds !! i).
Proof.
  induction ds as [|d ds IH]; intros [|i]; try reflexivity. apply IH.
Qed.

(** X26: the number of members is not checked: when every member a keep
    reports has its attestation, the result holds the destinations of the
    first three members; a keep that reports fewer than three gets
    [undefined] beneficiaries and no error, and members past the third are
    left out. *)
Theorem members_are_not_counted (keep : string) (ops : list string)
    (st : State W) (w0 : W) :
  getMembers E keep (world st) = (Ok ops, w0) ->
  Forall (attestedByBeneficiary E) ops ->
  cacheFromChain E st ->
  exists ds st',
    length ds = length ops /\
    beneficiariesAvailableAndSigned E keep st
    = (Ok [("beneficiary1", from_option JStr JUndefined (ds !! 0));
           ("beneficiary2", from_option JStr JUndefined (ds !! 1));
           ("beneficiary3", from_option JStr JUndefined (ds !! 2))], st').
Proof.
  intros Hmem Hall Hcache.
  unfold beneficiariesAvailableAndSigned, bind, tryCatch, keepAt.
  rewrite ask_run, Hmem. simpl.
  destruct (read_all_attested ops (setWorld w0 st) Hall) as (ds & st' & Hrun & Hlen).
  - apply (cacheFromChain_same E st); [reflexivity | exact Hcache].
  - exists ds, st'. split; [exact Hlen|].
    rewrite Hrun, unavailable_all_there. simpl.
    rewrite !beneficiaryAt_there. reflexivity.
Qed.

End MemberCount.

(** X26 at work: a keep that reports two members. *)
Lemma members_are_not_counted_pair :
  exists ds st',
    length ds = 2 /\
    beneficiariesAvailableAndSigned (Scenario.chain ["0xOp1"; "0xOp4"]) "K1"
      (initialState 0)
    = (Ok [("beneficiary1", from_option JStr JUndefined (ds !! 0));
           ("beneficiary2", from_option JStr JUndefined (ds !! 1));
           ("beneficiary3", from_option JStr JUndefined (ds !! 2))], st').
Proof.
  apply (members_are_not_counted (Scenario.chain ["0xOp1"; "0xOp4"]) "K1"
           ["0xOp1"; "0xOp4"] (initialState 0) 0).
  - reflexivity.
  - repeat constructor.
    + exists "beneficiaries/0xop1.json", Scenario.message, "0xBEEF01", "0xBEEF01",
        "0xbeef01", Scenario.destination. repeat split; reflexivity.
    + exists "beneficiaries/0xop4.json", Scenario.message, "0xBEEF01", "0xBEEF01",
        "0xbeef01", Scenario.destination. repeat split; reflexivity.
  - intros op p H. discriminate.
Defined.

(** * The world over a run *)

Lemma Forall_map_all {A B : Type} (P : B -> Prop) (f : A -> B) (l : list A) :
  (forall a, P (f a)) -> Forall P (map f l).
Proof. intros H. induction l; simpl; constructor; auto. Qed.

Section Worlds.

Context {W : Type} (Q : W -> W -> Prop) (HQ : PreOrder Q).

Lemma onWorld_preorder : PreOrder (onWorld Q).
Proof.
  split.
  - intros st. unfold onWorld. reflexivity.
  - intros a b c H1 H2. unfold onWorld in *. etransitivity; eassumption.
Qed.

Lemma follows_ask_world {A} (q : W -> Result A * W) :
  (forall w, Q w (q w).2) -> follows (onWorld Q) (ask q).
Proof.
  intros Hq st r st'. rewrite ask_run. intros [= _ <-]. apply Hq.
Qed.

Lemma follows_sameWorld {A} (m : M W A) :
  (forall st, world (m st).2 = world st) -> follows (onWorld Q) m.
Proof.
  intros Hm st r st' Hrun. unfold onWorld.
  specialize (Hm st). rewrite Hrun in Hm. simpl in Hm. rewrite Hm. reflexivity.
Qed.

Context (E : Collab W) (HE : respects Q E).

Local Ltac pre := apply onWorld_preorder.
Local Ltac asks := apply follows_ask_world; intros; apply HE.

Lemma referenceBlock_world : follows (onWorld Q) (referenceBlock E).
Proof.
  unfold referenceBlock.
  assert (Hquery : follows (onWorld Q)
            (b' <- ask (getBlockNumber E);; exec setStartingBlock b';; ret b')).
  { apply follows_bind; [pre | asks |].
    intros b. apply follows_bind; [pre | |].
    - apply follows_sameWorld. reflexivity.
    - intros _. apply follows_ret. pre. }
  intros st r st'. unfold bind at 1. unfold getState.
  destruct (startingBlock st) as [b|]; [destruct (b =? 0)%N|].
  - apply Hquery.
  - intros [= _ <-]. pre.
  - apply Hquery.
Qed.

Lemma keepStatusCompleted_world keep :
  follows (onWorld Q) (keepStatusCompleted E keep).
Proof.
  unfold keepStatusCompleted.
  apply follows_bind; [pre | apply referenceBlock_world |].
  intros b. apply follows_bind; [pre | asks |].
  intros []; [apply follows_ret; pre|].
  apply follows_bind; [pre | asks |].
  intros []; apply follows_ret; pre.
Qed.

Lemma keepHoldsBtc_world keep : follows (onWorld Q) (keepHoldsBtc E keep).
Proof.
  unfold keepHoldsBtc.
  apply follows_bind; [pre | asks |].
  intros pk. apply follows_bind; [pre | apply follows_liftR; pre |].
  intros addr. apply follows_bind; [pre | asks |].
  intros bal. apply follows_ret; pre.
Qed.

Lemma beneficiaryOf_world op : follows (onWorld Q) (beneficiaryOf E op).
Proof.
  intros st r st'. unfold beneficiaryOf.
  destruct (cached FBeneficiary op st) as [p|].
  - intros [= _ <-]. pre.
  - destruct (beneficiaryOf_call E op (world st)) as [p w] eqn:Hcall.
    intros [= _ <-]. unfold onWorld. simpl.
    replace w with (beneficiaryOf_call E op (world st)).2 by (rewrite Hcall; reflexivity).
    apply HE.
Qed.

Lemma deepOwnerOf_world op : follows (onWorld Q) (deepOwnerOf E op).
Proof.
  unfold deepOwnerOf.
  apply follows_bind; [pre | |].
  - apply follows_sameWorld. reflexivity.
  - intros [p|]; [apply follows_ret; pre|].
    apply follows_bind; [pre | asks |].
    intros _ st r st'. unfold deepOwnerOf_store.
    destruct (lookupOwner E op (world st)) as [p w] eqn:Hcall.
    intros [= _ <-]. unfold onWorld. simpl.
    replace w with (lookupOwner E op (world st)).2 by (rewrite Hcall; reflexivity).
    apply HE.
Qed.

Lemma signerRejected_world op r : follows (onWorld Q) (signerRejected E op r).
Proof.
  unfold signerRejected, awaited.
  apply follows_bind; [pre | |].
  - apply follows_bind; [pre | apply beneficiaryOf_world |].
    intros p. apply follows_await. pre.
  - intros b. destruct (negb _); [|apply follows_ret; pre].
    apply follows_bind; [pre | |].
    + apply follows_bind; [pre | apply deepOwnerOf_world |].
      intros p. apply follows_await. pre.
    + intros o. apply follows_ret. pre.
Qed.

Lemma readBeneficiary_world op : follows (onWorld Q) (readBeneficiary E op).
Proof.
  unfold readBeneficiary.
  apply follows_bind; [pre | apply follows_getState; pre |].
  intros st0. destruct (present _); [apply follows_ret; pre|].
  apply follows_bind; [pre | |].
  { apply follows_tryCatch; [pre | asks |]. intros _. apply follows_ret. pre. }
  intros isFile. destruct (negb isFile); [apply follows_ret; pre|].
  apply follows_bind; [pre | asks |].
  intros contents. apply follows_bind; [pre | apply follows_liftR; pre |].
  intros a. destruct (_ || _); [apply follows_throw; pre|].
  apply follows_bind; [pre | apply follows_liftR; pre |].
  intros rec. destruct (negb _); [apply follows_throw; pre|].
  apply follows_bind; [pre | apply signerRejected_world |].
  intros []; [apply follows_throw; pre|].
  apply follows_bind; [pre | apply follows_liftR; pre |].
  intros d. apply follows_bind; [pre | |].
  - apply follows_sameWorld. reflexivity.
  - intros _. apply follows_ret. pre.
Qed.

Lemma beneficiaries_world keep :
  follows (onWorld Q) (beneficiariesAvailableAndSigned E keep).
Proof.
  unfold beneficiariesAvailableAndSigned.
  apply follows_bind; [pre | asks |].
  intros ops. apply follows_tryCatch; [pre | |].
  - apply follows_bind; [pre | |].
    + apply follows_promiseAll; [pre|].
      apply Forall_map_all. intros op. apply readBeneficiary_world.
    + intros bs. destruct (0 <? _); apply follows_ret; pre.
  - intros e. apply follows_ret. pre.
Qed.

Lemma branchOf_world basicInfo :
  Forall (fun p => forall row, follows (onWorld Q) (p row)) (branchOf E basicInfo).
Proof.
  unfold branchOf.
  destruct (statusIs "terminated" basicInfo); [|destruct (statusIs "closed" basicInfo)].
  - unfold liquidationProcessors.
    repeat apply Forall_cons_2; [intros row..|apply Forall_nil_2].
    + apply follows_bind; [pre | apply beneficiaries_world |].
      intros upd. apply follows_ret. pre.
    + apply follows_bind; [pre | |]; [apply follows_ret; pre|].
      intros upd. apply follows_ret. pre.
  - unfold misfundProcessors.
    repeat apply Forall_cons_2; [intros row..|apply Forall_nil_2].
    apply follows_ret. pre.
  - apply Forall_nil_2.
Qed.

(** The stages after the first one of the generic list. *)
Lemma laterStages_world :
  Forall (fun p => forall row, follows (onWorld Q) (p row))
    (tail (genericStatusProcessors E)).
Proof.
  unfold genericStatusProcessors. simpl.
  repeat apply Forall_cons_2; [intros row..|apply Forall_nil_2].
  - apply follows_bind; [pre | apply keepStatusCompleted_world |].
    intros [s|]; apply follows_ret; pre.
  - apply follows_bind; [pre | apply keepHoldsBtc_world |].
    intros [addr bal]. simpl. destruct (bal >? 0)%Z; apply follows_ret; pre.
Qed.

(** What follows the check of the key shares in the task of a keep. *)
Lemma afterKeyShares_world row st :
  onWorld Q st
    (match processThrough row (tail (genericStatusProcessors E)) st with
     | (Ok basicInfo, st1) => processThrough basicInfo (branchOf E basicInfo) st1
     | (Throw e, st1) => (Throw e, st1)
     end).2.
Proof.
  destruct (processThrough row (tail (genericStatusProcessors E)) st)
    as [[basicInfo|e] st1] eqn:H1;
    pose proof (follows_processThrough _ onWorld_preorder _ _ laterStages_world
                  _ _ _ H1) as S1; [|exact S1].
  destruct (processThrough basicInfo (branchOf E basicInfo) st1) as [r st2] eqn:H2.
  pose proof (follows_processThrough _ onWorld_preorder _ _ (branchOf_world _)
                _ _ _ H2) as S2.
  simpl. unfold onWorld in *. etransitivity; eassumption.
Qed.

Lemma keepTask_after_keyShares keep st :
  onWorld Q (keySharesReady E keep st).2 (keepTask E keep st).2.
Proof.
  rewrite keepTask_chain. unfold genericStatusProcessors at 1.
  rewrite processThrough_cons, processStep_ret.
  change (hasError [("keep", JStr keep)]) with false. cbv beta iota.
  unfold bind at 1. change (keepOf [("keep", JStr keep)]) with keep.
  destruct (keySharesReady E keep st) as [[[]|e] st1]; cbv beta iota; cbn [snd];
    unfold ret at 1; apply afterKeyShares_world.
Qed.

Context (HS : signerRespects Q E).

Lemma keySharesReady_world keep : follows (onWorld Q) (keySharesReady E keep).
Proof.
  unfold keySharesReady.
  apply follows_tryCatch; [pre | |].
  - apply follows_bind; [pre | asks |].
    intros []; [|apply follows_ret; pre].
    apply follows_bind; [pre | asks |].
    intros files. destruct (length files =? 3); [|apply follows_ret; pre].
    apply follows_bind; [pre | apply follows_ask_world; intros; apply HS |].
    intros _. apply follows_ret. pre.
  - intros _. apply follows_ret. pre.
Qed.

Lemma genericStatusProcessors_world :
  Forall (fun p => forall row, follows (onWorld Q) (p row))
    (genericStatusProcessors E).
Proof.
  change (genericStatusProcessors E)
    with (hd (fun row => ret row) (genericStatusProcessors E)
          :: tail (genericStatusProcessors E)).
  apply Forall_cons_2; [|apply laterStages_world].
  intros row. simpl.
  apply follows_bind; [pre | apply keySharesReady_world |].
  intros []; apply follows_ret; pre.
Qed.

Lemma keepTask_world keep : follows (onWorld Q) (keepTask E keep).
Proof.
  unfold keepTask.
  apply follows_bind; [pre | |].
  - apply follows_processThrough; [pre | apply genericStatusProcessors_world].
  - intros basicInfo. pose proof (branchOf_world basicInfo) as Hb.
    unfold branchOf in Hb.
    destruct (statusIs "terminated" basicInfo);
      [|destruct (statusIs "closed" basicInfo)].
    + apply follows_processThrough; [pre | exact Hb].
    + apply follows_processThrough; [pre | exact Hb].
    + apply follows_ret. pre.
Qed.

Lemma processKeeps_world input : follows (onWorld Q) (processKeeps E input).
Proof.
  unfold processKeeps. apply follows_promiseAll; [pre|].
  apply Forall_map_all. intros keep. apply keepTask_world.
Qed.

Lemma main_world input : follows (onWorld Q) (main E input).
Proof.
  unfold main. apply follows_bind; [pre | apply processKeeps_world |].
  intros rows. apply follows_ret. pre.
Qed.

End Worlds.

(** * The script with its signer *)

Section Script.

Context {W : Type} (E : Collab W).
Context (spawn : string -> string -> W -> list Signer.ChildEvent * W).

Lemma sameEnd_preorder : PreOrder (sameEnd (W:=W)).
Proof.
  split.
  - intros lw. reflexivity.
  - intros a b c H1 H2. unfold sameEnd in *. congruence.
Qed.

Lemma staysEnded_preorder : PreOrder (staysEnded (W:=W)).
Proof.
  split.
  - intros lw _. reflexivity.
  - intros a b c H1 H2 Ha. pose proof (H1 Ha) as ->. apply H2, Ha.
Qed.

Lemma staysAlive_preorder : PreOrder (staysAlive (W:=W)).
Proof.
  split.
  - intros lw H. exact H.
  - intros a b c H1 H2 Ha. apply H2, H1, Ha.
Qed.

Lemma whileAlive_alive {A : Type} (q : W -> Result A * W) (w : W) :
  whileAlive q (w, None) = ((q w).1, ((q w).2, None)).
Proof. unfold whileAlive. simpl. destruct (q w). reflexivity. Qed.

Lemma whileAlive_end {A : Type} (q : W -> Result A * W) (lw : Live W) :
  (whileAlive q lw).2.2 = lw.2 /\ (lw.2 <> None -> (whileAlive q lw).2 = lw).
Proof.
  unfold whileAlive. destruct lw as [w [h|]]; simpl.
  - split; [reflexivity | intros _; reflexivity].
  - destruct (q w). simpl. split; [reflexivity | intros H; congruence].
Qed.

Lemma promisedWhileAlive_end (q : W -> Promise * W) (lw : Live W) :
  (promisedWhileAlive q lw).2.2 = lw.2 /\
  (lw.2 <> None -> (promisedWhileAlive q lw).2 = lw).
Proof.
  unfold promisedWhileAlive. destruct lw as [w [h|]]; simpl.
  - split; [reflexivity | intros _; reflexivity].
  - destruct (q w). simpl. split; [reflexivity | intros H; congruence].
Qed.

(** Only the signer can end the script. *)
Lemma withSigner_sameEnd : respects sameEnd (withSigner E spawn).
Proof.
  unfold respects, sameEnd. simpl.
  repeat split; intros;
    first [apply whileAlive_end | apply promisedWhileAlive_end].
Qed.

Lemma signDigest_spawned_ended keep digest (lw : Live W) :
  lw.2 <> None -> (signDigest_spawned E spawn keep digest lw).2 = lw.
Proof.
  unfold signDigest_spawned. destruct lw as [w [h|]]; simpl; [reflexivity|congruence].
Qed.

(** After the end of the script the world is asked no more. *)
Lemma withSigner_staysEnded : respects staysEnded (withSigner E spawn) /\ signerRespects staysEnded (withSigner E spawn).
Proof.
  split.
  - unfold respects, staysEnded. simpl.
    repeat split; intros;
      first [apply whileAlive_end | apply promisedWhileAlive_end]; assumption.
  - intros keep digest lw H. simpl. apply signDigest_spawned_ended, H.
Qed.

Lemma withSigner_staysAlive :
  settles spawn -> respects staysAlive (withSigner E spawn) /\ signerRespects staysAlive (withSigner E spawn).
Proof.
  intros Hs. split.
  - unfold respects, staysAlive. simpl.
    repeat split; intros ? **;
      match goal with
      | H : _ = None |- _ => rewrite <- H
      end;
      first [apply whileAlive_end | apply promisedWhileAlive_end].
  - intros keep digest [w h] H. simpl in H. subst h. simpl.
    unfold signDigest_spawned. simpl.
    destruct (Hs digest (keepDirectory E keep) w) as (r & Hr).
    destruct (spawn digest (keepDirectory E keep) w) as [events w']. simpl in Hr.
    rewrite Hr. reflexivity.
Qed.

End Script.

(** ** The check of the key shares *)

Section KeySharesOfTheScript.

Context {W : Type} (E : Collab W).
Context (spawn : string -> string -> W -> list Signer.ChildEvent * W).

Lemma signerStarted_unique keep (w : W) f f' :
  signerStarted E spawn keep w f -> signerStarted E spawn keep w f' -> f = f'.
Proof.
  intros (w1 & files & w2 & H1 & H2 & _ & H4) (w1' & files' & w2' & H1' & H2' & _ & H4').
  rewrite H1 in H1'. injection H1' as <-.
  rewrite H2 in H2'. injection H2' as <- <-. congruence.
Qed.

Lemma signerStarted_or_not keep (w : W) :
  (exists f, signerStarted E spawn keep w f) \/
  (forall f, ~ signerStarted E spawn keep w f).
Proof.
  unfold signerStarted.
  destruct (stat_isDirectory E (keepDirectory E keep) w) as [[[]|e] w1] eqn:Hstat;
    [|right; intros f (? & ? & ? & [=] & _)..].
  destruct (readdir E (keepDirectory E keep) w1) as [[files|e] w2] eqn:Hread;
    [|right; intros f (? & ? & ? & [= <-] & H2 & _); rewrite Hread in H2;
      discriminate].
  destruct (decide (length files = 3)) as [Hlen|Hlen].
  - left. eexists _, w1, files, w2. auto.
  - right. intros f (? & ? & ? & [= <-] & H2 & H3 & _). rewrite Hread in H2.
    injection H2 as <- <-. contradiction.
Qed.

(** The check when it starts the signer. *)
Lemma keySharesReady_started keep (st : State (Live W)) f :
  halted st = None ->
  signerStarted E spawn keep (world st).1 f ->
  exists w3,
    keySharesReady (withSigner E spawn) keep st
    = (Ok (match f with inl (Ok _) => true | _ => false end),
       setWorld (w3, match f with inr h => Some h | inl _ => None end) st).
Proof.
  unfold halted. intros Hst (w1 & files & w2 & Hstat & Hread & Hlen & Hfate).
  unfold keySharesReady, tryCatch, bind. rewrite ask_run.
  destruct (world st) as [w h] eqn:Hw. simpl in Hst, Hstat. subst h.
  change (keepDirectory (withSigner E spawn) keep) with (keepDirectory E keep).
  simpl. rewrite whileAlive_alive, Hstat. simpl.
  rewrite ask_run. simpl. rewrite whileAlive_alive, Hread. simpl.
  rewrite Hlen. simpl.
  rewrite ask_run. simpl. unfold signDigest_spawned. simpl.
  destruct (spawn "deadbeef" (keepDirectory E keep) w2) as [events w3].
  simpl in Hfate. rewrite Hfate. exists w3.
  destruct f as [[r|e]|h]; reflexivity.
Qed.

(** The check when it does not get to the signer. *)
Lemma keySharesReady_not_started keep (st : State (Live W)) :
  halted st = None ->
  (forall f, ~ signerStarted E spawn keep (world st).1 f) ->
  exists w1, keySharesReady (withSigner E spawn) keep st
             = (Ok false, setWorld (w1, None) st).
Proof.
  unfold halted. intros Hst Hnot.
  unfold keySharesReady, tryCatch, bind. rewrite ask_run.
  destruct (world st) as [w h] eqn:Hw. simpl in Hst, Hnot. subst h.
  change (keepDirectory (withSigner E spawn) keep) with (keepDirectory E keep).
  simpl. rewrite whileAlive_alive.
  destruct (stat_isDirectory E (keepDirectory E keep) w) as [[[]|e] w1] eqn:Hstat;
    simpl; [|eexists; reflexivity..].
  rewrite ask_run. simpl. rewrite whileAlive_alive.
  destruct (readdir E (keepDirectory E keep) w1) as [[files|e] w2] eqn:Hread;
    simpl; [|eexists; reflexivity].
  destruct (length files =? 3) eqn:Hlen; [|eexists; reflexivity].
  exfalso. apply Nat.eqb_eq in Hlen.
  apply (Hnot (Signer.fate (spawn "deadbeef" (keepDirectory E keep) w2).1)).
  exists w1, files, w2. auto.
Qed.

(** The check of the key shares ends the script exactly when it starts
    the signer and the signer ends it. *)
Lemma keySharesReady_end keep (st : State (Live W)) h :
  halted st = None ->
  halted (keySharesReady (withSigner E spawn) keep st).2 = Some h <->
  signerStarted E spawn keep (world st).1 (inr h).
Proof.
  intros Hst.
  destruct (signerStarted_or_not keep (world st).1) as [(f & Hf)|Hnot].
  - destruct (keySharesReady_started keep st f Hst Hf) as (w3 & ->).
    unfold halted. simpl. split.
    + destruct f as [r|h']; [discriminate|]. intros [= <-]. exact Hf.
    + intros Hh. rewrite (signerStarted_unique _ _ _ _ Hf Hh). reflexivity.
  - destruct (keySharesReady_not_started keep st Hst Hnot) as (w1 & ->).
    unfold halted. simpl. split; [discriminate|]. intros Hh. destruct (Hnot _ Hh).
Qed.

(** X1: the check of the key shares never throws.  It yields no answer
    exactly when the keep's directory is a directory with three entries and
    the signer, once started, lets an exception out of its exit handler,
    which ends the script, or never settles its promise; it answers [true]
    exactly when the signer is started and its promise resolves; when it
    answers [false] the signer was not started or its promise was
    rejected. *)
Theorem keySharesReady_decides (keep : string) (st : State (Live W)) :
  halted st = None ->
  (forall h,
      outcome (keySharesReady (withSigner E spawn) keep) st = inr h <->
      signerStarted E spawn keep (world st).1 (inr h)) /\
  ((exists st', outcome (keySharesReady (withSigner E spawn) keep) st
                = inl (Ok true, st')) <->
   exists r, signerStarted E spawn keep (world st).1 (inl (Ok r))) /\
  (forall st', outcome (keySharesReady (withSigner E spawn) keep) st
               = inl (Ok false, st') ->
               forall f, signerStarted E spawn keep (world st).1 f ->
                         exists e, f = inl (Throw e)) /\
  (forall e st', outcome (keySharesReady (withSigner E spawn) keep) st
                 <> inl (Throw e, st')).
Proof.
  intros Hst. unfold outcome.
  destruct (signerStarted_or_not keep (world st).1) as [(f & Hf)|Hnot].
  - destruct (keySharesReady_started keep st f Hst Hf) as (w3 & ->).
    unfold halted. simpl.
    assert (Hu : forall f', signerStarted E spawn keep (world st).1 f' -> f' = f)
      by (intros f' Hf'; apply (signerStarted_unique _ _ _ _ Hf' Hf)).
    destruct f as [[r|e]|h']; (split; [|split; [|split]]).
    + intros h. split; [discriminate | intros Hh; apply Hu in Hh; discriminate].
    + split; [intros _; exists r; exact Hf | eauto].
    + discriminate.
    + discriminate.
    + intros h. split; [discriminate | intros Hh; apply Hu in Hh; discriminate].
    + split; [intros (? & [=]) | intros (r & Hr); apply Hu in Hr; discriminate].
    + intros st' _ f' Hf'. apply Hu in Hf'. eauto.
    + discriminate.
    + intros h. split; [intros [= <-]; exact Hf | intros Hh; apply Hu in Hh; congruence].
    + split; [intros (? & [=]) | intros (r & Hr); apply Hu in Hr; discriminate].
    + discriminate.
    + discriminate.
  - destruct (keySharesReady_not_started keep st Hst Hnot) as (w1 & ->).
    unfold halted. simpl. split; [|split; [|split]].
    + intros h. split; [discriminate | intros Hh; destruct (Hnot _ Hh)].
    + split; [intros (? & [=]) | intros (r & Hr); destruct (Hnot _ Hr)].
    + intros st' _ f Hf. destruct (Hnot _ Hf).
    + discriminate.
Qed.

End KeySharesOfTheScript.

(** ** The tasks and the batch *)

Lemma promiseAll_app_state {W A : Type} (l1 l2 : list (M W A)) (st : State W) :
  (promiseAll (l1 ++ l2) st).2 = (promiseAll l2 (promiseAll l1 st).2).2.
Proof.
  revert st. induction l1 as [|t l1 IH]; intros st; simpl; [reflexivity|].
  destruct (t st) as [r st1]. specialize (IH st1).
  destruct (promiseAll (l1 ++ l2) st1) as [rs st2].
  destruct (promiseAll l1 st1) as [rs1 st3]. exact IH.
Qed.

Lemma promiseAll_cons_state {W A : Type} (t : M W A) (ts : list (M W A))
    (st : State W) :
  (promiseAll (t :: ts) st).2 = (promiseAll ts (t st).2).2.
Proof.
  simpl. destruct (t st) as [r st1]. simpl.
  destruct (promiseAll ts st1) as [rs st2]. reflexivity.
Qed.

Lemma main_state {W : Type} (E : Collab W) input (st : State W) :
  (main E input st).2 = (processKeeps E input st).2.
Proof.
  unfold main, bind. destruct (processKeeps E input st) as [[rows|e] st']; reflexivity.
Qed.

(** What a stage throws on a row without error becomes the error of that
    row, and the stages after it do not run. *)
Lemma processThrough_caught {W : Type} (row : Row)
    (pre post : list (Row -> M W Row)) (process : Row -> M W Row)
    (st st1 st2 : State W) (r : Row) (e : Exn) :
  processThrough row pre st = (Ok r, st1) ->
  hasError r = false ->
  process r st1 = (Throw e, st2) ->
  processThrough row (pre ++ process :: post) st
  = (Ok (Obj.spread r [("error", JStr ("Error processing transaction: " +:+ e))]),
     st2).
Proof.
  intros Hpre Hr Hthrow.
  rewrite processThrough_app, Hpre, processThrough_cons, processStep_ret, Hr, Hthrow.
  apply processThrough_frozen.
  unfold hasError, Obj.field, withError. rewrite spread_cons, spread_nil, get_set_same.
  reflexivity.
Qed.

Lemma promiseAll_terminalRows {W : Type} (E : Collab W) keeps :
  forall (st : State W) rows st',
    promiseAll (map (keepTask E) keeps) st = (Ok rows, st') ->
    Forall2 terminalRow keeps rows.
Proof.
  induction keeps as [|k ks IH]; intros st rows st'; simpl.
  - intros [= <- _]. constructor.
  - destruct (keepTask_terminalRow E k st) as (r & st1 & Hk & Hr). rewrite Hk.
    destruct (promiseAll (map (keepTask E) ks) st1) as [[rs|e] st2] eqn:Hrest;
      [|discriminate].
    intros [= <- _]. constructor; [exact Hr | eapply IH, Hrest].
Qed.

Section TasksOfTheScript.

Context {W : Type} (E : Collab W).
Context (spawn : string -> string -> W -> list Signer.ChildEvent * W).

(** The task of a keep ends the script exactly when its check of the key
    shares does. *)
Lemma keepTask_end keep (st : State (Live W)) :
  halted (keepTask (withSigner E spawn) keep st).2
  = halted (keySharesReady (withSigner E spawn) keep st).2.
Proof.
  apply (keepTask_after_keyShares sameEnd sameEnd_preorder (withSigner E spawn)
           (withSigner_sameEnd E spawn) keep st).
Qed.

(** Once the script has ended, the tasks that are left change nothing. *)
Lemma promiseAll_ended keeps (st : State (Live W)) h :
  halted st = Some h ->
  halted (promiseAll (map (keepTask (withSigner E spawn)) keeps) st).2 = Some h.
Proof.
  intros Hst.
  destruct (promiseAll (map (keepTask (withSigner E spawn)) keeps) st)
    as [rs st'] eqn:Hrun.
  destruct (withSigner_staysEnded E spawn) as [HE HS].
  pose proof (follows_promiseAll _ (onWorld_preorder staysEnded staysEnded_preorder)
                _ (Forall_map_all _ _ keeps
                     (keepTask_world staysEnded staysEnded_preorder _ HE HS))
                _ _ _ Hrun) as Hsame.
  unfold onWorld, staysEnded, halted in *. simpl.
  rewrite Hsame; [exact Hst | congruence].
Qed.

(** X7: the task of a keep yields no row exactly when its check of the
    key shares starts the signer and the signer lets an exception out of
    its exit handler or never settles its promise; in every other case it
    returns, and the row it returns is one of eight: the keep
    alone with one of three errors; the keep and its status with one of
    two errors; a closed keep with its address and positive balance; or a
    terminated keep with its address and positive balance and either an
    error of the liquidation branch or the three beneficiary fields. *)
Theorem keepTask_ends_in_a_terminal_row (keep : string) (st : State (Live W)) :
  halted st = None ->
  (forall h,
      outcome (keepTask (withSigner E spawn) keep) st = inr h <->
      signerStarted E spawn keep (world st).1 (inr h)) /\
  (forall r st',
      outcome (keepTask (withSigner E spawn) keep) st = inl (r, st') ->
      exists row, r = Ok row /\ terminalRow keep row).
Proof.
  intros Hst. unfold outcome. rewrite keepTask_end. split.
  - intros h. rewrite <- (keySharesReady_end E spawn keep st h Hst).
    destruct (halted (keySharesReady (withSigner E spawn) keep st).2) as [h'|];
      split; congruence.
  - intros r st'.
    destruct (halted (keySharesReady (withSigner E spawn) keep st).2); [discriminate|].
    destruct (keepTask_terminalRow (withSigner E spawn) keep st)
      as (row & st1 & Hrun & Hrow).
    rewrite Hrun. intros [= <- _]. exists row. auto.
Qed.

(** C4: what a stage throws through its promise is caught in the same
    turn of the chain and becomes the [error] field of the row, with the
    description of the exception; the other fields stay, no later stage
    runs, and the task of the keep returns that row.  With a signer whose
    promise always settles the batch returns one row for every keep.  What
    the exit handler of the signer throws is outside every promise and is
    caught by nobody: the task of the keep returns no row, and the batch
    and the script end there without a report. *)
Theorem C4_stage_exceptions_and_the_signer :
  (forall (row : Row) (pre post : list (Row -> M W Row)) process st st1 st2 r e,
      processThrough row pre st = (Ok r, st1) ->
      hasError r = false ->
      process r st1 = (Throw e, st2) ->
      processThrough row (pre ++ process :: post) st
      = (Ok (Obj.spread r [("error", JStr ("Error processing transaction: " +:+ e))]),
         st2) /\
      Obj.get "error"
        (Obj.spread r [("error", JStr ("Error processing transaction: " +:+ e))])
      = Some (JStr ("Error processing transaction: " +:+ e)) /\
      forall key, key <> "error" ->
        Obj.get key
          (Obj.spread r [("error", JStr ("Error processing transaction: " +:+ e))])
        = Obj.get key r) /\
  (forall keep (st stg st1 st2 : State W) basicInfo pre process post r e,
      processThrough [("keep", JStr keep)] (genericStatusProcessors E) st
      = (Ok basicInfo, stg) ->
      genericStatusProcessors E ++ branchOf E basicInfo = pre ++ process :: post ->
      processThrough [("keep", JStr keep)] pre st = (Ok r, st1) ->
      hasError r = false ->
      process r st1 = (Throw e, st2) ->
      keepTask E keep st
      = (Ok (Obj.spread r [("error", JStr ("Error processing transaction: " +:+ e))]),
         st2)) /\
  (settles spawn ->
   forall input (st : State (Live W)),
     halted st = None ->
     exists rows st',
       outcome (processKeeps (withSigner E spawn) input) st = inl (Ok rows, st') /\
       Forall2 rowOf (distinctKeeps input) rows /\
       Forall2 terminalRow (distinctKeeps input) rows /\
       outcome (main (withSigner E spawn) input) st = inl (Ok (report rows), st')) /\
  (forall input before keep rest (st0 st : State (Live W)) e,
      distinctKeeps input = before ++ keep :: rest ->
      (promiseAll (map (keepTask (withSigner E spawn)) before) st0).2 = st ->
      halted st = None ->
      signerStarted E spawn keep (world st).1 (inr (Signer.Uncaught e)) ->
      outcome (keepTask (withSigner E spawn) keep) st = inr (Signer.Uncaught e) /\
      outcome (processKeeps (withSigner E spawn) input) st0
      = inr (Signer.Uncaught e) /\
      outcome (main (withSigner E spawn) input) st0 = inr (Signer.Uncaught e)).
Proof.
  split; [|split; [|split]].
  - intros row pre post process st st1 st2 r e Hpre Hr Hthrow.
    split; [apply (processThrough_caught row pre post process st st1 st2);
            assumption|].
    rewrite spread_cons, spread_nil. split; [apply get_set_same|].
    intros key Hkey. apply get_set_other, Hkey.
  - intros keep st stg st1 st2 basicInfo pre process post r e Hgen Hsplit Hpre Hr Hthrow.
    rewrite keepTask_chain, Hgen.
    transitivity (processThrough [("keep", JStr keep)]
                    (genericStatusProcessors E ++ branchOf E basicInfo) st).
    + rewrite processThrough_app, Hgen. reflexivity.
    + rewrite Hsplit.
      apply (processThrough_caught _ pre post process st st1 st2); assumption.
  - intros Hsettles input st Hst.
    destruct (promiseAll_keepTasks (withSigner E spawn) (distinctKeeps input) st)
      as (rows & st' & Hrun & Hrows).
    fold (processKeeps (withSigner E spawn) input) in Hrun.
    destruct (withSigner_staysAlive E spawn Hsettles) as [HE HS].
    pose proof (processKeeps_world staysAlive staysAlive_preorder _ HE HS
                  input _ _ _ Hrun Hst) as Halive.
    pose proof (promiseAll_terminalRows _ _ _ _ _ Hrun) as Hterminal.
    exists rows, st'. unfold outcome, main, bind. rewrite Hrun. simpl.
    unfold halted. rewrite Halive. auto.
  - intros input before keep rest st0 st e Hkeeps Hbefore Hst Hstarted.
    set (h := Signer.Uncaught e) in *.
    assert (Hk : halted (keepTask (withSigner E spawn) keep st).2 = Some h).
    { rewrite keepTask_end. apply keySharesReady_end; assumption. }
    assert (Hall : halted (processKeeps (withSigner E spawn) input st0).2 = Some h).
    { unfold processKeeps. rewrite Hkeeps, map_app, promiseAll_app_state, Hbefore.
      rewrite map_cons, promiseAll_cons_state. apply promiseAll_ended, Hk. }
    unfold outcome. rewrite main_state, Hk, Hall. auto.
Qed.

End TasksOfTheScript.

(** C4 at work: what the failing stage throws on the row of [K1] becomes
    the error of the row.  The signer of keep [K3] exits with code 0
    before its output has reached the handler: the task of [K3] returns no
    row, and the batch of [K1], [K3] and [K2] ends without a report. *)
Lemma C4_signer_of_K3_ends_the_batch :
  processThrough [("keep", JStr "K1")] [Scenario.failingStage; Scenario.failingStage]
    (initialState 0)
  = (Ok [("keep", JStr "K1");
         ("error", JStr "Error processing transaction: Error: boom")],
     initialState 0) /\
  outcome (keepTask Keyring.script "K3")
    (promiseAll (map (keepTask Keyring.script) ["K1"]) (initialState (0, None))).2
  = inr (Signer.Uncaught Signer.trimOfUndefined) /\
  outcome (processKeeps Keyring.script
             [[("keep", "K1")]; [("keep", "K3")]; [("keep", "K2")]])
    (initialState (0, None))
  = inr (Signer.Uncaught Signer.trimOfUndefined) /\
  outcome (main Keyring.script
             [[("keep", "K1")]; [("keep", "K3")]; [("keep", "K2")]])
    (initialState (0, None))
  = inr (Signer.Uncaught Signer.trimOfUndefined).
Proof.
  split.
  - apply (proj1 (C4_stage_exceptions_and_the_signer Scenario.threeSigners
                    Keyring.signer)
             [("keep", JStr "K1")] [] [Scenario.failingStage] Scenario.failingStage
             (initialState 0) (initialState 0) (initialState 0)
             [("keep", JStr "K1")] (Error "boom")); reflexivity.
  - apply (proj2 (proj2 (proj2
             (C4_stage_exceptions_and_the_signer Scenario.threeSigners Keyring.signer)))
             [[("keep", "K1")]; [("keep", "K3")]; [("keep", "K2")]]
             ["K1"] "K3" ["K2"] (initialState (0, None))).
    + vm_compute. reflexivity.
    + reflexivity.
    + vm_compute. reflexivity.
    + exists 5, ["share1"; "share2"; "share3"], 5. vm_compute. auto.
Defined.

(** * The text of the report *)

Lemma split_length (c : ascii) (s : string) :
  length (Str.split c s) = S (Str.count c s).
Proof.
  induction s as [|c' t IH]; simpl; [reflexivity|].
  destruct (Ascii.eqb c' c); simpl; [rewrite IH; reflexivity|].
  destruct (Str.split c t) as [|piece pieces]; [discriminate|]. exact IH.
Qed.

Lemma count_append (c : ascii) (a b : string) :
  Str.count c (a +:+ b) = Str.count c a + Str.count c b.
Proof.
  induction a as [|c' t IH]; simpl; [reflexivity|].
  change (String c' t +:+ b) with (String c' (t +:+ b)). simpl.
  rewrite IH. lia.
Qed.








Lemma commas_none (cells : list string) :
  Forall (fun cell => Str.count "," cell = 0) cells -> commas cells = 0.
Proof. induction 1 as [|cell cells H _ IH]; simpl; [reflexivity|]. rewrite H, IH. reflexivity. Qed.

Section ReportText.

Context {W : Type} (E : Collab W).





End ReportText.


(** * The reference block under interleaving *)

Section ReferenceBlock.

Context {W : Type} (E : Collab W).

Lemma referenceBlock_remembered (st : State W) b :
  rememberedBlock st = Some b -> referenceBlock E st = (Ok b, st).
Proof.
  unfold rememberedBlock, referenceBlock, bind, getState.
  destruct (startingBlock st) as [b'|]; [|discriminate].
  destruct (b' =? 0)%N; [discriminate|]. intros [= ->]. reflexivity.
Qed.

Lemma referenceBlock_asks (st : State W) :
  rememberedBlock st = None ->
  referenceBlock E st
  = match getBlockNumber E (world st) with
    | (Ok b, w) => (Ok b, (setStartingBlock b (setWorld w st)).2)
    | (Throw e, w) => (Throw e, setWorld w st)
    end.
Proof.
  unfold rememberedBlock, referenceBlock, bind, getState. intros H.
  assert (Hq : (b' <- ask (getBlockNumber E);; exec setStartingBlock b';; ret b') st
               = match getBlockNumber E (world st) with
                 | (Ok b, w) => (Ok b, (setStartingBlock b (setWorld w st)).2)
                 | (Throw e, w) => (Throw e, setWorld w st)
                 end).
  { unfold bind. rewrite ask_run.
    destruct (getBlockNumber E (world st)) as [[b|e] w]; reflexivity. }
  destruct (startingBlock st) as [b'|]; [|exact Hq].
  destruct (b' =? 0)%N; [exact Hq | discriminate].
Qed.

(** X18: a call of [referenceBlock] that nothing interleaves with is its
    two halves run in turn.  From a state without a remembered block, two
    calls that run one after the other ask the chain once and both return
    its answer; two calls that overlap both ask, each returns its own
    answer, and the later answer replaces the block the first call
    returned. *)
Theorem referenceBlock_overlapping_calls_ask_again (st : State W)
    (b1 b2 : N) (w1 w2 : W) :
  rememberedBlock st = None ->
  getBlockNumber E (world st) = (Ok b1, w1) ->
  getBlockNumber E w1 = (Ok b2, w2) ->
  b1 <> 0%N ->
  runBlockCalls E [EnterReferenceBlock; ResumeReferenceBlock] (st, [], [])
  = runBlockCalls E [CallReferenceBlock] (st, [], []) /\
  runBlockCalls E [CallReferenceBlock; CallReferenceBlock] (st, [], [])
  = ((setStartingBlock b1 (setWorld w1 st)).2, [], [Ok b1; Ok b1]) /\
  runBlockCalls E [EnterReferenceBlock; EnterReferenceBlock;
                   ResumeReferenceBlock; ResumeReferenceBlock] (st, [], [])
  = ((setStartingBlock b2 (setWorld w2 st)).2, [], [Ok b2; Ok b1]).
Proof.
  intros Hnone H1 H2 Hb1.
  assert (Hcall : referenceBlock E st = (Ok b1, (setStartingBlock b1 (setWorld w1 st)).2))
    by (rewrite (referenceBlock_asks st Hnone), H1; reflexivity).
  assert (Hsome : rememberedBlock (setStartingBlock b1 (setWorld w1 st)).2 = Some b1).
  { unfold rememberedBlock. simpl. apply N.eqb_neq in Hb1. rewrite Hb1. reflexivity. }
  assert (Hnone1 : rememberedBlock (setWorld w1 st) = None) by exact Hnone.
  unfold runBlockCalls. cbn [fold_left]. unfold stepBlock.
  rewrite Hnone, Hcall, H1. cbn [fst snd app].
  rewrite (referenceBlock_remembered _ _ Hsome), Hnone1. cbn [fst snd app].
  change (world (setWorld w1 st)) with w1. rewrite H2. cbn [fst snd app].
  split; [reflexivity|]. split; reflexivity.
Qed.

End ReferenceBlock.

(** X18 at work: the chain grows by one block between the two queries. *)
Lemma referenceBlock_overlapping_calls_ask_again_9001 :
  runBlockCalls growingChain [EnterReferenceBlock; ResumeReferenceBlock]
    (initialState 0, [], [])
  = runBlockCalls growingChain [CallReferenceBlock] (initialState 0, [], []) /\
  runBlockCalls growingChain [CallReferenceBlock; CallReferenceBlock]
    (initialState 0, [], [])
  = (mkState 1 (Some 9000%N) ∅ ∅ [], [], [Ok 9000%N; Ok 9000%N]) /\
  runBlockCalls growingChain
    [EnterReferenceBlock; EnterReferenceBlock;
     ResumeReferenceBlock; ResumeReferenceBlock] (initialState 0, [], [])
  = (mkState 2 (Some 9001%N) ∅ ∅ [], [], [Ok 9001%N; Ok 9000%N]).
Proof.
  apply (referenceBlock_overlapping_calls_ask_again growingChain (initialState 0)
           9000%N 9001%N 1 2); [reflexivity | reflexivity | reflexivity | discriminate].
Defined.

(** * The signers of the third scenario *)

(** X1 at work: the signer of keep [K3] exits with code 0 before its
    output has reached the handler. *)
Lemma keySharesReady_decides_K3 :
  outcome (keySharesReady Keyring.script "K3") (initialState (0, None))
  = inr (Signer.Uncaught Signer.trimOfUndefined).
Proof.
  apply (proj1 (keySharesReady_decides Scenario.threeSigners Keyring.signer "K3"
                  (initialState (0, None)) eq_refl)).
  exists 0, ["share1"; "share2"; "share3"], 0. vm_compute. auto.
Defined.

(** X7 at work: the signer of keep [K3] ends the script; the signer of
    keep [K4] is killed, its promise is rejected and the task returns the
    row of the missing key shares. *)
Lemma keepTask_ends_in_a_terminal_row_K3_K4 :
  outcome (keepTask Keyring.script "K3") (initialState (0, None))
  = inr (Signer.Uncaught Signer.trimOfUndefined) /\
  exists row,
    Ok [("keep", JStr "K4"); ("error", JStr "missing key shares")] = Ok row /\
    terminalRow "K4" row.
Proof.
  split.
  - apply (proj1 (keepTask_ends_in_a_terminal_row Scenario.threeSigners
                    Keyring.signer "K3" (initialState (0, None)) eq_refl)).
    exists 0, ["share1"; "share2"; "share3"], 0. vm_compute. auto.
  - apply (proj2 (keepTask_ends_in_a_terminal_row Scenario.threeSigners
                    Keyring.signer "K4" (initialState (0, None)) eq_refl)
             (Ok [("keep", JStr "K4"); ("error", JStr "missing key shares")])
             (initialState (0, None))).
    vm_compute. reflexivity.
Defined.

(** * The child process of the signer *)

Lemma append_empty_r (s : string) : s +:+ EmptyString = s.
Proof. induction s as [|c s IH]; [reflexivity|]. change (String c s +:+ EmptyString) with (String c (s +:+ EmptyString)). rewrite IH. reflexivity. Qed.

Lemma append_assoc_string (a b c : string) : (a +:+ b) +:+ c = a +:+ (b +:+ c).
Proof.
  induction a as [|x a IH]; [reflexivity|].
  change ((String x a +:+ b) +:+ c) with (String x ((a +:+ b) +:+ c)).
  rewrite IH. reflexivity.
Qed.

(** The buffers after output only. *)
Lemma handle_data (events : list Signer.ChildEvent) : forall out err,
  Signer.onlyData events = true ->
  fold_left Signer.handle events (Signer.mkSigning out err None None)
  = Signer.mkSigning (out +:+ Signer.stdoutOf events)
      (err +:+ Signer.stderrOf events) None None.
Proof.
  induction events as [|ev events IH]; intros out err Hdata; simpl.
  - rewrite !append_empty_r. reflexivity.
  - simpl in Hdata. apply andb_true_iff in Hdata as [Hev Hrest].
    destruct ev as [chunk|chunk|code signal|error]; try discriminate;
      unfold Signer.handle at 2; simpl; rewrite IH by exact Hrest;
      rewrite ?append_assoc_string; reflexivity.
Qed.

(** After an exception has got out no handler runs. *)
Lemma handle_gone (events : list Signer.ChildEvent) (s : Signer.Signing) :
  Signer.uncaught s <> None -> fold_left Signer.handle events s = s.
Proof.
  intros H. induction events as [|ev events IH]; simpl; [reflexivity|].
  unfold Signer.handle at 2. destruct (Signer.uncaught s); [exact IH | congruence].
Qed.

(** Once the promise has settled and the output holds a tab, the events
    that follow change neither the settlement nor anything else but the
    buffers. *)
Lemma handle_settled (events : list Signer.ChildEvent) : forall s r,
  Signer.settled s = Some r ->
  Signer.uncaught s = None ->
  0 < Str.count Signer.tab (Signer.output s) ->
  Signer.settled (fold_left Signer.handle events s) = Some r /\
  Signer.uncaught (fold_left Signer.handle events s) = None.
Proof.
  induction events as [|ev events IH]; intros s r Hs Hu Htab; simpl; [auto|].
  assert (Hstep : Signer.settled (Signer.handle s ev) = Some r /\
                  Signer.uncaught (Signer.handle s ev) = None /\
                  0 < Str.count Signer.tab (Signer.output (Signer.handle s ev))).
  { unfold Signer.handle. rewrite Hu.
    destruct ev as [chunk|chunk|code signal|error]; simpl.
    - rewrite count_append. repeat split; [assumption.. | lia].
    - auto.
    - unfold Signer.onExit, Signer.settle. rewrite Hs.
      destruct (bool_decide (code = Some 0%Z)); [|auto].
      pose proof (split_length Signer.tab (Signer.output s)) as Hlen.
      destruct (Str.split Signer.tab (Signer.output s)) as [|pk [|sg more]];
        simpl in Hlen; [lia | lia | auto].
    - unfold Signer.onError, Signer.settle. rewrite Hs. auto. }
  destruct Hstep as (Hs' & Hu' & Htab'). apply IH; assumption.
Qed.

(** X27: what becomes of a call of [signDigest] is decided when the
    child process exits.  With exit code 0 and a tab in the output
    collected by then, the promise resolves with the trimmed second and
    first pieces of that output, whatever follows; with exit code 0 and no
    tab in it, the exit handler lets a [TypeError] out and the script ends,
    whatever the process has printed that arrives later; with any other
    code the promise is rejected with the text that names the signal, the
    code and the error output. *)
Theorem signDigest_is_decided_at_exit (before after : list Signer.ChildEvent)
    (code : option Z) (signal : option string) :
  Signer.onlyData before = true ->
  (code = Some 0%Z ->
   forall publicKey signature more,
     Str.split Signer.tab (Signer.stdoutOf before) = publicKey :: signature :: more ->
     Signer.fate (before ++ Signer.Exit code signal :: after)
     = inl (Ok (Str.trim signature, Str.trim publicKey))) /\
  (code = Some 0%Z ->
   Str.count Signer.tab (Signer.stdoutOf before) = 0 ->
   Signer.fate (before ++ Signer.Exit code signal :: after)
   = inr (Signer.Uncaught Signer.trimOfUndefined)) /\
  (code <> Some 0%Z ->
   Signer.onlyData after = true ->
   Signer.fate (before ++ Signer.Exit code signal :: after)
   = inl (Throw (Error ("Process exited abnormally with signal " +:+
                        Signer.orNull id signal +:+ " and code " +:+
                        Signer.orNull Js.digits code +:+
                        Signer.stderrOf before)))).
Proof.
  intros Hdata.
  assert (Hrun : Signer.run (before ++ Signer.Exit code signal :: after)
                 = fold_left Signer.handle after
                     (Signer.onExit code signal
                        (Signer.mkSigning (Signer.stdoutOf before)
                           (Signer.stderrOf before) None None))).
  { unfold Signer.run. rewrite fold_left_app, (handle_data before _ _ Hdata).
    reflexivity. }
  unfold Signer.fate. cbv zeta. rewrite Hrun. clear Hrun.
  pose proof (split_length Signer.tab (Signer.stdoutOf before)) as Hlen.
  split; [|split].
  - intros -> publicKey signature more Hsplit.
    assert (Hexit : Signer.onExit (Some 0%Z) signal
                      (Signer.mkSigning (Signer.stdoutOf before)
                         (Signer.stderrOf before) None None)
                    = Signer.mkSigning (Signer.stdoutOf before)
                        (Signer.stderrOf before)
                        (Some (Ok (Str.trim signature, Str.trim publicKey))) None)
      by (unfold Signer.onExit; simpl; rewrite Hsplit; reflexivity).
    rewrite Hexit, Hsplit in *. simpl in Hlen.
    destruct (handle_settled after
                (Signer.mkSigning (Signer.stdoutOf before) (Signer.stderrOf before)
                   (Some (Ok (Str.trim signature, Str.trim publicKey))) None)
                (Ok (Str.trim signature, Str.trim publicKey))
                eq_refl eq_refl ltac:(simpl; lia)) as [Hs Hu].
    rewrite Hu, Hs. reflexivity.
  - intros -> Hcount. rewrite Hcount in Hlen.
    assert (Hexit : Signer.onExit (Some 0%Z) signal
                      (Signer.mkSigning (Signer.stdoutOf before)
                         (Signer.stderrOf before) None None)
                    = Signer.mkSigning (Signer.stdoutOf before)
                        (Signer.stderrOf before) None (Some Signer.trimOfUndefined)).
    { unfold Signer.onExit. simpl.
      destruct (Str.split Signer.tab (Signer.stdoutOf before)) as [|pk [|sg more]];
        simpl in Hlen; [reflexivity | reflexivity | lia]. }
    rewrite Hexit, handle_gone by discriminate. reflexivity.
  - intros Hcode Hafter.
    assert (Hexit : Signer.onExit code signal
                      (Signer.mkSigning (Signer.stdoutOf before)
                         (Signer.stderrOf before) None None)
                    = Signer.mkSigning (Signer.stdoutOf before)
                        (Signer.stderrOf before)
                        (Some (Throw (Error ("Process exited abnormally with signal " +:+
                                             Signer.orNull id signal +:+ " and code " +:+
                                             Signer.orNull Js.digits code +:+
                                             Signer.stderrOf before)))) None)
      by (unfold Signer.onExit; rewrite bool_decide_eq_false_2 by exact Hcode;
          reflexivity).
    rewrite Hexit.
    assert (Hrest : forall evs out err r,
               Signer.onlyData evs = true ->
               Signer.settled (fold_left Signer.handle evs
                                 (Signer.mkSigning out err (Some r) None)) = Some r /\
               Signer.uncaught (fold_left Signer.handle evs
                                  (Signer.mkSigning out err (Some r) None)) = None).
    { induction evs as [|ev evs IH]; intros out err r Hevs; [auto|].
      simpl in Hevs. apply andb_true_iff in Hevs as [Hev Hevs].
      destruct ev; try discriminate; apply (IH _ _ _ Hevs). }
    destruct (Hrest after (Signer.stdoutOf before) (Signer.stderrOf before)
                (Throw (Error ("Process exited abnormally with signal " +:+
                               Signer.orNull id signal +:+ " and code " +:+
                               Signer.orNull Js.digits code +:+
                               Signer.stderrOf before))) Hafter) as [Hs Hu].
    rewrite Hu, Hs. reflexivity.
Qed.

(** X27 at work: the signer of keep [K3], whose output arrives after its
    exit. *)
Lemma signDigest_is_decided_at_exit_K3 :
  Signer.fate ([] ++ Signer.Exit (Some 0%Z) None
                  :: [Signer.StdoutData ("04a1b2c3" +:+ String Signer.tab "3045022100f0")])
  = inr (Signer.Uncaught Signer.trimOfUndefined).
Proof.
  apply (proj1 (proj2 (signDigest_is_decided_at_exit [] _ (Some 0%Z) None eq_refl)));
    reflexivity.
Defined.
